(** * jobsub-pnfs-dropbox-cleanup: the reconciliation pipeline of main.go

    A shallow embedding of [main.go] and of the parts of Go's standard
    library it calls ([strings], [slices], [time], [regexp], [io]),
    followed by the properties of the pipeline.

    Conventions.
    - A Go [string] is a sequence of bytes: Rocq's [string], one [ascii]
      per byte.  [len] is [String.length].
    - A Go [int], [int64] or [uint64] is a [Z]; where the source relies on
      64-bit wrap-around ([Time.Sub]) the wrap is written out.
    - A Go slice is [option (list A)]: [None] is the [nil] slice, which
      [len] and [range] treat as empty.
    - A Go result [(T, error)] is a pair [T * option error]; [None] is the
      [nil] error. *)

From Stdlib Require Import ZArith Lia List Ascii String Bool.
From stdpp Require Import base option list gmap strings.

Local Open Scope Z_scope.

(** ** Bytes and strings *)

Module GoString.

Definition byteZ (c : ascii) : Z := Z.of_N (N_of_ascii c).

Definition byte_of_Z (z : Z) : ascii := ascii_of_N (Z.to_N (z mod 256)).

Definition len (s : string) : Z := Z.of_nat (String.length s).

(** [s[i:]] for [0 <= i <= len s]. *)
Fixpoint drop (n : nat) (s : string) : string :=
  match n, s with
  | O, _ => s
  | S n', String _ s' => drop n' s'
  | S _, EmptyString => EmptyString
  end.

(** [s[:i]] for [0 <= i <= len s]. *)
Fixpoint take (n : nat) (s : string) : string :=
  match n, s with
  | O, _ => EmptyString
  | S n', String c s' => String c (take n' s')
  | S _, EmptyString => EmptyString
  end.

(** [string(b)] for a byte [b]: the conversion goes through [rune], so the
    result is the UTF-8 encoding of the code point [b] (two bytes from
    0x80 on). *)
Definition string_of_byte (b : ascii) : string :=
  let v := byteZ b in
  if v <? 128 then String b EmptyString
  else String (byte_of_Z (Z.lor 192 (Z.shiftr v 6)))
         (String (byte_of_Z (Z.lor 128 (Z.land v 63))) EmptyString).

(** [strings.HasPrefix]. *)
Fixpoint HasPrefix (s prefix : string) {struct prefix} : bool :=
  match prefix, s with
  | EmptyString, _ => true
  | String p prefix', String c s' => Ascii.eqb c p && HasPrefix s' prefix'
  | String _ _, EmptyString => false
  end.

(** [slices.Contains] on a slice of strings. *)
Definition Contains (l : list string) (x : string) : bool :=
  existsb (String.eqb x) l.

(** *** Package strings: [Split] *)

(** [strings.IndexByte(s, c)]: index of the first [c] in [s]. *)
Fixpoint IndexByte (s : string) (c : ascii) : option nat :=
  match s with
  | EmptyString => None
  | String b s' =>
      if Ascii.eqb b c then Some O
      else match IndexByte s' c with Some i => Some (S i) | None => None end
  end.

(** [strings.Count(s, sep)] for a one-byte [sep]. *)
Fixpoint Count (s : string) (sep : ascii) : nat :=
  match s with
  | EmptyString => O
  | String b s' => if Ascii.eqb b sep then S (Count s' sep) else Count s' sep
  end.

(** The loop of [genSplit]: at most [n] more cuts, then the rest of [s] is
    the last element. *)
Fixpoint genSplit_loop (n : nat) (s : string) (sep : ascii) : list string :=
  match n with
  | O => [s]
  | S n' =>
      match IndexByte s sep with
      | None => [s]
      | Some m => take m s :: genSplit_loop n' (drop (m + 1) s) sep
      end
  end.

(** [strings.Split(s, sep)] for a one-byte [sep]: [genSplit(s, sep, 0, -1)]
    with [n = Count(s, sep) + 1] elements. *)
Definition Split (s : string) (sep : ascii) : list string :=
  genSplit_loop (Count s sep) s sep.

(** *** Package unicode/utf8 *)

Definition RuneError : Z := 65533.
Definition RuneSelf : Z := 128.
Definition UTFMax : nat := 4.

Definition byteAt (s : string) (i : nat) : Z :=
  match String.get i s with Some c => byteZ c | None => 0 end.

Definition continuation (lo hi b : Z) : bool := (lo <=? b) && (b <=? hi).

(** [utf8.DecodeRuneInString(s)]: the first rune of [s] and its width;
    [(RuneError, 1)] for an invalid encoding, [(RuneError, 0)] for the
    empty string.  The [first] and [acceptRanges] tables are unfolded
    into the ranges of the leading byte. *)
Definition DecodeRuneInString (s : string) : Z * nat :=
  let n := String.length s in
  if (n <? 1)%nat then (RuneError, O)
  else
    let s0 := byteAt s 0 in
    if s0 <? 128 then (s0, 1%nat) (* ASCII *)
    else if (s0 <? 194) || (244 <? s0) then (RuneError, 1%nat) (* invalid leading byte *)
    else
      let sz : nat := if s0 <? 224 then 2%nat else if s0 <? 240 then 3%nat else 4%nat in
      let '(lo, hi) :=
        if s0 =? 224 then (160, 191)
        else if s0 =? 237 then (128, 159)
        else if s0 =? 240 then (144, 191)
        else if s0 =? 244 then (128, 143)
        else (128, 191) in
      if (n <? sz)%nat then (RuneError, 1%nat)
      else
        let s1 := byteAt s 1 in
        if negb (continuation lo hi s1) then (RuneError, 1%nat)
        else if (sz <=? 2)%nat then
          (Z.lor (Z.shiftl (Z.land s0 31) 6) (Z.land s1 63), 2%nat)
        else
          let s2 := byteAt s 2 in
          if negb (continuation 128 191 s2) then (RuneError, 1%nat)
          else if (sz <=? 3)%nat then
            (Z.lor (Z.lor (Z.shiftl (Z.land s0 15) 12) (Z.shiftl (Z.land s1 63) 6))
               (Z.land s2 63), 3%nat)
          else
            let s3 := byteAt s 3 in
            if negb (continuation 128 191 s3) then (RuneError, 1%nat)
            else
              (Z.lor (Z.lor (Z.lor (Z.shiftl (Z.land s0 7) 18) (Z.shiftl (Z.land s1 63) 12))
                        (Z.shiftl (Z.land s2 63) 6)) (Z.land s3 63), 4%nat).

(** [utf8.RuneStart(b)]. *)
Definition RuneStart (b : Z) : bool := negb (Z.land b 192 =? 128).

(** The loop of [DecodeLastRuneInString] that walks back from [start] to
    the closest rune start, no further than [lim]. *)
Fixpoint backToRuneStart (fuel : nat) (s : string) (start lim : Z) : Z :=
  match fuel with
  | O => start
  | S fuel' =>
      if start <? lim then start
      else if RuneStart (byteAt s (Z.to_nat start)) then start
      else backToRuneStart fuel' s (start - 1) lim
  end.

(** [utf8.DecodeLastRuneInString(s)]. *)
Definition DecodeLastRuneInString (s : string) : Z * nat :=
  let end_ := Z.of_nat (String.length s) in
  if end_ =? 0 then (RuneError, O)
  else
    let start := end_ - 1 in
    let r := byteAt s (Z.to_nat start) in
    if r <? RuneSelf then (r, 1%nat)
    else
      (* guard against O(n^2) behavior when traversing backwards through
         strings with long sequences of invalid UTF-8. *)
      let lim := end_ - Z.of_nat UTFMax in
      let lim := if lim <? 0 then 0 else lim in
      let start := backToRuneStart UTFMax s (start - 1) lim in
      let start := if start <? 0 then 0 else start in
      let '(r, size) := DecodeRuneInString (drop (Z.to_nat start) s) in
      if negb (start + Z.of_nat size =? end_) then (RuneError, 1%nat)
      else (r, size).

(** *** Package unicode: [IsSpace] *)

Definition IsSpace (r : Z) : bool :=
  if r <=? 255 then
    existsb (Z.eqb r) [9; 10; 11; 12; 13; 32; 133; 160]
  else
    (* the White_Space table beyond Latin-1 *)
    (r =? 5760) || ((8192 <=? r) && (r <=? 8202)) || (r =? 8232) || (r =? 8233)
    || (r =? 8239) || (r =? 8287) || (r =? 12288).

(** *** Package strings: [TrimSpace] *)

(** [asciiSpace[c] == 1]. *)
Definition asciiSpace (c : ascii) : bool :=
  existsb (Z.eqb (byteZ c)) [9; 10; 11; 12; 13; 32].

(** [indexFunc(s, f, false)]: index of the first rune of [s] that does
    not satisfy [f], walking [s] rune by rune from [i]. *)
Fixpoint indexFuncNot (fuel : nat) (f : Z -> bool) (s : string) (i : nat) : option nat :=
  match fuel with
  | O => None
  | S fuel' =>
      if (String.length s <=? i)%nat then None
      else
        let '(r, size) := DecodeRuneInString (drop i s) in
        if negb (f r) then Some i
        else indexFuncNot fuel' f s (i + size)
  end.

(** [lastIndexFunc(s, f, false)]: index of the last rune of [s[0:i]] that
    does not satisfy [f]. *)
Fixpoint lastIndexFuncNot (fuel : nat) (f : Z -> bool) (s : string) (i : nat) : option nat :=
  match fuel with
  | O => None
  | S fuel' =>
      if (i <=? 0)%nat then None
      else
        let '(r, size) := DecodeLastRuneInString (take i s) in
        let i := (i - size)%nat in
        if negb (f r) then Some i
        else lastIndexFuncNot fuel' f s i
  end.

Definition TrimLeftFunc (s : string) (f : Z -> bool) : string :=
  match indexFuncNot (String.length s) f s 0 with
  | None => EmptyString
  | Some i => drop i s
  end.

Definition TrimRightFunc (s : string) (f : Z -> bool) : string :=
  match lastIndexFuncNot (String.length s) f s (String.length s) with
  | Some i =>
      if byteAt s i >=? RuneSelf then
        let '(_, wid) := DecodeRuneInString (drop i s) in take (i + wid) s
      else take (i + 1) s
  | None => take 0 s
  end.

Definition TrimFunc (s : string) (f : Z -> bool) : string :=
  TrimRightFunc (TrimLeftFunc s f) f.

(** The second loop of [TrimSpace]: [stop] walks down from the end of
    [s], which is already trimmed on the left. *)
Fixpoint trimStop (s : string) (stop : nat) : string :=
  match stop with
  | O => take 0 s
  | S stop' =>
      match String.get stop' s with
      | Some c =>
          if byteZ c >=? RuneSelf then
            (* start has been already trimmed above, should trim end only *)
            TrimRightFunc (take stop s) IsSpace
          else if negb (asciiSpace c) then take stop s
          else trimStop s stop'
      | None => take stop s
      end
  end.

(** [strings.TrimSpace(s)]. *)
Fixpoint TrimSpace (s : string) : string :=
  match s with
  | EmptyString => EmptyString
  | String c s' =>
      if byteZ c >=? RuneSelf then
        (* If we run into a non-ASCII byte, fall back to the slower
           unicode-aware method on the remaining bytes *)
        TrimFunc s IsSpace
      else if negb (asciiSpace c) then trimStop s (String.length s)
      else TrimSpace s'
  end.

End GoString.

(** ** Errors *)

(** [*time.ParseError]. *)
Record ParseError := mkParseError {
  pe_Layout : string;
  pe_Value : string;
  pe_LayoutElem : string;
  pe_ValueElem : string;
  pe_Message : string
}.

(** The error values of the program.  The three sentinels are the package
    variables of main.go; [ErrNoFileEntries] is the [errors.New] of
    [GetDropboxFiles]; [ErrTimeParse] wraps what [time.ParseInLocation]
    returns; [ErrExternal] stands for whatever a provider or a reader
    reports. *)
Inductive error :=
| ErrParseLine
| ErrMalformedPerms
| ErrMissingJobDropboxFiles
| ErrNoFileEntries
| ErrTimeParse (e : ParseError)
| ErrExternal (msg : string).

Definition slice (A : Type) := option (list A).

Definition elems {A} (s : slice A) : list A :=
  match s with Some l => l | None => [] end.

(** ** Package time: instants, the civil calendar, durations

    The functions below follow time.go of Go 1.21 (the release that
    introduced package [slices], which main.go imports).  A [Time] is its
    wall-clock reading: Unix seconds, nanoseconds within the second, and
    the location its fields are presented in.  Times built by [Date],
    [AddDate] and [Parse] carry no monotonic clock reading, so every
    comparison below is the wall-clock one.

    Go keeps the calendar arithmetic in [uint64] counted from the absolute
    epoch (year -292277022399).  From that epoch on none of it wraps, and
    it is written on [Z] with floor division. *)

Module GoTime.

(** [time.UTC] and [time.Local]. *)
Inductive Location := UTC | Local.

Record Time := mkTime {
  unixSec : Z;
  nsec : Z;
  loc : Location
}.

Definition secondsPerMinute : Z := 60.
Definition secondsPerHour : Z := 60 * secondsPerMinute.
Definition secondsPerDay : Z := 24 * secondsPerHour.
Definition daysPer400Years : Z := 365 * 400 + 97.
Definition daysPer100Years : Z := 365 * 100 + 24.
Definition daysPer4Years : Z := 365 * 4 + 1.

Definition absoluteZeroYear : Z := -292277022399.
Definition internalYear : Z := 1.
(** [(absoluteZeroYear - internalYear) * 365.2425 * secondsPerDay]. *)
Definition absoluteToInternal : Z :=
  (absoluteZeroYear - internalYear) * 3652425 * secondsPerDay / 10000.
Definition internalToAbsolute : Z := - absoluteToInternal.
Definition unixToInternal : Z :=
  (1969 * 365 + 1969 / 4 - 1969 / 100 + 1969 / 400) * secondsPerDay.
Definition internalToUnix : Z := - unixToInternal.

Definition January : Z := 1.
Definition February : Z := 2.
Definition March : Z := 3.

(** [time.Now()], from the reading of the wall clock: always in the
    local zone. *)
Definition Now (clockSec clockNsec : Z) : Time := mkTime clockSec clockNsec Local.

(** [time.Time{}]: January 1, year 1, 00:00:00 UTC. *)
Definition zeroTime : Time := mkTime internalToUnix 0 UTC.

(** [daysBefore[m]]: days in a non-leap year before month [m+1]. *)
Definition daysBeforeTable : list Z :=
  [0; 31; 31 + 28; 31 + 28 + 31; 31 + 28 + 31 + 30; 31 + 28 + 31 + 30 + 31;
   31 + 28 + 31 + 30 + 31 + 30; 31 + 28 + 31 + 30 + 31 + 30 + 31;
   31 + 28 + 31 + 30 + 31 + 30 + 31 + 31;
   31 + 28 + 31 + 30 + 31 + 30 + 31 + 31 + 30;
   31 + 28 + 31 + 30 + 31 + 30 + 31 + 31 + 30 + 31;
   31 + 28 + 31 + 30 + 31 + 30 + 31 + 31 + 30 + 31 + 30;
   31 + 28 + 31 + 30 + 31 + 30 + 31 + 31 + 30 + 31 + 30 + 31].

Definition daysBefore (m : Z) : Z := nth (Z.to_nat m) daysBeforeTable 0.

Definition isLeap (year : Z) : bool :=
  (Z.rem year 4 =? 0) && (negb (Z.rem year 100 =? 0) || (Z.rem year 400 =? 0)).

Definition daysIn (m year : Z) : Z :=
  if (m =? February) && isLeap year then 29
  else daysBefore m - daysBefore (m - 1).

(** [norm(hi, lo, base)]: [nhi, nlo] with [hi*base + lo == nhi*base + nlo]
    and [0 <= nlo < base]. *)
Definition norm (hi lo base : Z) : Z * Z :=
  let '(hi, lo) :=
    if lo <? 0 then
      let n := Z.quot (- lo - 1) base + 1 in (hi - n, lo + n * base)
    else (hi, lo) in
  if lo >=? base then
    let n := Z.quot lo base in (hi + n, lo - n * base)
  else (hi, lo).

(** [daysSinceEpoch(year)]: days from the absolute epoch to the start of
    [year]. *)
Definition daysSinceEpoch (year : Z) : Z :=
  let y := year - absoluteZeroYear in
  (* Add in days from 400-year cycles. *)
  let n := y / 400 in
  let y := y - 400 * n in
  let d := daysPer400Years * n in
  (* Add in 100-year cycles. *)
  let n := y / 100 in
  let y := y - 100 * n in
  let d := d + daysPer100Years * n in
  (* Add in 4-year cycles. *)
  let n := y / 4 in
  let y := y - 4 * n in
  let d := d + daysPer4Years * n in
  (* Add in non-leap years. *)
  let n := y in
  d + 365 * n.

Section Zone.

(** The process's local zone, as its offset east of UTC in seconds.
    Zone transitions (daylight saving) are not modelled: [lookup]
    answers the same offset for every instant, with the whole time line
    as its validity interval, as Go does for a zone without
    transitions. *)
Variable localOffset : Z.

Definition zoneOffset (l : Location) : Z :=
  match l with UTC => 0 | Local => localOffset end.

(** [t.abs()]: seconds since the absolute epoch, in [t]'s location. *)
Definition abs (t : Time) : Z :=
  unixSec t + zoneOffset (loc t) + (unixToInternal + internalToAbsolute).

(** [absDate(abs, false)]: the year and the day of the year; the part
    of [absDate] before [if !full { return }]. *)
Definition absYearDay (abs : Z) : Z * Z :=
  (* Split into time and day. *)
  let d := abs / secondsPerDay in
  (* Account for 400 year cycles. *)
  let n := d / daysPer400Years in
  let y := 400 * n in
  let d := d - daysPer400Years * n in
  (* Cut off 100-year cycles.  The last cycle has one extra leap year, so
     on the last day of that year, day / daysPer100Years will be 4
     instead of 3.  Cut it back down to 3 by subtracting n>>2. *)
  let n := d / daysPer100Years in
  let n := n - Z.shiftr n 2 in
  let y := y + 100 * n in
  let d := d - daysPer100Years * n in
  (* Cut off 4-year cycles.  The last cycle has a missing leap year,
     which does not affect the computation. *)
  let n := d / daysPer4Years in
  let y := y + 4 * n in
  let d := d - daysPer4Years * n in
  (* Cut off years within a 4-year cycle.  The last year is a leap year,
     so on the last day of that year, day / 365 will be 4 instead of 3.
     Cut it back down to 3 by subtracting n>>2. *)
  let n := d / 365 in
  let n := n - Z.shiftr n 2 in
  let y := y + n in
  let d := d - 365 * n in
  (y + absoluteZeroYear, d).

(** The rest of [absDate]: month and day of the month from the day of
    the year, [leap] being [isLeap(year)]. *)
Definition monthDay (leap : bool) (yday : Z) : Z * Z :=
  let day := yday in
  if leap && (day =? 31 + 29 - 1) then
    (* Leap day. *)
    (February, 29)
  else
    (* After leap day; pretend it wasn't there. *)
    let day := if leap && (day >? 31 + 29 - 1) then day - 1 else day in
    (* Estimate month on assumption that every month has 31 days.
       The estimate may be too low by at most one month, so adjust. *)
    let month := day / 31 in
    let end_ := daysBefore (month + 1) in
    let '(month, begin) :=
      if day >=? end_ then (month + 1, end_) else (month, daysBefore month) in
    let month := month + 1 in (* because January is 1 *)
    let day := day - begin + 1 in
    (month, day).

(** [absDate(abs, true)]: year, month, day and day of the year. *)
Definition absDate (abs : Z) : Z * Z * Z * Z :=
  let '(year, yday) := absYearDay abs in
  let '(month, day) := monthDay (isLeap year) yday in
  (year, month, day, yday).

(** [t.Date()]. *)
Definition Date_of (t : Time) : Z * Z * Z :=
  let '(year, month, day, _) := absDate (abs t) in (year, month, day).

(** [t.Year()]. *)
Definition Year (t : Time) : Z := fst (absYearDay (abs t)).

(** [t.Clock()]. *)
Definition Clock (t : Time) : Z * Z * Z :=
  let sec := abs t mod secondsPerDay in
  let hour := sec / secondsPerHour in
  let sec := sec - hour * secondsPerHour in
  let min := sec / secondsPerMinute in
  let sec := sec - min * secondsPerMinute in
  (hour, min, sec).

(** [time.Date(year, month, day, hour, min, sec, nsec, loc)]. *)
Definition Date (year month day hour min sec nsec : Z) (l : Location) : Time :=
  (* Normalize month, overflowing into year. *)
  let m := month - 1 in
  let '(year, m) := norm year m 12 in
  let month := m + 1 in
  (* Normalize nsec, sec, min, hour, overflowing into day. *)
  let '(sec, nsec) := norm sec nsec 1000000000 in
  let '(min, sec) := norm min sec 60 in
  let '(hour, min) := norm hour min 60 in
  let '(day, hour) := norm day hour 24 in
  (* Compute days since the absolute epoch. *)
  let d := daysSinceEpoch year in
  (* Add in days before this month. *)
  let d := d + daysBefore (month - 1) in
  let d := if isLeap year && (month >=? March) then d + 1 else d in
  (* Add in days before today. *)
  let d := d + (day - 1) in
  (* Add in time elapsed today. *)
  let abs := d * secondsPerDay in
  let abs := abs + (hour * secondsPerHour + min * secondsPerMinute + sec) in
  let unix := abs + (absoluteToInternal + internalToUnix) in
  (* Look for zone offset for expected time, so we can adjust to UTC. *)
  let offset := zoneOffset l in
  let unix := if negb (offset =? 0) then unix - offset else unix in
  mkTime unix nsec l.

(** [t.AddDate(years, months, days)]. *)
Definition AddDate (t : Time) (years months days : Z) : Time :=
  let '(year, month, day) := Date_of t in
  let '(hour, min, sec) := Clock t in
  Date (year + years) (month + months) (day + days) hour min sec (nsec t) (loc t).

End Zone.

(** [t.After(u)], [t.Before(u)], [t.Equal(u)]. *)
Definition After (t u : Time) : bool :=
  (unixSec t >? unixSec u) || ((unixSec t =? unixSec u) && (nsec t >? nsec u)).

Definition Before (t u : Time) : bool :=
  (unixSec t <? unixSec u) || ((unixSec t =? unixSec u) && (nsec t <? nsec u)).

Definition Equal (t u : Time) : bool :=
  (unixSec t =? unixSec u) && (nsec t =? nsec u).

(** *** Durations: [int64] nanoseconds *)

Definition wrap64 (z : Z) : Z := (z + 2 ^ 63) mod 2 ^ 64 - 2 ^ 63.

Definition minDuration : Z := - 2 ^ 63.
Definition maxDuration : Z := 2 ^ 63 - 1.
Definition Nanosecond : Z := 1.
Definition Microsecond : Z := 1000 * Nanosecond.
Definition Millisecond : Z := 1000 * Microsecond.
Definition Second : Z := 1000 * Millisecond.
Definition Minute : Z := 60 * Second.
Definition Hour : Z := 60 * Minute.

(** [t.sec()]: seconds since January 1, year 1, an [int64]. *)
Definition sec (t : Time) : Z := unixSec t + unixToInternal.

(** [t.addSec(d)], with its overflow check. *)
Definition addSec (t : Time) (d : Z) : Time :=
  let sum := wrap64 (sec t + d) in
  let ext :=
    if Bool.eqb (sum >? sec t) (d >? 0) then sum
    else if d >? 0 then 2 ^ 63 - 1
    else - (2 ^ 63 - 1) in
  mkTime (ext + internalToUnix) (nsec t) (loc t).

(** [t.Add(d)]. *)
Definition Add (t : Time) (d : Z) : Time :=
  let dsec := Z.quot d 1000000000 in
  let ns := nsec t + Z.rem d 1000000000 in
  let '(dsec, ns) :=
    if ns >=? 1000000000 then (dsec + 1, ns - 1000000000)
    else if ns <? 0 then (dsec - 1, ns + 1000000000)
    else (dsec, ns) in
  addSec (mkTime (unixSec t) ns (loc t)) dsec.

(** [t.Sub(u)]: the duration [t - u], saturated at the ends of [int64]. *)
Definition Sub (t u : Time) : Z :=
  let d := wrap64 (wrap64 (wrap64 (sec t - sec u) * Second) + (nsec t - nsec u)) in
  (* Check for overflow or underflow. *)
  if Equal (Add u d) t then d (* d is correct *)
  else if Before t u then minDuration (* t - u is negative out of range *)
  else maxDuration. (* t - u is positive out of range *)

(** *** format.go: layouts and [Parse] *)

(** The layout elements [nextStdChunk] can report for a layout whose
    elements start with one of the bytes J, 0, 1 and 2, which covers the
    two layouts of main.go.  [stdUnmodelled] stands for an element that
    starts with another byte (M, _, 3, 4, 5, P, p, -, Z, '.' or ','). *)
Inductive std :=
| stdNone (* 0: no element found *)
| stdLongMonth | stdMonth | stdNumMonth | stdZeroMonth
| stdDay | stdZeroDay
| stdHour | stdZeroHour12
| stdZeroMinute | stdZeroSecond
| stdLongYear | stdYear | stdZeroYearDay
| stdUnmodelled.

Definition byteIn (lo hi c : ascii) : bool :=
  (GoString.byteZ lo <=? GoString.byteZ c) && (GoString.byteZ c <=? GoString.byteZ hi).

(** [isDigit(s, i)]. *)
Definition isDigit (s : string) (i : nat) : bool :=
  match String.get i s with
  | Some c => byteIn "0" "9" c
  | None => false
  end.

Definition startsWithLowerCase (str : string) : bool :=
  match str with
  | EmptyString => false
  | String c _ => byteIn "a" "z" c
  end.

(** [std0x]: the elements "01" to "06". *)
Definition std0x (c : ascii) : std :=
  match GoString.byteZ c - GoString.byteZ "1" with
  | 0 => stdZeroMonth | 1 => stdZeroDay | 2 => stdZeroHour12
  | 3 => stdZeroMinute | 4 => stdZeroSecond | _ => stdYear
  end.

(** [nextStdChunk(layout)]: the leading literal text, the first layout
    element and the text after it. *)
Fixpoint nextStdChunk (layout : string) : string * std * string :=
  match layout with
  | EmptyString => (EmptyString, stdNone, EmptyString)
  | String c rest =>
      let next := let '(p, e, suffix) := nextStdChunk rest in (String c p, e, suffix) in
      if Ascii.eqb c "J" then (* January, Jan *)
        if GoString.HasPrefix layout "Jan" then
          if GoString.HasPrefix layout "January"
          then (EmptyString, stdLongMonth, GoString.drop 7 layout)
          else if negb (startsWithLowerCase (GoString.drop 3 layout))
          then (EmptyString, stdMonth, GoString.drop 3 layout)
          else next
        else next
      else if Ascii.eqb c "0" then (* 01, 02, 03, 04, 05, 06, 002 *)
        match rest with
        | String c1 rest1 =>
            if byteIn "1" "6" c1 then (EmptyString, std0x c1, rest1)
            else if GoString.HasPrefix rest "02"
            then (EmptyString, stdZeroYearDay, GoString.drop 3 layout)
            else next
        | EmptyString => next
        end
      else if Ascii.eqb c "1" then (* 15, 1 *)
        if GoString.HasPrefix rest "5" then (EmptyString, stdHour, GoString.drop 2 layout)
        else (EmptyString, stdNumMonth, rest)
      else if Ascii.eqb c "2" then (* 2006, 2 *)
        if GoString.HasPrefix layout "2006"
        then (EmptyString, stdLongYear, GoString.drop 4 layout)
        else (EmptyString, stdDay, rest)
      else if existsb (Ascii.eqb c) (list_ascii_of_string "M_345Pp-Z.,")
      then (EmptyString, stdUnmodelled, rest)
      else next
  end.

(** The iterations of [Parse]'s loop over the layout: for each element its
    [prefix], the element and [stdstr]; and the literal text left after
    the last element.  The layout does not depend on the value parsed, so
    it is split up front; each element takes at least one byte, hence the
    fuel. *)
Fixpoint layoutChunks (fuel : nat) (layout : string)
  : list (string * std * string) * string :=
  match fuel with
  | O => ([], layout)
  | S fuel' =>
      let '(prefix, e, suffix) := nextStdChunk layout in
      match e with
      | stdNone => ([], prefix)
      | _ =>
          let stdstr :=
            GoString.take (String.length layout - String.length suffix - String.length prefix)
              (GoString.drop (String.length prefix) layout) in
          let '(cs, last) := layoutChunks fuel' suffix in
          ((prefix, e, stdstr) :: cs, last)
      end
  end.

(** [cutspace(s)]. *)
Fixpoint cutspace (s : string) : string :=
  match s with
  | String c s' => if Ascii.eqb c " " then cutspace s' else s
  | EmptyString => s
  end.

(** [skip(value, prefix)]: removes the given prefix from value, treating
    runs of space characters as equivalent.  [false] is [errBad].  Each
    turn of the loop shortens [prefix], which bounds the fuel. *)
Fixpoint skip_loop (fuel : nat) (value prefix : string) : string * bool :=
  match prefix with
  | EmptyString => (value, true)
  | String p prefix' =>
      match fuel with
      | O => (value, false)
      | S fuel' =>
          if Ascii.eqb p " " then
            match value with
            | String v _ =>
                if negb (Ascii.eqb v " ") then (value, false)
                else skip_loop fuel' (cutspace value) (cutspace prefix)
            | EmptyString => skip_loop fuel' (cutspace value) (cutspace prefix)
            end
          else
            match value with
            | String v value' =>
                if negb (Ascii.eqb v p) then (value, false)
                else skip_loop fuel' value' prefix'
            | EmptyString => (value, false)
            end
      end
  end.

Definition skip (value prefix : string) : string * bool :=
  skip_loop (String.length prefix) value prefix.

Definition digitVal (c : ascii) : Z := GoString.byteZ c - GoString.byteZ "0".

(** [getnum(s, fixed)]: parses [s[0:1]] or [s[0:2]] ([fixed] forces
    [s[0:2]]) as a decimal integer.  [false] is [errBad]; the string is
    then returned unchanged. *)
Definition getnum (s : string) (fixed : bool) : Z * string * bool :=
  if negb (isDigit s 0) then (0, s, false)
  else if negb (isDigit s 1) then
    if fixed then (0, s, false)
    else match s with
         | String c0 s' => (digitVal c0, s', true)
         | EmptyString => (0, s, false)
         end
  else match s with
       | String c0 (String c1 s') => (digitVal c0 * 10 + digitVal c1, s', true)
       | _ => (0, s, false)
       end.

(** [leadingInt(s)]: the leading digits of [s] as a [uint64], and what
    follows them; [None] is [errLeadingInt] (overflow). *)
Fixpoint leadingInt_loop (x : Z) (s : string) : option (Z * string) :=
  match s with
  | EmptyString => Some (x, s)
  | String c s' =>
      if negb (byteIn "0" "9" c) then Some (x, s)
      else if x >? 2 ^ 63 / 10 then None
      else
        let x := x * 10 + digitVal c in
        if x >? 2 ^ 63 then None else leadingInt_loop x s'
  end.

Definition leadingInt (s : string) : option (Z * string) := leadingInt_loop 0 s.

(** [atoi(s)]; [None] is [errAtoi]. *)
Definition atoi (s : string) : option Z :=
  let '(neg, s) :=
    match s with
    | String c s' =>
        if Ascii.eqb c "-" || Ascii.eqb c "+" then (Ascii.eqb c "-", s') else (false, s)
    | EmptyString => (false, s)
    end in
  match leadingInt s with
  | Some (q, EmptyString) => Some (if neg then - q else q)
  | _ => None
  end.

(** [match(s1, s2)]: whether [s1] and [s2] match ignoring case; they are
    assumed to have the same length. *)
Fixpoint match_ (s1 s2 : string) : bool :=
  match s1, s2 with
  | String c1 s1', String c2 s2' =>
      (if Ascii.eqb c1 c2 then true
       else
         (* Switch to lower-case; 'a'-'A' is known to be a single bit. *)
         let c1 := Z.lor (GoString.byteZ c1) 32 in
         let c2 := Z.lor (GoString.byteZ c2) 32 in
         negb (negb (c1 =? c2) || (c1 <? GoString.byteZ "a") || (c1 >? GoString.byteZ "z")))
      && match_ s1' s2'
  | _, _ => true
  end.

(** [lookup(tab, val)]: index of the first name of [tab] that [val] starts
    with, and the rest of [val]; [None] is [errBad]. *)
Fixpoint lookup_from (i : Z) (tab : list string) (val : string) : option (Z * string) :=
  match tab with
  | [] => None
  | v :: tab' =>
      if (String.length v <=? String.length val)%nat
         && match_ (GoString.take (String.length v) val) v
      then Some (i, GoString.drop (String.length v) val)
      else lookup_from (i + 1) tab' val
  end.

Definition lookup (tab : list string) (val : string) : option (Z * string) :=
  lookup_from 0 tab val.

Definition shortMonthNames : list string :=
  ["Jan"; "Feb"; "Mar"; "Apr"; "May"; "Jun"; "Jul"; "Aug"; "Sep"; "Oct"; "Nov"; "Dec"]%string.

Definition lowerhex (n : Z) : ascii :=
  match String.get (Z.to_nat n) "0123456789abcdef" with
  | Some c => c
  | None => "0"%char
  end.

Definition dquote : ascii := ascii_of_nat 34.
Definition backslash : ascii := ascii_of_nat 92.

(** [quote(s)].  Go walks [s] rune by rune and writes every byte of a
    rune that is not printable ASCII as a hexadecimal escape; such runes
    are made of the bytes from 0x80 on and of those below 0x20, so the
    walk is written byte by byte. *)
Fixpoint quote_body (s : string) : string :=
  match s with
  | EmptyString => String dquote EmptyString
  | String c s' =>
      let v := GoString.byteZ c in
      if (v >=? 128) || (v <? 32) then
        String backslash (String "x" (String (lowerhex (Z.shiftr v 4))
          (String (lowerhex (Z.land v 15)) (quote_body s'))))
      else if Ascii.eqb c dquote || Ascii.eqb c backslash then
        String backslash (String c (quote_body s'))
      else String c (quote_body s')
  end.

Definition quote (s : string) : string := String dquote (quote_body s).

(** The fields of the time being constructed that the modelled layout
    elements set; [sec] and [nsec] stay 0, no zone is parsed. *)
Record fields := mkFields {
  f_year : Z;
  f_month : Z;
  f_day : Z;
  f_hour : Z;
  f_min : Z
}.

Definition initFields : fields := mkFields 0 (-1) (-1) 0 0.

Definition newParseError (layout value layoutElem valueElem message : string)
  : option error :=
  Some (ErrTimeParse (mkParseError layout value layoutElem valueElem message)).

Section ParseInLocation.

Variable localOffset : Z.

(** What [parse] does once the layout is used up. *)
Definition parseFinish (alayout avalue : string) (f : fields) (value : string)
  (defaultLocation : Location) : Time * option error :=
  let month := if f_month f <? 0 then January else f_month f in
  let day := if f_day f <? 0 then 1 else f_day f in
  (* Validate the day of the month. *)
  if (day <? 1) || (day >? daysIn month (f_year f)) then
    (zeroTime, newParseError alayout avalue "" value ": day out of range")
  else
    (Date localOffset (f_year f) month day (f_hour f) (f_min f) 0 0 defaultLocation, None).

(** The loop of [parse]: each iteration processes one std value. *)
Fixpoint parseLoop (alayout avalue : string) (cs : list (string * std * string))
  (last : string) (f : fields) (value : string) (defaultLocation : Location)
  : Time * option error :=
  match cs with
  | [] =>
      let '(value, ok) := skip value last in
      if negb ok then (zeroTime, newParseError alayout avalue last value "")
      else if negb (String.length value =? 0)%nat then
        (zeroTime, newParseError alayout avalue "" value
                     (": extra text: " +:+ quote value))
      else parseFinish alayout avalue f value defaultLocation
  | (prefix, e, stdstr) :: cs' =>
      let '(value, ok) := skip value prefix in
      if negb ok then (zeroTime, newParseError alayout avalue prefix value "")
      else
        let hold := value in
        let bad := (zeroTime, newParseError alayout avalue stdstr hold "") in
        let rangeErr (value what : string) :=
          (zeroTime, newParseError alayout avalue stdstr value
                       (": " +:+ what +:+ " out of range")) in
        match e with
        | stdLongYear =>
            if (String.length value <? 4)%nat || negb (isDigit value 0) then bad
            else
              let p := GoString.take 4 value in
              let value := GoString.drop 4 value in
              match atoi p with
              | Some year =>
                  parseLoop alayout avalue cs' last
                    (mkFields year (f_month f) (f_day f) (f_hour f) (f_min f))
                    value defaultLocation
              | None => bad
              end
        | stdMonth =>
            match lookup shortMonthNames value with
            | Some (month, value) =>
                parseLoop alayout avalue cs' last
                  (mkFields (f_year f) (month + 1) (f_day f) (f_hour f) (f_min f))
                  value defaultLocation
            | None => bad
            end
        | stdDay =>
            let '(day, value, ok) := getnum value false in
            (* Note that we allow any one- or two-digit day here.  The
               month, day, year combination is validated after we've
               completed parsing. *)
            if negb ok then bad
            else parseLoop alayout avalue cs' last
                   (mkFields (f_year f) (f_month f) day (f_hour f) (f_min f))
                   value defaultLocation
        | stdHour =>
            let '(hour, value, ok) := getnum value false in
            if (hour <? 0) || (24 <=? hour) then rangeErr value "hour"
            else if negb ok then bad
            else parseLoop alayout avalue cs' last
                   (mkFields (f_year f) (f_month f) (f_day f) hour (f_min f))
                   value defaultLocation
        | stdZeroMinute =>
            let '(min, value, ok) := getnum value true in
            if (min <? 0) || (60 <=? min) then rangeErr value "minute"
            else if negb ok then bad
            else parseLoop alayout avalue cs' last
                   (mkFields (f_year f) (f_month f) (f_day f) (f_hour f) min)
                   value defaultLocation
        | _ =>
            (zeroTime, Some (ErrExternal "layout element outside the model"))
        end
  end.

(** [time.ParseInLocation(layout, value, loc)]. *)
Definition ParseInLocation (layout value : string) (l : Location)
  : Time * option error :=
  let '(cs, last) := layoutChunks (S (String.length layout)) layout in
  parseLoop layout value cs last initFields value l.

End ParseInLocation.

End GoTime.

(** ** Package regexp: leftmost-first matching with submatches

    Go's [regexp] returns the match that begins as early as possible in
    the input and, among those, the one a backtracking search finds first.
    [matches] lists, in the order of that search, every way a regular
    expression can match a prefix of the input, so its head is the match
    Go reports.

    The classes of [lineRegex] are ASCII, and its ['.'] is only ever
    extended to the end of the line, so matching byte by byte agrees with
    Go's matching rune by rune. *)

Module GoRegexp.

Inductive re :=
| Class (p : ascii -> bool)  (* one byte of a class *)
| Cat (r1 r2 : re)           (* r1 r2 *)
| Alt (r1 r2 : re)           (* r1|r2, r1 preferred *)
| Plus (r : re)              (* r+, greedy *)
| Cap (n : nat) (r : re).    (* (r), the n-th capturing group *)

(** The submatches found so far, by group number. *)
Definition caps := list string.

(** [\d], [\w], [\s] and [.] (any byte but a newline). *)
Definition perl_d (c : ascii) : bool :=
  (48 <=? GoString.byteZ c) && (GoString.byteZ c <=? 57).

Definition perl_w (c : ascii) : bool :=
  perl_d c
  || ((65 <=? GoString.byteZ c) && (GoString.byteZ c <=? 90))
  || ((97 <=? GoString.byteZ c) && (GoString.byteZ c <=? 122))
  || (GoString.byteZ c =? 95).

Definition perl_s (c : ascii) : bool :=
  existsb (Z.eqb (GoString.byteZ c)) [9; 10; 12; 13; 32].

Definition any_char (c : ascii) : bool := negb (GoString.byteZ c =? 10).

Definition lit (x : ascii) (c : ascii) : bool := Ascii.eqb c x.

(** The text of [s] consumed when [rest] is what remains of it. *)
Definition consumed (s rest : string) : string :=
  GoString.take (String.length s - String.length rest) s.

(** The matches of [r+], given those of [r] as [m]: after an iteration
    that consumed input one more iteration is tried before stopping
    (greedy); [n] bounds the input left. *)
Fixpoint plus_iter (m : string -> caps -> list (string * caps)) (n : nat)
  (s : string) (c : caps) {struct n} : list (string * caps) :=
  flat_map
    (fun '(s1, c1) =>
       match n with
       | S n' =>
           if (String.length s1 <? String.length s)%nat
           then plus_iter m n' s1 c1 ++ [(s1, c1)]
           else [(s1, c1)]
       | O => [(s1, c1)]
       end)
    (m s c).

(** Every match of [r] against a prefix of [s], most preferred first:
    what is left of [s], and the submatches. *)
Fixpoint matches (r : re) (s : string) (c : caps) {struct r} : list (string * caps) :=
  match r with
  | Class p =>
      match s with
      | String b s' => if p b then [(s', c)] else []
      | EmptyString => []
      end
  | Cat r1 r2 => flat_map (fun '(s1, c1) => matches r2 s1 c1) (matches r1 s c)
  | Alt r1 r2 => matches r1 s c ++ matches r2 s c
  | Plus r1 => plus_iter (matches r1) (String.length s) s c
  | Cap n r1 =>
      map (fun '(s1, c1) => (s1, <[n := consumed s s1]> c1)) (matches r1 s c)
  end.

(** Number of capturing groups of [r], group 0 apart. *)
Fixpoint numSubexp (r : re) : nat :=
  match r with
  | Class _ => 0
  | Cat r1 r2 | Alt r1 r2 => Nat.max (numSubexp r1) (numSubexp r2)
  | Plus r1 => numSubexp r1
  | Cap n r1 => Nat.max n (numSubexp r1)
  end.

(** The search for the leftmost match: the first start position, from
    the left, at which [r] matches. *)
Fixpoint search (r : re) (s : string) : option caps :=
  match matches (Cap 0 r) s (replicate (S (numSubexp r)) EmptyString) with
  | (_, c) :: _ => Some c
  | [] =>
      match s with
      | String _ s' => search r s'
      | EmptyString => None
      end
  end.

(** [re.FindStringSubmatch(s)]: the text of the leftmost match and of its
    subexpressions; [None] is the [nil] slice, no match. *)
Definition FindStringSubmatch (r : re) (s : string) : option (list string) :=
  search r s.

End GoRegexp.

(** ** main.go: parsePermsToDirectoryFlag *)

Definition parsePermsToDirectoryFlag (perms : string) : bool * option error :=
  if negb (GoString.len perms =? 10) then (false, Some ErrMalformedPerms)
  else
    let validPrefixes := ["d"; "-"]%string in
    match perms with
    | EmptyString =>
        (* perms[0] of an empty string: excluded by the length test *)
        (false, Some ErrMalformedPerms)
    | String c _ =>
        if negb (GoString.Contains validPrefixes (GoString.string_of_byte c))
        then (false, Some ErrMalformedPerms)
        else if GoString.HasPrefix perms "d" then (true, None)
        else (false, None)
    end.

(** ** main.go: package variables *)

Import GoRegexp.

(** A concatenation of regular expressions. *)
Fixpoint cats (r : re) (rs : list re) : re :=
  match rs with
  | [] => r
  | r' :: rs' => Cat r (cats r' rs')
  end.

(** [lineRegex]:
    [((?:\w|-)+)\s+(\d+)\s+(\d+)\s+(\d+)\s+(\d+)\s+(\w+\s+\d+\s+(?:(?:\d+:\d+)|\d+))\s+(.+)] *)
Definition lineRegex : re :=
  let w := Class perl_w in
  let d := Class perl_d in
  let s := Class perl_s in
  cats (Cap 1 (Plus (Alt w (Class (lit "-")))))
    [Plus s; Cap 2 (Plus d);
     Plus s; Cap 3 (Plus d);
     Plus s; Cap 4 (Plus d);
     Plus s; Cap 5 (Plus d);
     Plus s; Cap 6 (cats (Plus w)
                      [Plus s; Plus d; Plus s;
                       Alt (cats (Plus d) [Class (lit ":"); Plus d]) (Plus d)]);
     Plus s; Cap 7 (Plus (Class any_char))].

Definition dateWithTimeNoYearLayout : string := "Jan  2 15:04".
Definition dateWithYearLayout : string := "Jan 2 2006".
Definition recentDuration : Z := 30 * GoTime.Hour * 24.

(** FileEntry is a directory file listing. *)
Record FileEntry := mkFileEntry {
  filename : string;
  created : GoTime.Time;
  isDirectory : bool
}.

(** [FileEntry{}]. *)
Definition zeroFileEntry : FileEntry := mkFileEntry EmptyString GoTime.zeroTime false.

Section Main.

(** The local zone of the process, and the reading of the wall clock
    when the package is initialised. *)
Variable localOffset : Z.
Variables clockSec clockNsec : Z.

(** The package variable [now]. *)
Definition now : GoTime.Time := GoTime.Now clockSec clockNsec.

Definition parseDateStampToTime (dateString : string) : GoTime.Time * option error :=
  (* See if our dateString matches the "Jan  2 15:04 format" *)
  let '(rawDateStamp, err) :=
    GoTime.ParseInLocation localOffset dateWithTimeNoYearLayout dateString GoTime.Local in
  match err with
  | None =>
      (* We succeeded at parsing this time, so the year will be 0000.  Add
         the current year on. *)
      let yearDateStamp :=
        GoTime.AddDate localOffset rawDateStamp (GoTime.Year localOffset now) 0 0 in
      if GoTime.After yearDateStamp now then
        (* We're in the future, so subtract a year *)
        (GoTime.AddDate localOffset yearDateStamp (-1) 0 0, None)
      else (yearDateStamp, None)
  | Some _ =>
      (* The previous parsing attempt failed, so we must be in the
         "Jan 2 2006" format *)
      let '(rawDateStamp, err) :=
        GoTime.ParseInLocation localOffset dateWithYearLayout dateString GoTime.Local in
      match err with
      | Some e => (GoTime.zeroTime, Some e)
      | None => (rawDateStamp, None)
      end
  end.

Definition fileIsRecent (f : FileEntry) : bool :=
  GoTime.Sub now (created f) <? recentDuration.

Definition scanDropboxLineToFileEntry (line : string) : option FileEntry * option error :=
  match FindStringSubmatch lineRegex line with
  | None => (None, Some ErrParseLine)
  | Some lineParts =>
      let f := mkFileEntry (nth 7 lineParts EmptyString) GoTime.zeroTime false in
      let perms := nth 1 lineParts EmptyString in
      let dateString := nth 6 lineParts EmptyString in
      let '(isDir, err) := parsePermsToDirectoryFlag perms in
      match err with
      | Some _ => (None, Some ErrParseLine)
      | None =>
          let f := mkFileEntry (filename f) (created f) isDir in
          let '(t, err) := parseDateStampToTime dateString in
          match err with
          | Some _ => (None, Some ErrParseLine)
          | None => (Some (mkFileEntry (filename f) t (isDirectory f)), None)
          end
      end
  end.

End Main.

(** ** Package io: readers *)

(** An [io.Reader], by what reading it to the end delivers: its bytes, and
    then either end of file ([None]) or a read error. *)
Record Reader := mkReader {
  r_data : string;
  r_err : option error
}.

(** [bytes.NewReader(b)] and [strings.NewReader(s)]: in-memory readers,
    which never fail. *)
Definition NewReader (b : string) : Reader := mkReader b None.

(** [io.Copy(b, r)] into a fresh [strings.Builder]: the builder's content
    and the error.  (The byte count is not used by main.go.) *)
Definition Copy (r : Reader) : string * option error := (r_data r, r_err r).

(** ** main.go: the providers and the two collectors *)

Section Collectors.

(** The state of the world outside the process (storage, scheduler), on
    which a provider's methods act. *)
Variable World : Type.

Record FileAccessor := mkFileAccessor {
  getFilesList : string -> World -> (slice string * option error) * World;
  fileListingToFileEntry : Reader -> World -> (FileEntry * option error) * World
}.

(** The loop of [GetDropboxFiles] over the listings. *)
Fixpoint GetDropboxFiles_loop (f : FileAccessor) (fileListings : list string)
  (fileEntries : list FileEntry) (w : World) : list FileEntry * World :=
  match fileListings with
  | [] => (fileEntries, w)
  | listing :: rest =>
      let '((entry, err), w) := fileListingToFileEntry f (NewReader listing) w in
      match err with
      | Some _ => (* TODO log error *) GetDropboxFiles_loop f rest fileEntries w
      | None => GetDropboxFiles_loop f rest (fileEntries ++ [entry]) w
      end
  end.

(** GetDropboxFiles uses a FileAccessor to provide a slice of the files
    present at the path or URL given by the source string. *)
Definition GetDropboxFiles (f : FileAccessor) (source : string) (w : World)
  : (slice FileEntry * option error) * World :=
  let '((fileListings, err), w) := getFilesList f source w in
  match err with
  | Some e => ((None, Some e), w)
  | None =>
      let '(fileEntries, w) := GetDropboxFiles_loop f (elems fileListings) [] w in
      if negb (length (elems fileListings) =? 0)%nat && (length fileEntries =? 0)%nat
      then ((None, Some ErrNoFileEntries), w)
      else ((Some fileEntries, None), w)
  end.

Record JobLister := mkJobLister {
  queryJobsList :
    slice string -> slice string -> World ->
    (slice (gmap string string) * option error) * World;
  jl_getDropboxFilesFromJob :
    gmap string Reader -> World -> (slice string * option error) * World
}.

(** The loop of [GetActiveFiles] over the jobs. *)
Fixpoint GetActiveFiles_loop (j : JobLister) (jobs : list (gmap string string))
  (activeFiles : list string) (w : World) : list string * World :=
  match jobs with
  | [] => (activeFiles, w)
  | job :: rest =>
      let readerJob : gmap string Reader := NewReader <$> job in
      let '((files, err), w) := jl_getDropboxFilesFromJob j readerJob w in
      match err with
      | Some _ => (* log error *) GetActiveFiles_loop j rest activeFiles w
      | None => GetActiveFiles_loop j rest (activeFiles ++ elems files) w
      end
  end.

Definition GetActiveFiles (j : JobLister) (attributes constraints : slice string)
  (w : World) : (slice string * option error) * World :=
  let activeFiles : list string := [] in
  (* Run Query *)
  let '((jobs, err), w) := queryJobsList j attributes constraints w in
  match err with
  | Some e => ((Some activeFiles, Some e), w)
  | None =>
      let '(activeFiles, w) := GetActiveFiles_loop j (elems jobs) activeFiles w in
      ((Some activeFiles, None), w)
  end.

End Collectors.

(** ** main.go: CondorSchedd *)

Definition getDropboxFilesFromJob (j : gmap string Reader) : slice string * option error :=
  let attribute : string := "PNFS_INPUT_FILES" in
  match j !! attribute with
  | None => (None, Some ErrMissingJobDropboxFiles)
  | Some val =>
      let '(b, err) := Copy val in
      match err with
      | Some e => (None, Some e)
      | None =>
          let rawSlice := GoString.Split b "," in
          let finalSlice := fold_left (fun acc elt => acc ++ [GoString.TrimSpace elt]) rawSlice [] in
          (Some finalSlice, None)
      end
  end.

(** ** main_test.go: the providers of the tests *)

Record testFileAccessor := mkTestFileAccessor {
  tfa_fileEntries : list FileEntry;
  tfa_existsFileListingError : bool;
  tfa_errorsByFileEntry : list bool
}.

(** The loop of [testFileAccessor.fileListingToFileEntry] over the entries
    and their error flags. *)
Fixpoint tfa_find (filename_ : string) (entries : list FileEntry) (errs : list bool)
  : FileEntry * option error :=
  match entries, errs with
  | entry :: entries', e :: errs' =>
      if String.eqb (filename entry) filename_ then
        if e then (zeroFileEntry, Some (ErrExternal "Fake error that we staged"))
        else (entry, None)
      else tfa_find filename_ entries' errs'
  | _, _ => (zeroFileEntry, Some (ErrExternal "File not found in testFileAccessor"))
  end.

(** The test double is stateless: its world is [unit]. *)
Definition testFileAccessor_provider (t : testFileAccessor) : FileAccessor unit :=
  mkFileAccessor unit
    (fun source w =>
       if tfa_existsFileListingError t
       then ((None, Some (ErrExternal "some generic file listing error")), w)
       else ((Some (map filename (tfa_fileEntries t)), None), w))
    (fun r w =>
       (tfa_find (fst (Copy r)) (tfa_fileEntries t) (tfa_errorsByFileEntry t), w)).

(** [testJobLister]: one job per file string, under FILE_ATTRIBUTE, and
    the file strings whose extraction is made to fail. *)
Record testJobLister := mkTestJobLister {
  tjl_queryError : bool;
  tjl_jobs : list (gmap string string);
  tjl_fileErrors : gmap string bool
}.

Definition testJobLister_provider (jl : testJobLister) : JobLister unit :=
  mkJobLister unit
    (fun attributes constraints w =>
       if tjl_queryError jl then ((None, Some (ErrExternal "this is an error")), w)
       else ((Some (tjl_jobs jl), None), w))
    (fun j w =>
       match j !! "FILE_ATTRIBUTE"%string with
       | Some val =>
           let b := fst (Copy val) in
           match tjl_fileErrors jl !! b with
           | Some true => ((None, Some (ErrExternal "error!")), w)
           | _ => ((Some (GoString.Split b ","), None), w)
           end
       | None => ((None, Some (ErrExternal "key missing")), w)
       end).

(** [newTestJobLister(queryError, filestrings...)]. *)
Definition newTestJobLister (queryError : bool) (filestrings : list (string * bool))
  : testJobLister :=
  mkTestJobLister queryError
    (map (fun f => {[ "FILE_ATTRIBUTE"%string := fst f ]}) filestrings)
    (fold_left (fun m f => <[fst f := snd f]> m) filestrings ∅).

Definition test_foo : FileEntry :=
  mkFileEntry "/path/to/foo" (GoTime.Date (-18000) 2023 4 5 6 54 32 0 GoTime.Local) false.
Definition test_bardir : FileEntry :=
  mkFileEntry "/path/to/bardir" (GoTime.Date (-18000) 2023 1 2 3 45 6 0 GoTime.Local) true.
Definition test_baz : FileEntry :=
  mkFileEntry "/more/sub/dir/paths/to/baz" (GoTime.Date (-18000) 2023 5 6 7 12 34 0 GoTime.Local) false.

Definition test_accessor (errs : list bool) : FileAccessor unit :=
  testFileAccessor_provider (mkTestFileAccessor [test_foo; test_bardir; test_baz] false errs).

Definition test_lister : JobLister unit :=
  testJobLister_provider
    (newTestJobLister false [("/path/to/file2", true); ("/path/to/file1,blahblah", false)]%string).

(** ** main_test.go: adjustAnswerYearIfNeeded *)

(** The helper reads the clock itself, with [time.Now()], when it is
    called: [callSec] and [callNsec] are that reading. *)
Definition adjustAnswerYearIfNeeded (localOffset callSec callNsec : Z) (t : GoTime.Time)
  : GoTime.Time :=
  if GoTime.After t (GoTime.Now callSec callNsec)
  then GoTime.AddDate localOffset t (-1) 0 0
  else t.

(** ** Vocabulary of the statements *)

Section Outcomes.

Variable World : Type.

(** The outcome of converting each listing in turn, in order, each call
    acting on the world the previous one left. *)
Fixpoint convertAll (f : FileAccessor World) (fileListings : list string) (w : World)
  : list (FileEntry * option error) * World :=
  match fileListings with
  | [] => ([], w)
  | listing :: rest =>
      let '(r, w) := fileListingToFileEntry World f (NewReader listing) w in
      let '(rs, w) := convertAll f rest w in
      (r :: rs, w)
  end.

(** The outcome of extracting the files of each job in turn. *)
Fixpoint extractAll (j : JobLister World) (jobs : list (gmap string string)) (w : World)
  : list (slice string * option error) * World :=
  match jobs with
  | [] => ([], w)
  | job :: rest =>
      let '(r, w) := jl_getDropboxFilesFromJob World j (NewReader <$> job) w in
      let '(rs, w) := extractAll j rest w in
      (r :: rs, w)
  end.

End Outcomes.

Arguments convertAll {World}.
Arguments extractAll {World}.

(** An outcome [(x, err)] failed when its error is not [nil]. *)
Definition failed {A} (r : A * option error) : Prop := snd r <> None.

(** The values of the outcomes that did not fail, in order. *)
Definition succeeded {A} (rs : list (A * option error)) : list A :=
  omap (fun r => match snd r with None => Some (fst r) | Some _ => None end) rs.

(** ** Vocabulary of the statements: the calendar *)

(** Number of days of a year. *)
Definition yearLen (y : Z) : Z := if GoTime.isLeap y then 366 else 365.

(** Day of the year, from 0, of day [d] of month [m]; [leap] says whether
    the year is a leap year. *)
Definition ydayOf (leap : bool) (m d : Z) : Z :=
  GoTime.daysBefore (m - 1) + (if leap && (m >=? GoTime.March) then 1 else 0) + (d - 1).

(** [daysIn], from whether the year is a leap year. *)
Definition daysInL (leap : bool) (m : Z) : Z :=
  if (m =? GoTime.February) && leap then 29
  else GoTime.daysBefore m - GoTime.daysBefore (m - 1).

(** ** Vocabulary of the statements: instants and durations *)

(** A [Time] as Go represents it: seconds since year 1 in an [int64],
    nanoseconds within the second. *)
Definition wfTime (t : GoTime.Time) : Prop :=
  - 2 ^ 63 <= GoTime.sec t < 2 ^ 63 /\ 0 <= GoTime.nsec t < 1000000000.

(** The nanoseconds from [u] to [t], exactly. *)
Definition nanosBetween (u t : GoTime.Time) : Z :=
  (GoTime.unixSec t - GoTime.unixSec u) * 1000000000 + (GoTime.nsec t - GoTime.nsec u).

(** A number of nanoseconds, cut to the range of a [Duration]. *)
Definition saturate (d : Z) : Z :=
  if d <? GoTime.minDuration then GoTime.minDuration
  else if d >? GoTime.maxDuration then GoTime.maxDuration else d.

(** The layout elements whose parsing is modelled. *)
Definition modelled (e : GoTime.std) : bool :=
  match e with
  | GoTime.stdLongYear | GoTime.stdMonth | GoTime.stdDay
  | GoTime.stdHour | GoTime.stdZeroMinute => true
  | _ => false
  end.

(** ** Vocabulary of the statements: strings *)

(** [strings.Join(l, sep)] for a one-byte [sep]. *)
Fixpoint strings_Join (l : list string) (sep : ascii) : string :=
  match l with
  | [] => EmptyString
  | [x] => x
  | x :: l' => (x +:+ String sep (strings_Join l' sep))%string
  end.

(** Every byte of [s] is ASCII. *)
Definition isASCII (s : string) : Prop :=
  forall i c, String.get i s = Some c -> (GoString.byteZ c < 128)%Z.


(** Neither the first nor the last byte of [s] is ASCII white space. *)
Definition noSpaceAtEnds (s : string) : Prop :=
  forall c, String.get 0 s = Some c \/ String.get (String.length s - 1) s = Some c ->
            GoString.asciiSpace c = false.

(** ** Vocabulary of the statements: regular expressions and line shapes *)



(** One or more bytes, all of the class [p]. *)
Definition plusOf (p : ascii -> bool) (w : string) : Prop :=
  w <> EmptyString /\ forallb p (list_ascii_of_string w) = true.

Definition orClass (p q : ascii -> bool) (c : ascii) : bool := p c || q c.

(** [s] is the fields [ints], each an unsigned integer followed by white
    space, and then [rest]. *)
Inductive intFields : list string -> string -> string -> Prop :=
| intFields_nil rest : intFields [] rest rest
| intFields_cons i w ints rest s :
    plusOf perl_d i -> plusOf perl_s w -> intFields ints rest s ->
    intFields (i :: ints) rest (i +:+ w +:+ s).

(** A timestamp as [lineRegex] takes it: a word, an unsigned integer, and
    either two unsigned integers around a colon or one unsigned integer. *)
Definition tsShape (ts : string) : Prop :=
  exists mon w1 day w2 tail,
    ts = (mon +:+ w1 +:+ day +:+ w2 +:+ tail)%string /\
    plusOf perl_w mon /\ plusOf perl_s w1 /\ plusOf perl_d day /\ plusOf perl_s w2 /\
    ((exists h m, tail = (h +:+ ":" +:+ m)%string /\ plusOf perl_d h /\ plusOf perl_d m)
     \/ plusOf perl_d tail).

(** The shape of a listing line with [n] integer fields: permission
    string, [n] unsigned integers, timestamp, name, separated by white
    space. *)
Definition lineShape (n : nat) (whole perms : string) (ints : list string)
  (ts name : string) : Prop :=
  exists w0 fields w6,
    whole = (perms +:+ w0 +:+ fields)%string /\
    plusOf (orClass perl_w (lit "-")) perms /\ plusOf perl_s w0 /\
    intFields ints (ts +:+ w6 +:+ name) fields /\ length ints = n /\
    tsShape ts /\ plusOf perl_s w6 /\ plusOf any_char name.

(** ** Vocabulary of the statements: jobs *)

(** The files a job record names: the segments of its PNFS_INPUT_FILES
    value, trimmed; none when the attribute is absent. *)
Definition jobFiles (job : gmap string string) : list string :=
  match job !! "PNFS_INPUT_FILES"%string with
  | Some v => map GoString.TrimSpace (GoString.Split v ",")
  | None => []
  end.

(** ** Vocabulary of the statements: the search of the matcher *)

(** [s] starts with a byte of the class [p]. *)
Definition startsWith (p : ascii -> bool) (s : string) : bool :=
  match s with
  | String b _ => p b
  | EmptyString => false
  end.

(** No byte of [s] is of the class [p]. *)
Definition noneOf (p : ascii -> bool) (s : string) : Prop :=
  forallb (fun c => negb (p c)) (list_ascii_of_string s) = true.

(** [x] is the match of [r] on [s] that the backtracking search finds
    first. *)
Definition firstMatch (r : GoRegexp.re) (s : string) (c : GoRegexp.caps)
  (x : string * GoRegexp.caps) : Prop :=
  exists tl, GoRegexp.matches r s c = x :: tl.

(** [r] matches exactly one byte, of the class [P]. *)
Definition classLike (r : GoRegexp.re) (P : ascii -> bool) : Prop :=
  forall s c,
    GoRegexp.matches r s c =
    match s with
    | String b s' => if P b then [(s', c)] else []
    | EmptyString => []
    end.

(** What is left of [w +:+ rest] after each non-empty prefix of [w],
    longest prefix first. *)
Fixpoint tails_run (w rest : string) : list string :=
  match w with
  | EmptyString => []
  | String _ w' => tails_run w' rest ++ [(w' +:+ rest)%string]
  end.

(** ** Vocabulary of the statements: time stamps as they are printed *)

(** The decimal digit [n], for [0 <= n <= 9]. *)
Definition digitChar (n : Z) : ascii := GoString.byte_of_Z (48 + n).

(** [n] in two decimal digits, for [0 <= n <= 99]. *)
Definition dec2 (n : Z) : string :=
  String (digitChar (n / 10)) (String (digitChar (n mod 10)) EmptyString).

(** [n] in four decimal digits, for [0 <= n <= 9999]. *)
Definition dec4 (n : Z) : string := (dec2 (n / 100) +:+ dec2 (n mod 100))%string.

(** [n] in decimal, for [0 <= n <= 99]. *)
Definition dec (n : Z) : string :=
  if n <? 10 then String (digitChar n) EmptyString else dec2 n.

(** [s] is the number [n] in one or two decimal digits. *)
Definition numeral (n : Z) (s : string) : Prop := s = dec n \/ s = dec2 n.

(** [k + 1] spaces. *)
Fixpoint spaces (k : nat) : string :=
  match k with
  | O => " "
  | S k' => String " " (spaces k')
  end.

(** The three-letter name of month [m]. *)
Definition monthName (m : Z) : string :=
  nth (Z.to_nat (m - 1)) GoTime.shortMonthNames EmptyString.

(** * Properties *)

(** [string(b)] is a one-byte string exactly for the bytes below 0x80. *)
Lemma string_of_byte_eq_single (b c : ascii) :
  GoString.byteZ c < 128 ->
  GoString.string_of_byte b = String c EmptyString <-> b = c.
Proof.
  intros Hc. unfold GoString.string_of_byte.
  destruct (GoString.byteZ b <? 128) eqn:Hb.
  - split; [intros [= ->]; reflexivity | intros ->; reflexivity].
  - split; [discriminate | intros ->].
    apply Z.ltb_ge in Hb. lia.
Qed.

Lemma len_eqb_10 (s : string) :
  (GoString.len s =? 10) = true <-> String.length s = 10%nat.
Proof. unfold GoString.len. rewrite Z.eqb_eq. lia. Qed.

Lemma Contains_validPrefixes (c : ascii) :
  GoString.Contains ["d"; "-"]%string (GoString.string_of_byte c) = true
  <-> c = "d"%char \/ c = "-"%char.
Proof.
  unfold GoString.Contains. cbn [existsb].
  rewrite !orb_true_iff, !String.eqb_eq.
  rewrite (string_of_byte_eq_single c "d") by (vm_compute; reflexivity).
  rewrite (string_of_byte_eq_single c "-") by (vm_compute; reflexivity).
  intuition discriminate.
Qed.

(** C4. [parsePermsToDirectoryFlag] fails, with [ErrMalformedPerms], exactly
    when the string is not 10 bytes long or its first byte is neither 'd' nor
    '-'; otherwise it answers [true] (container) when the first byte is 'd'
    and [false] (plain file) when it is '-'. *)
Theorem parsePermsToDirectoryFlag_spec (perms : string) :
  (parsePermsToDirectoryFlag perms = (false, Some ErrMalformedPerms) <->
     String.length perms <> 10%nat \/
     (String.get 0 perms <> Some "d"%char /\ String.get 0 perms <> Some "-"%char)) /\
  (parsePermsToDirectoryFlag perms = (true, None) <->
     String.length perms = 10%nat /\ String.get 0 perms = Some "d"%char) /\
  (parsePermsToDirectoryFlag perms = (false, None) <->
     String.length perms = 10%nat /\ String.get 0 perms = Some "-"%char).
Proof.
  unfold parsePermsToDirectoryFlag.
  destruct (GoString.len perms =? 10) eqn:Hlen; cbn [negb].
  - apply len_eqb_10 in Hlen.
    destruct perms as [|c rest]; [discriminate Hlen|].
    cbn [String.get].
    destruct (GoString.Contains _ _) eqn:Hc; cbn [negb].
    + apply Contains_validPrefixes in Hc.
      destruct Hc as [-> | ->]; simpl;
        (split; [|split]); split; try discriminate; try tauto;
        try (intros [_ [=]]); try (intros [? | [? ?]]; congruence).

    + assert (Hn : ~ (c = "d"%char \/ c = "-"%char)).
      { rewrite <- Contains_validPrefixes, Hc. discriminate. }
      (split; [|split]); split; try discriminate; try (intros; reflexivity).
      * intros _. right. split; intros [= ->]; tauto.
      * intros [_ [= ->]]. tauto.
      * intros [_ [= ->]]. tauto.
  - assert (Hn : String.length perms <> 10%nat).
    { rewrite <- len_eqb_10, Hlen. discriminate. }
    (split; [|split]); split; try discriminate; try tauto.
Qed.

(** ** The two collectors *)

Lemma succeeded_nil_iff {A} (rs : list (A * option error)) :
  succeeded rs = [] <-> Forall failed rs.
Proof.
  induction rs as [|[x [e|]] rs IH]; cbn.
  - split; [constructor | reflexivity].
  - fold (succeeded rs). rewrite IH. split.
    + intros H. constructor; [discriminate | exact H].
    + intros H. inversion H; assumption.
  - split; [discriminate |].
    intros H. inversion H as [|? ? Hf]. exfalso. apply Hf. reflexivity.
Qed.

Lemma GetDropboxFiles_loop_convertAll {World} (f : FileAccessor World)
  (fileListings : list string) (acc : list FileEntry) (w : World) :
  GetDropboxFiles_loop World f fileListings acc w =
  (acc ++ succeeded (convertAll f fileListings w).1, (convertAll f fileListings w).2).
Proof.
  revert acc w. induction fileListings as [|l ls IH]; intros acc w; cbn.
  - rewrite app_nil_r. reflexivity.
  - destruct (fileListingToFileEntry World f (NewReader l) w) as [[entry err] w1].
    specialize (IH (acc ++ [entry]) w1) as IH1. specialize (IH acc w1) as IH2.
    destruct (convertAll f ls w1) as [rs w2]. cbn in *.
    destruct err as [e|]; cbn.
    + exact IH2.
    + rewrite IH1, <- app_assoc. reflexivity.
Qed.

Lemma GetActiveFiles_loop_extractAll {World} (j : JobLister World)
  (jobs : list (gmap string string)) (acc : list string) (w : World) :
  GetActiveFiles_loop World j jobs acc w =
  (acc ++ concat (map elems (succeeded (extractAll j jobs w).1)), (extractAll j jobs w).2).
Proof.
  revert acc w. induction jobs as [|job jobs IH]; intros acc w; cbn.
  - rewrite app_nil_r. reflexivity.
  - destruct (jl_getDropboxFilesFromJob World j (NewReader <$> job) w) as [[files err] w1].
    specialize (IH (acc ++ elems files) w1) as IH1. specialize (IH acc w1) as IH2.
    destruct (extractAll j jobs w1) as [rs w2]. cbn in *.
    destruct err as [e|]; cbn.
    + exact IH2.
    + rewrite IH1, <- app_assoc. reflexivity.
Qed.

(** C2. [GetDropboxFiles], for any listing provider and location: a failure
    of [getFilesList] is returned at once, with no entries and before any
    conversion is attempted; otherwise the entries that converted are
    returned, in order and with no error, those that failed being skipped;
    except that when the listing is not empty and every conversion failed
    there are no entries and the error is the aggregate one. *)
Theorem GetDropboxFiles_fail_soft {World} (f : FileAccessor World) (source : string)
  (w w1 w2 : World) (fileListings : slice string) (ferr : option error)
  (rs : list (FileEntry * option error)) :
  getFilesList World f source w = ((fileListings, ferr), w1) ->
  convertAll f (elems fileListings) w1 = (rs, w2) ->
  (forall e, ferr = Some e ->
     GetDropboxFiles World f source w = ((None, Some e), w1)) /\
  (ferr = None -> elems fileListings = [] \/ ~ Forall failed rs ->
     GetDropboxFiles World f source w = ((Some (succeeded rs), None), w2)) /\
  (ferr = None -> elems fileListings <> [] -> Forall failed rs ->
     GetDropboxFiles World f source w = ((None, Some ErrNoFileEntries), w2)).
Proof.
  intros Hget Hconv. unfold GetDropboxFiles. rewrite Hget.
  split; [intros e ->; reflexivity |].
  rewrite GetDropboxFiles_loop_convertAll, Hconv. cbn [fst snd app].
  split; intros ->.
  - intros [Hnil | Hsome].
    + rewrite Hnil in *. cbn in Hconv. injection Hconv as <- <-. reflexivity.
    + rewrite <- succeeded_nil_iff in Hsome.
      destruct (succeeded rs) as [|x xs]; [contradiction|].
      cbn. rewrite andb_false_r. reflexivity.
  - intros Hne Hall. apply succeeded_nil_iff in Hall. rewrite Hall.
    destruct (elems fileListings); [contradiction|]. reflexivity.
Qed.

(** C3. [GetActiveFiles], for any job provider: a failure of
    [queryJobsList] is returned at once; otherwise the files of the jobs
    whose extraction succeeded are returned, flattened in order and with no
    error, the jobs whose extraction failed being skipped; and when the
    extraction fails for every job the result is the empty collection, still
    with no error. *)
Theorem GetActiveFiles_fail_soft {World} (j : JobLister World)
  (attributes constraints : slice string) (w w1 w2 : World)
  (jobs : slice (gmap string string)) (qerr : option error)
  (rs : list (slice string * option error)) :
  queryJobsList World j attributes constraints w = ((jobs, qerr), w1) ->
  extractAll j (elems jobs) w1 = (rs, w2) ->
  (forall e, qerr = Some e ->
     GetActiveFiles World j attributes constraints w = ((Some [], Some e), w1)) /\
  (qerr = None ->
     GetActiveFiles World j attributes constraints w =
     ((Some (concat (map elems (succeeded rs))), None), w2)) /\
  (qerr = None -> Forall failed rs ->
     GetActiveFiles World j attributes constraints w = ((Some [], None), w2)).
Proof.
  intros Hq Hex. unfold GetActiveFiles. rewrite Hq.
  split; [intros e ->; reflexivity |].
  rewrite GetActiveFiles_loop_extractAll, Hex. cbn [fst snd app].
  split; intros ->; [reflexivity |].
  intros Hall. apply succeeded_nil_iff in Hall. rewrite Hall. reflexivity.
Qed.

(** ** The civil calendar of package time *)

Import GoTime.


Lemma isLeap_spec y :
  isLeap y = ((y mod 4 =? 0) && (negb (y mod 100 =? 0) || (y mod 400 =? 0))).
Proof.
  unfold isLeap.
  assert (H : forall n, 0 < n -> (Z.rem y n =? 0) = (y mod n =? 0)).
  { intros n Hn. destruct (Z.eqb_spec (Z.rem y n) 0) as [E|E], (Z.eqb_spec (y mod n) 0) as [F|F];
      try reflexivity; exfalso.
    - apply F. apply Z.rem_divide in E; [|lia]. apply Z.mod_divide; [lia|exact E].
    - apply E. apply Z.mod_divide in F; [|lia]. apply Z.rem_divide; [lia|exact F]. }
  rewrite !H by lia. reflexivity.
Qed.

Lemma daysSinceEpoch_closed y :
  daysSinceEpoch y =
  let Y := y - absoluteZeroYear in 365 * Y + Y / 4 - Y / 100 + Y / 400.
Proof.
  unfold daysSinceEpoch, daysPer400Years, daysPer100Years, daysPer4Years, absoluteZeroYear.
  cbv zeta. Z.div_mod_to_equations; lia.
Qed.

Lemma daysSinceEpoch_succ y :
  daysSinceEpoch (y + 1) = daysSinceEpoch y + yearLen y.
Proof.
  rewrite !daysSinceEpoch_closed. unfold yearLen. rewrite isLeap_spec.
  unfold absoluteZeroYear. cbv zeta.
  destruct (Z.eqb_spec (y mod 4) 0); destruct (Z.eqb_spec (y mod 100) 0); destruct (Z.eqb_spec (y mod 400) 0); cbn [andb orb negb];
  (Z.div_mod_to_equations; lia).
Qed.

Lemma absYearDay_spec a :
  let '(y, yd) := absYearDay a in
  a / secondsPerDay = daysSinceEpoch y + yd /\ 0 <= yd < yearLen y.
Proof.
  unfold absYearDay. set (D := a / secondsPerDay). clearbody D.
  rewrite daysSinceEpoch_closed. unfold yearLen. rewrite isLeap_spec.
  unfold daysPer400Years, daysPer100Years, daysPer4Years, absoluteZeroYear.
  rewrite !Z.shiftr_div_pow2 by lia. change (2 ^ 2) with 4. cbv zeta.
  match goal with |- context [Z.eqb ?a 0 && _] => destruct (Z.eqb_spec a 0) end;
  match goal with |- context [negb (Z.eqb ?a 0)] => destruct (Z.eqb_spec a 0) end;
  match goal with |- context [Z.eqb ?a 0] => destruct (Z.eqb_spec a 0) end; cbn [andb orb negb];
  (Z.div_mod_to_equations; lia).
Qed.

Lemma daysSinceEpoch_mono y1 y2 : y1 <= y2 -> daysSinceEpoch y1 <= daysSinceEpoch y2.
Proof.
  intros H. rewrite !daysSinceEpoch_closed. unfold absoluteZeroYear. cbv zeta.
  (Z.div_mod_to_equations; lia).
Qed.

Lemma yearLen_pos y : 365 <= yearLen y <= 366.
Proof. unfold yearLen. destruct (isLeap y); lia. Qed.

Lemma absYearDay_unique a y yd :
  a / secondsPerDay = daysSinceEpoch y + yd -> 0 <= yd < yearLen y ->
  absYearDay a = (y, yd).
Proof.
  intros Ha Hyd. pose proof (absYearDay_spec a) as H.
  destruct (absYearDay a) as [y' yd']. destruct H as [H1 H2].
  assert (y' = y).
  { destruct (Z.lt_trichotomy y' y) as [Hlt | [Heq | Hgt]]; [exfalso | exact Heq | exfalso].
    - pose proof (daysSinceEpoch_mono (y' + 1) y ltac:(lia)) as Hm.
      rewrite daysSinceEpoch_succ in Hm. lia.
    - pose proof (daysSinceEpoch_mono (y + 1) y' ltac:(lia)) as Hm.
      rewrite daysSinceEpoch_succ in Hm. lia. }
  subst y'. f_equal. lia.
Qed.

Lemma forallb_range (P : Z -> bool) (n : nat) :
  forallb P (map Z.of_nat (seq 0 n)) = true ->
  forall z, 0 <= z < Z.of_nat n -> P z = true.
Proof.
  intros H z Hz. rewrite forallb_forall in H. apply H.
  apply in_map_iff. exists (Z.to_nat z). split; [lia | apply in_seq; lia].
Qed.




Lemma monthDay_valid (leap : bool) (yd : Z) :
  0 <= yd < (if leap then 366 else 365) ->
  let '(m, d) := monthDay leap yd in
  1 <= m <= 12 /\ 1 <= d <= daysInL leap m /\ yd = ydayOf leap m d.
Proof.
  intros Hyd.
  set (chk := fun (leap : bool) (yd : Z) =>
    let '(m, d) := monthDay leap yd in
    (1 <=? m) && (m <=? 12) && (1 <=? d) && (d <=? daysInL leap m) && (yd =? ydayOf leap m d)).
  assert (H : chk leap yd = true).
  { destruct leap.
    - apply (forallb_range (chk true) 366); [vm_compute; reflexivity | lia].
    - apply (forallb_range (chk false) 365); [vm_compute; reflexivity | lia]. }
  unfold chk in H. destruct (monthDay leap yd) as [m d].
  rewrite !andb_true_iff, !Z.leb_le, Z.eqb_eq in H. lia.
Qed.

Lemma daysInL_bound leap m : 1 <= m <= 12 -> 28 <= daysInL leap m <= 31.
Proof.
  intros Hm.
  set (chk := fun (leap : bool) (m : Z) =>
    negb (1 <=? m) || ((28 <=? daysInL leap m) && (daysInL leap m <=? 31))).
  assert (H : chk leap m = true).
  { destruct leap; apply (forallb_range (chk _) 13); solve [vm_compute; reflexivity | lia]. }
  unfold chk in H. rewrite orb_true_iff, negb_true_iff, andb_true_iff, Z.leb_gt, !Z.leb_le in H.
  lia.
Qed.

Lemma monthDay_ydayOf leap m d :
  1 <= m <= 12 -> 1 <= d <= daysInL leap m ->
  monthDay leap (ydayOf leap m d) = (m, d).
Proof.
  intros Hm Hd. pose proof (daysInL_bound leap m Hm) as Hb.
  set (chk := fun (leap : bool) (m d : Z) =>
    negb ((1 <=? m) && (1 <=? d) && (d <=? daysInL leap m)) ||
    (let '(m', d') := monthDay leap (ydayOf leap m d) in (m' =? m) && (d' =? d))).
  assert (H : forallb (fun m => forallb (chk leap m) (map Z.of_nat (seq 0 32)))
                (map Z.of_nat (seq 0 13)) = true).
  { destruct leap; vm_compute; reflexivity. }
  pose proof (forallb_range _ 13 H m ltac:(lia)) as H1. cbv beta in H1.
  pose proof (forallb_range _ 32 H1 d ltac:(lia)) as H2.
  unfold chk in H2. destruct (monthDay leap (ydayOf leap m d)) as [m' d'].
  rewrite orb_true_iff, negb_true_iff, !andb_true_iff, !Z.eqb_eq in H2.
  destruct H2 as [H2 | [-> ->]]; [|reflexivity].
  exfalso. rewrite !andb_false_iff, !Z.leb_gt in H2. lia.
Qed.

Lemma ydayOf_bound (leap leap0 : bool) (m d : Z) :
  1 <= m <= 12 -> 1 <= d <= daysInL leap0 m ->
  0 <= ydayOf leap m d < (if leap then 366 else 365).
Proof.
  intros Hm Hd.
  set (chk := fun (leap leap0 : bool) (m : Z) =>
    negb (1 <=? m) ||
    ((0 <=? ydayOf leap m 1) && (ydayOf leap m (daysInL leap0 m) <? (if leap then 366 else 365)))).
  assert (H : chk leap leap0 m = true).
  { destruct leap, leap0; apply (forallb_range (chk _ _) 13); solve [vm_compute; reflexivity | lia]. }
  unfold chk in H. rewrite orb_true_iff, negb_true_iff, andb_true_iff, Z.leb_gt, Z.leb_le, Z.ltb_lt in H.
  unfold ydayOf in *. lia.
Qed.

Lemma norm_id hi lo base : 0 <= lo < base -> norm hi lo base = (hi, lo).
Proof.
  intros H. unfold norm.
  destruct (Z.ltb_spec lo 0); [lia|].
  destruct (Z.geb_spec lo base); [lia|]. reflexivity.
Qed.

Section CalendarFacts.
Variable off : Z.

Lemma abs_Date y m d h mi s ns l :
  1 <= m <= 12 -> 0 <= h < 24 -> 0 <= mi < 60 -> 0 <= s < 60 -> 0 <= ns < 1000000000 ->
  abs off (Date off y m d h mi s ns l) =
  (daysSinceEpoch y + ydayOf (isLeap y) m d) * secondsPerDay
  + (h * secondsPerHour + mi * secondsPerMinute + s).
Proof.
  intros Hm Hh Hmi Hs Hns. unfold Date.
  rewrite (norm_id y (m - 1) 12) by lia.
  rewrite (norm_id s ns 1000000000) by lia.
  rewrite (norm_id mi s 60) by lia.
  rewrite (norm_id h mi 60) by lia.
  rewrite (norm_id d h 24) by lia.
  unfold abs, ydayOf. cbn [unixSec loc].
  replace (m - 1 + 1) with m by lia.
  change (absoluteToInternal + internalToUnix) with (-9223372028715321600).
  change (unixToInternal + internalToAbsolute) with 9223372028715321600.
  change secondsPerDay with 86400. change secondsPerHour with 3600.
  change secondsPerMinute with 60.
  destruct (isLeap y && (m >=? March)); destruct (zoneOffset off l =? 0) eqn:E; cbn [negb];
    try apply Z.eqb_eq in E; lia.
Qed.

Lemma day_time_div D tod :
  0 <= tod < secondsPerDay ->
  (D * secondsPerDay + tod) / secondsPerDay = D /\
  (D * secondsPerDay + tod) mod secondsPerDay = tod.
Proof.
  change secondsPerDay with 86400. intros H. Z.div_mod_to_equations. lia.
Qed.

Lemma tod_bound h mi s :
  0 <= h < 24 -> 0 <= mi < 60 -> 0 <= s < 60 ->
  0 <= h * secondsPerHour + mi * secondsPerMinute + s < secondsPerDay.
Proof.
  change secondsPerDay with 86400. change secondsPerHour with 3600.
  change secondsPerMinute with 60. lia.
Qed.

Lemma absYearDay_Date y m d h mi s ns l :
  1 <= m <= 12 -> 0 <= h < 24 -> 0 <= mi < 60 -> 0 <= s < 60 -> 0 <= ns < 1000000000 ->
  0 <= ydayOf (isLeap y) m d < yearLen y ->
  absYearDay (abs off (Date off y m d h mi s ns l)) = (y, ydayOf (isLeap y) m d).
Proof.
  intros Hm Hh Hmi Hs Hns Hyd. rewrite abs_Date by assumption.
  apply absYearDay_unique; [|exact Hyd].
  apply day_time_div, tod_bound; assumption.
Qed.

Lemma Date_of_Date y m d h mi s ns l :
  1 <= m <= 12 -> 1 <= d <= daysIn m y ->
  0 <= h < 24 -> 0 <= mi < 60 -> 0 <= s < 60 -> 0 <= ns < 1000000000 ->
  Date_of off (Date off y m d h mi s ns l) = (y, m, d).
Proof.
  intros Hm Hd Hh Hmi Hs Hns. unfold Date_of, absDate.
  rewrite absYearDay_Date; try assumption.
  - rewrite monthDay_ydayOf; [reflexivity | assumption | exact Hd].
  - unfold yearLen. apply (ydayOf_bound _ (isLeap y)); assumption.
Qed.

Lemma Clock_Date y m d h mi s ns l :
  1 <= m <= 12 -> 0 <= h < 24 -> 0 <= mi < 60 -> 0 <= s < 60 -> 0 <= ns < 1000000000 ->
  Clock off (Date off y m d h mi s ns l) = (h, mi, s).
Proof.
  intros Hm Hh Hmi Hs Hns. unfold Clock. rewrite abs_Date by assumption.
  rewrite (proj2 (day_time_div _ _ (tod_bound h mi s Hh Hmi Hs))).
  change secondsPerHour with 3600. change secondsPerMinute with 60.
  assert (E1 : (h * 3600 + mi * 60 + s) / 3600 = h) by (Z.div_mod_to_equations; lia).
  rewrite E1.
  assert (E2 : (h * 3600 + mi * 60 + s - h * 3600) / 60 = mi) by (Z.div_mod_to_equations; lia).
  rewrite E2. f_equal. lia.
Qed.

End CalendarFacts.

(** ** Parsing the two layouts *)

Lemma layoutChunks_noYear :
  layoutChunks (S (String.length dateWithTimeNoYearLayout)) dateWithTimeNoYearLayout =
  ([(""%string, stdMonth, "Jan"%string); ("  "%string, stdDay, "2"%string);
    (" "%string, stdHour, "15"%string); (":"%string, stdZeroMinute, "04"%string)], ""%string).
Proof. vm_compute. reflexivity. Qed.

Lemma layoutChunks_withYear :
  layoutChunks (S (String.length dateWithYearLayout)) dateWithYearLayout =
  ([(""%string, stdMonth, "Jan"%string); (" "%string, stdDay, "2"%string);
    (" "%string, stdLongYear, "2006"%string)], ""%string).
Proof. vm_compute. reflexivity. Qed.

Lemma digitVal_range c : byteIn "0" "9" c = true -> 0 <= digitVal c <= 9.
Proof.
  unfold byteIn, digitVal. rewrite andb_true_iff, !Z.leb_le.
  change (GoString.byteZ "0") with 48. change (GoString.byteZ "9") with 57. lia.
Qed.

Lemma getnum_ok s fixed n s' :
  getnum s fixed = (n, s', true) -> 0 <= n <= 99.
Proof.
  unfold getnum, isDigit.
  destruct s as [|c0 s0]; cbn; [discriminate|].
  destruct (byteIn "0" "9" c0) eqn:H0; cbn; [|discriminate].
  apply digitVal_range in H0.
  destruct s0 as [|c1 s1]; cbn.
  - destruct fixed; [discriminate|]. intros [= <- <-]. lia.
  - destruct (byteIn "0" "9" c1) eqn:H1; cbn.
    + apply digitVal_range in H1. intros [= <- <-]. lia.
    + destruct fixed; [discriminate|]. intros [= <- <-]. lia.
Qed.

Lemma lookup_from_bound tab i v k v' :
  lookup_from i tab v = Some (k, v') -> i <= k < i + Z.of_nat (length tab).
Proof.
  revert i. induction tab as [|t tab IH]; intros i; cbn [lookup_from length]; [discriminate|].
  destruct (_ && _).
  - intros [= <- <-]. lia.
  - intros H. apply IH in H. lia.
Qed.

Section ParseFacts.
Variable off : Z.

Lemma ParseInLocation_noYear_inv s l raw :
  ParseInLocation off dateWithTimeNoYearLayout s l = (raw, None) ->
  exists m d hh mi,
    1 <= m <= 12 /\ 1 <= d <= daysIn m 0 /\ 0 <= hh < 24 /\ 0 <= mi < 60 /\
    raw = Date off 0 m d hh mi 0 0 l.
Proof.
  unfold ParseInLocation. rewrite layoutChunks_noYear.
  cbn [parseLoop]. cbv zeta. unfold newParseError.
  cbn [f_year f_month f_day f_hour f_min initFields].
  destruct (skip s "") as [v0 ok0]. destruct ok0; cbn [negb]; [|discriminate].
  destruct (lookup shortMonthNames v0) as [[mo v1]|] eqn:Hmo; [|discriminate].
  destruct (skip v1 "  ") as [v2 ok2]. destruct ok2; cbn [negb]; [|discriminate].
  destruct (getnum v2 false) as [[d v3] okd] eqn:Hd. destruct okd; cbn [negb]; [|discriminate].
  destruct (skip v3 " ") as [v4 ok4]. destruct ok4; cbn [negb]; [|discriminate].
  destruct (getnum v4 false) as [[hh v5] okh] eqn:Hh.
  destruct ((hh <? 0) || (24 <=? hh)) eqn:Hhr; [discriminate|].
  destruct okh; cbn [negb]; [|discriminate].
  destruct (skip v5 ":") as [v6 ok6]. destruct ok6; cbn [negb]; [|discriminate].
  destruct (getnum v6 true) as [[mi v7] okm] eqn:Hmi.
  destruct ((mi <? 0) || (60 <=? mi)) eqn:Hmr; [discriminate|].
  destruct okm; cbn [negb]; [|discriminate].
  destruct (skip v7 "") as [v8 ok8]. destruct ok8; cbn [negb]; [|discriminate].
  destruct (negb _); [discriminate|].
  unfold parseFinish. cbn [f_year f_month f_day f_hour f_min].
  apply lookup_from_bound in Hmo. cbn [length shortMonthNames] in Hmo.
  apply getnum_ok in Hd.
  destruct (Z.ltb_spec (mo + 1) 0); [lia|].
  destruct (Z.ltb_spec d 0); [lia|].
  destruct ((d <? 1) || (d >? daysIn (mo + 1) 0)) eqn:Hdv; [discriminate|].
  intros [= <-].
  apply orb_false_iff in Hhr, Hmr, Hdv.
  exists (mo + 1), d, hh, mi. repeat split; try lia.
Qed.
End ParseFacts.

Lemma parseLoop_error off alayout avalue cs last f value l t e :
  forallb (fun c => modelled (snd (fst c))) cs = true ->
  parseLoop off alayout avalue cs last f value l = (t, Some e) ->
  t = zeroTime /\
  exists layoutElem valueElem message,
    e = ErrTimeParse (mkParseError alayout avalue layoutElem valueElem message).
Proof.
  revert f value. induction cs as [|[[prefix el] stdstr] cs IH]; intros f value Hm;
    cbn [parseLoop]; cbv zeta; unfold newParseError.
  - destruct (skip value last) as [v ok]. destruct ok; cbn [negb].
    + destruct (negb _).
      * intros [= <- <-]. eauto.
      * unfold parseFinish, newParseError. destruct (_ || _); [|discriminate].
        intros [= <- <-]. eauto.
    + intros [= <- <-]. eauto.
  - cbn [forallb fst snd] in Hm. apply andb_true_iff in Hm. destruct Hm as [Hel Hm].
    destruct (skip value prefix) as [v ok]. destruct ok; cbn [negb];
      [|intros [= <- <-]; eauto].
    destruct el; try discriminate Hel.
    + (* stdMonth *)
      destruct (lookup shortMonthNames v) as [[mo v1]|]; [apply IH; exact Hm|].
      intros [= <- <-]. eauto.
    + (* stdDay *)
      destruct (getnum v false) as [[d v1] okd]. destruct okd; cbn [negb];
        [apply IH; exact Hm|]. intros [= <- <-]. eauto.
    + (* stdHour *)
      destruct (getnum v false) as [[h v1] okh].
      destruct (_ || _); [intros [= <- <-]; eauto|].
      destruct okh; cbn [negb]; [apply IH; exact Hm|]. intros [= <- <-]. eauto.
    + (* stdZeroMinute *)
      destruct (getnum v true) as [[h v1] okh].
      destruct (_ || _); [intros [= <- <-]; eauto|].
      destruct okh; cbn [negb]; [apply IH; exact Hm|]. intros [= <- <-]. eauto.
    + (* stdLongYear *)
      destruct (_ || _); [intros [= <- <-]; eauto|].
      destruct (atoi _); [apply IH; exact Hm|]. intros [= <- <-]. eauto.
Qed.

(** ** The Date Resolver *)

Section DateFacts.
Variable off : Z.
Variables cs cn : Z.

Lemma fields_Date y m d h mi s ns l :
  1 <= m <= 12 -> 0 <= h < 24 -> 0 <= mi < 60 -> 0 <= s < 60 -> 0 <= ns < 1000000000 ->
  nsec (Date off y m d h mi s ns l) = ns /\ loc (Date off y m d h mi s ns l) = l.
Proof.
  intros Hm Hh Hmi Hs Hns. unfold Date.
  rewrite (norm_id y (m - 1) 12) by lia.
  rewrite (norm_id s ns 1000000000) by lia.
  rewrite (norm_id mi s 60) by lia.
  rewrite (norm_id h mi 60) by lia.
  rewrite (norm_id d h 24) by lia.
  split; reflexivity.
Qed.

Lemma AddDate_years y m d h mi l years :
  1 <= m <= 12 -> 1 <= d <= daysIn m y -> 0 <= h < 24 -> 0 <= mi < 60 ->
  AddDate off (Date off y m d h mi 0 0 l) years 0 0 =
  Date off (y + years) m d h mi 0 0 l.
Proof.
  intros Hm Hd Hh Hmi. unfold AddDate.
  rewrite Date_of_Date, Clock_Date by lia.
  destruct (fields_Date y m d h mi 0 0 l) as [-> ->]; try lia.
  rewrite !Z.add_0_r. reflexivity.
Qed.

(** A timestamp parsed without a year, moved to the year [Y]. *)
Lemma noYear_AddDate s raw Y :
  ParseInLocation off dateWithTimeNoYearLayout s Local = (raw, None) ->
  exists m d hh mi,
    1 <= m <= 12 /\ 1 <= d <= daysIn m 0 /\ 0 <= hh < 24 /\ 0 <= mi < 60 /\
    raw = Date off 0 m d hh mi 0 0 Local /\
    AddDate off raw Y 0 0 = Date off Y m d hh mi 0 0 Local.
Proof.
  intros Hp. destruct (ParseInLocation_noYear_inv off s Local raw Hp)
    as (m & d & hh & mi & Hm & Hd & Hh & Hmi & ->).
  exists m, d, hh, mi. repeat (split; [assumption || reflexivity|]).
  rewrite AddDate_years by assumption. rewrite Z.add_0_l. reflexivity.
Qed.

Lemma Year_lower t : daysSinceEpoch (Year off t) * secondsPerDay <= abs off t.
Proof.
  unfold Year. pose proof (absYearDay_spec (abs off t)) as H.
  destruct (absYearDay (abs off t)) as [y yd]. cbn [fst]. destruct H as [H1 H2].
  revert H1. change secondsPerDay with 86400. intros H1. Z.div_mod_to_equations. lia.
Qed.

End DateFacts.

Lemma ParseInLocation_withYear_error (off : Z) (s : string) (t : Time) (e : error) :
  ParseInLocation off dateWithYearLayout s Local = (t, Some e) ->
  t = zeroTime /\
  exists layoutElem valueElem message,
    e = ErrTimeParse (mkParseError dateWithYearLayout s layoutElem valueElem message).
Proof.
  unfold ParseInLocation. rewrite layoutChunks_withYear.
  apply parseLoop_error. reflexivity.
Qed.


(** C10. When the timestamp parses in the form without a year, the instant
    the Date Resolver returns is never strictly after [now]. *)
Theorem parseDateStampToTime_noYear_not_after (localOffset clockSec clockNsec : Z)
  (dateString : string) (rawDateStamp : Time) :
  ParseInLocation localOffset dateWithTimeNoYearLayout dateString Local
    = (rawDateStamp, None) ->
  snd (parseDateStampToTime localOffset clockSec clockNsec dateString) = None /\
  After (fst (parseDateStampToTime localOffset clockSec clockNsec dateString))
    (now clockSec clockNsec) = false.
Proof.
  intros Hp.
  destruct (noYear_AddDate localOffset _ _ (Year localOffset (now clockSec clockNsec)) Hp)
    as (m & d & hh & mi & Hm & Hd & Hh & Hmi & _ & Heq).
  unfold parseDateStampToTime. rewrite Hp, Heq. clear Heq.
  set (Y := Year localOffset (now clockSec clockNsec)).
  set (y := Date localOffset Y m d hh mi 0 0 Local).
  destruct (After y (now clockSec clockNsec)) eqn:Haft; cbn [fst snd];
    [|split; [reflexivity | exact Haft]].
  split; [reflexivity|].
  (* the year is rolled back *)
  assert (Hyd : 0 <= ydayOf (isLeap Y) m d < yearLen Y).
  { apply (ydayOf_bound _ (isLeap 0)); assumption. }
  unfold AddDate, Date_of, absDate.
  unfold y at 1. rewrite absYearDay_Date by (assumption || lia).
  pose proof (monthDay_valid (isLeap Y) _ Hyd) as Hmd.
  destruct (monthDay (isLeap Y) (ydayOf (isLeap Y) m d)) as [m' d'].
  destruct Hmd as (Hm' & Hd' & _).
  unfold y at 1. rewrite Clock_Date by lia.
  destruct (fields_Date localOffset Y m d hh mi 0 0 Local) as [En El]; try lia.
  fold y in En, El. rewrite En, El. rewrite !Z.add_0_r.
  set (r := Date localOffset (Y + -1) m' d' hh mi 0 0 Local).
  assert (Habs : abs localOffset r < abs localOffset (now clockSec clockNsec)).
  { unfold r. rewrite abs_Date by lia.
    pose proof (ydayOf_bound (isLeap (Y + -1)) (isLeap Y) m' d' Hm' Hd') as Hb.
    pose proof (daysSinceEpoch_succ (Y + -1)) as Hs.
    replace (Y + -1 + 1) with Y in Hs by lia. unfold yearLen in Hs.
    pose proof (Year_lower localOffset (now clockSec clockNsec)) as Hl. fold Y in Hl.
    pose proof (tod_bound hh mi 0 Hh Hmi ltac:(lia)) as Ht.
    revert Hl Ht. change secondsPerDay with 86400.
    intros Hl Ht. nia. }
  assert (Hl : loc r = Local).
  { unfold r. apply fields_Date; lia. }
  unfold abs in Habs. rewrite Hl in Habs. cbn [now Now loc] in Habs.
  unfold After. cbn [now Now unixSec nsec] in *.
  destruct (Z.gtb_spec (unixSec r) clockSec); [lia|].
  destruct (Z.eqb_spec (unixSec r) clockSec); [lia|]. reflexivity.
Qed.

(** C6. When the timestamp does not parse in the form without a year but
    parses in the form with a year, the Date Resolver returns the parsed
    instant as it is, whatever [now] is; and "Apr 6 2022" resolves to the
    instant that reads 2022-04-06 00:00:00 in the local zone, whatever
    [now] and the zone are. *)
Theorem parseDateStampToTime_withYear (localOffset : Z) (dateString : string)
  (t0 rawDateStamp : Time) (e : error) :
  ParseInLocation localOffset dateWithTimeNoYearLayout dateString Local = (t0, Some e) ->
  ParseInLocation localOffset dateWithYearLayout dateString Local = (rawDateStamp, None) ->
  (forall clockSec clockNsec,
     parseDateStampToTime localOffset clockSec clockNsec dateString = (rawDateStamp, None)) /\
  (forall clockSec clockNsec,
     parseDateStampToTime localOffset clockSec clockNsec "Apr 6 2022" =
     (Date localOffset 2022 4 6 0 0 0 0 Local, None)) /\
  Date_of localOffset (Date localOffset 2022 4 6 0 0 0 0 Local) = (2022, 4, 6) /\
  Clock localOffset (Date localOffset 2022 4 6 0 0 0 0 Local) = (0, 0, 0) /\
  loc (Date localOffset 2022 4 6 0 0 0 0 Local) = Local.
Proof.
  intros H1 H2. split; [|split; [|split; [|split]]].
  - intros cs cn. unfold parseDateStampToTime. rewrite H1, H2. reflexivity.
  - intros cs cn. unfold parseDateStampToTime.
    assert (E1 : exists pe, ParseInLocation localOffset dateWithTimeNoYearLayout
                   "Apr 6 2022" Local = (zeroTime, Some pe)).
    { eexists. lazy -[Date zeroTime]. reflexivity. }
    destruct E1 as [pe ->].
    assert (E2 : ParseInLocation localOffset dateWithYearLayout "Apr 6 2022" Local =
                 (Date localOffset 2022 4 6 0 0 0 0 Local, None)).
    { lazy -[Date]. reflexivity. }
    rewrite E2. reflexivity.
  - apply Date_of_Date; vm_compute; split; congruence.
  - apply Clock_Date; lia.
  - apply fields_Date; lia.
Qed.

(** C9. When the timestamp parses in neither form, the Date Resolver fails
    with the very error of the second attempt, a [*time.ParseError] that
    still carries the layout and the value it was given, and returns the
    zero [Time]. *)
Theorem parseDateStampToTime_both_fail (localOffset clockSec clockNsec : Z)
  (dateString : string) (t1 t2 : Time) (e1 e2 : error) :
  ParseInLocation localOffset dateWithTimeNoYearLayout dateString Local = (t1, Some e1) ->
  ParseInLocation localOffset dateWithYearLayout dateString Local = (t2, Some e2) ->
  parseDateStampToTime localOffset clockSec clockNsec dateString = (zeroTime, Some e2) /\
  exists layoutElem valueElem message,
    e2 = ErrTimeParse
           (mkParseError dateWithYearLayout dateString layoutElem valueElem message).
Proof.
  intros H1 H2. split.
  - unfold parseDateStampToTime. rewrite H1, H2. reflexivity.
  - apply (ParseInLocation_withYear_error localOffset dateString t2 e2 H2).
Qed.


(** ** Durations: [Sub] saturates *)

Lemma wrap64_range z : - 2 ^ 63 <= wrap64 z < 2 ^ 63.
Proof.
  unfold wrap64. pose proof (Z.mod_pos_bound (z + 2 ^ 63) (2 ^ 64) ltac:(lia)). lia.
Qed.

Lemma wrap64_shift z k : wrap64 (z + k * 2 ^ 64) = wrap64 z.
Proof.
  unfold wrap64. replace (z + k * 2 ^ 64 + 2 ^ 63) with (z + 2 ^ 63 + k * 2 ^ 64) by lia.
  rewrite Z_mod_plus_full. reflexivity.
Qed.

Lemma wrap64_id z : - 2 ^ 63 <= z < 2 ^ 63 -> wrap64 z = z.
Proof.
  intros H. unfold wrap64. rewrite Z.mod_small; lia.
Qed.

Lemma wrap64_eq z : exists k, wrap64 z = z + k * 2 ^ 64.
Proof.
  unfold wrap64. exists (- ((z + 2 ^ 63) / 2 ^ 64)).
  rewrite Z.mod_eq by lia. lia.
Qed.

Lemma wrap64_mul a b : wrap64 (wrap64 a * b) = wrap64 (a * b).
Proof.
  destruct (wrap64_eq a) as [k ->].
  replace ((a + k * 2 ^ 64) * b) with (a * b + (k * b) * 2 ^ 64) by lia.
  apply wrap64_shift.
Qed.

Lemma wrap64_add a b : wrap64 (wrap64 a + b) = wrap64 (a + b).
Proof.
  destruct (wrap64_eq a) as [k ->].
  replace (a + k * 2 ^ 64 + b) with (a + b + k * 2 ^ 64) by lia.
  apply wrap64_shift.
Qed.

Lemma wrap64_over z : 2 ^ 63 <= z < 2 ^ 64 + 2 ^ 63 -> wrap64 z = z - 2 ^ 64.
Proof.
  intros H. replace z with (z - 2 ^ 64 + 1 * 2 ^ 64) at 1 by lia.
  rewrite wrap64_shift. apply wrap64_id. lia.
Qed.

Lemma wrap64_under z : - 2 ^ 64 - 2 ^ 63 <= z < - 2 ^ 63 -> wrap64 z = z + 2 ^ 64.
Proof.
  intros H. replace z with (z + 2 ^ 64 + (-1) * 2 ^ 64) at 1 by lia.
  rewrite wrap64_shift. apply wrap64_id. lia.
Qed.

(** [addSec] adds, and saturates where the sum leaves [int64]. *)
Lemma sec_addSec t d :
  - 2 ^ 63 <= sec t < 2 ^ 63 -> - 2 ^ 63 <= d < 2 ^ 63 ->
  sec (addSec t d) =
    (if sec t + d >=? 2 ^ 63 then 2 ^ 63 - 1
     else if sec t + d <? - 2 ^ 63 then - (2 ^ 63 - 1)
     else sec t + d) /\
  nsec (addSec t d) = nsec t.
Proof.
  intros Ht Hd. unfold addSec. split; [|reflexivity].
  unfold sec at 1. cbn [unixSec].
  change (internalToUnix) with (- unixToInternal).
  match goal with |- ?a + - ?c + ?c = _ => replace (a + - c + c) with a by lia end.
  destruct (Z.geb_spec (sec t + d) (2 ^ 63)) as [Ho|Ho].
  - rewrite wrap64_over by lia.
    destruct (Z.gtb_spec (sec t + d - 2 ^ 64) (sec t)); [lia|].
    destruct (Z.gtb_spec d 0); [|lia]. reflexivity.
  - destruct (Z.ltb_spec (sec t + d) (- 2 ^ 63)) as [Hu|Hu].
    + rewrite wrap64_under by lia.
      destruct (Z.gtb_spec (sec t + d + 2 ^ 64) (sec t)); [|lia].
      destruct (Z.gtb_spec d 0); [lia|]. reflexivity.
    + rewrite wrap64_id by lia.
      destruct (Z.gtb_spec (sec t + d) (sec t)), (Z.gtb_spec d 0); try lia; reflexivity.
Qed.

(** [t.Add(d)], by the nanoseconds it reaches. *)
Lemma Add_spec t d :
  wfTime t -> - 2 ^ 63 <= d < 2 ^ 63 ->
  exists s n,
    sec t * 1000000000 + nsec t + d = s * 1000000000 + n /\ 0 <= n < 1000000000 /\
    nsec (Add t d) = n /\
    sec (Add t d) =
      (if s >=? 2 ^ 63 then 2 ^ 63 - 1
       else if s <? - 2 ^ 63 then - (2 ^ 63 - 1) else s).
Proof.
  intros [Hs Hn] Hd. unfold Add.
  pose proof (Z.quot_rem' d 1000000000) as Hqr.
  assert (Hr : - 1000000000 < Z.rem d 1000000000 < 1000000000).
  { pose proof (Z.rem_bound_abs d 1000000000 ltac:(lia)) as Hb. lia. }
  set (q := Z.quot d 1000000000) in *. set (r := Z.rem d 1000000000) in *.
  assert (Hq : - 9223372038 < q < 9223372038) by lia.
  set (dn := if nsec t + r >=? 1000000000 then (q + 1, nsec t + r - 1000000000)
             else if nsec t + r <? 0 then (q - 1, nsec t + r + 1000000000)
             else (q, nsec t + r)).
  assert (Hdn : sec t * 1000000000 + nsec t + d = (sec t + fst dn) * 1000000000 + snd dn /\
                0 <= snd dn < 1000000000 /\ - 2 ^ 63 <= fst dn < 2 ^ 63).
  { unfold dn. destruct (Z.geb_spec (nsec t + r) 1000000000); [|destruct (Z.ltb_spec (nsec t + r) 0)];
      cbn [fst snd]; lia. }
  destruct dn as [dsec ns]. cbn [fst snd] in Hdn. destruct Hdn as (E & Hns & Hds).
  exists (sec t + dsec), ns. split; [exact E|]. split; [exact Hns|].
  pose proof (sec_addSec (mkTime (unixSec t) ns (loc t)) dsec) as Ha.
  change (sec (mkTime (unixSec t) ns (loc t))) with (sec t) in Ha.
  destruct (Ha Hs Hds) as [Ha1 Ha2]. split; [exact Ha2 | exact Ha1].
Qed.

Lemma Equal_spec t u : Equal t u = true <-> sec t = sec u /\ nsec t = nsec u.
Proof.
  unfold Equal, sec. rewrite andb_true_iff, !Z.eqb_eq. lia.
Qed.

Lemma Sub_saturate t u : wfTime t -> wfTime u -> Sub t u = saturate (nanosBetween u t).
Proof.
  intros Ht Hu. unfold Sub. change Second with 1000000000.
  rewrite wrap64_mul, wrap64_add.
  assert (ED : (sec t - sec u) * 1000000000 + (nsec t - nsec u) = nanosBetween u t).
  { unfold nanosBetween, sec. lia. }
  rewrite ED. set (D := nanosBetween u t) in *.
  destruct (wrap64_eq D) as [k Ek]. pose proof (wrap64_range D) as Hw.
  set (d := wrap64 D) in *.
  destruct (Add_spec u d Hu Hw) as (s & n & E & Hn & En & Es).
  destruct Ht as [Ht1 Ht2]. destruct Hu as [Hu1 Hu2].
  unfold saturate. change minDuration with (- 2 ^ 63). change maxDuration with (2 ^ 63 - 1).
  destruct (Z.ltb_spec D (- 2 ^ 63)) as [Hlo|Hlo]; [|destruct (Z.gtb_spec D (2 ^ 63 - 1)) as [Hhi|Hhi]].
  - (* below the range *)
    assert (Hneq : Equal (Add u d) t = false).
    { apply not_true_is_false. rewrite Equal_spec, En, Es. intros [H1 H2].
      destruct (Z.geb_spec s (2 ^ 63)); [lia|].
      destruct (Z.ltb_spec s (- 2 ^ 63)); lia. }
    rewrite Hneq. unfold Before.
    destruct (Z.ltb_spec (unixSec t) (unixSec u)); [reflexivity|].
    destruct (Z.eqb_spec (unixSec t) (unixSec u)); [|unfold sec in *; lia].
    destruct (Z.ltb_spec (nsec t) (nsec u)); [reflexivity|]. unfold sec in *. lia.
  - (* above the range *)
    assert (Hneq : Equal (Add u d) t = false).
    { apply not_true_is_false. rewrite Equal_spec, En, Es. intros [H1 H2].
      destruct (Z.geb_spec s (2 ^ 63)); [lia|].
      destruct (Z.ltb_spec s (- 2 ^ 63)); lia. }
    rewrite Hneq. unfold Before.
    destruct (Z.ltb_spec (unixSec t) (unixSec u)); [unfold sec in *; lia|].
    destruct (Z.eqb_spec (unixSec t) (unixSec u)); [|reflexivity].
    destruct (Z.ltb_spec (nsec t) (nsec u)); [unfold sec in *; lia|]. reflexivity.
  - (* in range: d is correct *)
    assert (Ed : d = D) by (unfold d; apply wrap64_id; lia).
    assert (Heq : Equal (Add u d) t = true).
    { rewrite Equal_spec, En, Es.
      assert (s = sec t /\ n = nsec t) as [-> ->] by lia.
      destruct (Z.geb_spec (sec t) (2 ^ 63)); [lia|].
      destruct (Z.ltb_spec (sec t) (- 2 ^ 63)); [lia|]. split; reflexivity. }
    rewrite Heq. exact Ed.
Qed.

(** C7. [fileIsRecent] is a function of the entry alone (given the
    process-wide [now]): it answers [true] exactly when the time from the
    entry's creation to [now] is less than 30 days, for all times Go can
    represent. *)
Theorem fileIsRecent_spec (clockSec clockNsec : Z) (f : FileEntry) :
  wfTime (now clockSec clockNsec) -> wfTime (created f) ->
  (fileIsRecent clockSec clockNsec f = true <->
   nanosBetween (created f) (now clockSec clockNsec) < 30 * 24 * 3600 * 1000000000).
Proof.
  intros Hn Hc. unfold fileIsRecent. rewrite Sub_saturate by assumption.
  rewrite Z.ltb_lt. unfold saturate.
  change recentDuration with 2592000000000000.
  change minDuration with (- 2 ^ 63). change maxDuration with (2 ^ 63 - 1).
  destruct (Z.ltb_spec (nanosBetween (created f) (now clockSec clockNsec)) (- 2 ^ 63));
    [lia|].
  destruct (Z.gtb_spec (nanosBetween (created f) (now clockSec clockNsec)) (2 ^ 63 - 1)); lia.
Qed.

(** ** The Active-File Extractor *)

Import GoString.

Lemma fold_left_append_map {A B} (f : A -> B) (l : list A) (acc : list B) :
  fold_left (fun acc x => acc ++ [f x]) l acc = acc ++ map f l.
Proof.
  revert acc. induction l as [|x l IH]; intros acc; cbn.
  - rewrite app_nil_r. reflexivity.
  - rewrite IH, <- app_assoc. reflexivity.
Qed.
















(** What [getDropboxFilesFromJob] does for any readers: a reader that
    fails makes the whole call fail with the reader's error. *)
Lemma getDropboxFilesFromJob_readers (j : gmap string Reader) :
  getDropboxFilesFromJob j =
  match j !! "PNFS_INPUT_FILES"%string with
  | None => (None, Some ErrMissingJobDropboxFiles)
  | Some val =>
      match r_err val with
      | Some e => (None, Some e)
      | None => (Some (map TrimSpace (Split (r_data val) ",")), None)
      end
  end.
Proof.
  unfold getDropboxFilesFromJob.
  destruct (j !! "PNFS_INPUT_FILES"%string) as [val|]; [|reflexivity].
  unfold Copy. destruct (r_err val); [reflexivity|].
  rewrite fold_left_append_map. reflexivity.
Qed.





(** ** The regular expression matcher is sound *)

Import GoRegexp.

Lemma sapp_cons (x : ascii) (a b : string) :
  (String x a +:+ b)%string = String x (a +:+ b).
Proof. reflexivity. Qed.

Lemma sapp_nil_l (a : string) : ("" +:+ a)%string = a.
Proof. reflexivity. Qed.

Lemma sapp_assoc (a b c : string) : ((a +:+ b) +:+ c = a +:+ (b +:+ c))%string.
Proof.
  induction a as [|x a IH]; [reflexivity|]. rewrite !sapp_cons. f_equal. exact IH.
Qed.

Lemma sapp_nil_r (a : string) : (a +:+ "")%string = a.
Proof.
  induction a as [|x a IH]; [reflexivity|]. rewrite sapp_cons. f_equal. exact IH.
Qed.

Lemma slength_app (a b : string) :
  String.length (a +:+ b) = (String.length a + String.length b)%nat.
Proof.
  induction a as [|x a IH]; [reflexivity|]. rewrite sapp_cons. cbn. f_equal. exact IH.
Qed.

Lemma take_sapp (a b : string) : GoString.take (String.length a) (a +:+ b) = a.
Proof.
  induction a as [|x a IH]; [destruct b; reflexivity|].
  rewrite sapp_cons. cbn. f_equal. exact IH.
Qed.

Lemma consumed_sapp (w rest : string) : consumed (w +:+ rest) rest = w.
Proof.
  unfold consumed. rewrite slength_app.
  replace (String.length w + String.length rest - String.length rest)%nat
    with (String.length w) by lia.
  apply take_sapp.
Qed.















(** ** The Line Parser *)




(** ** Instances: the theorems above at the inputs of main_test.go *)

Lemma not_Forall_failed_head {A} (x : A) (rs : list (A * option error)) :
  ~ Forall failed ((x, None) :: rs).
Proof. intros H. inversion H as [|? ? Hf]. apply Hf. reflexivity. Qed.

Lemma GetDropboxFiles_fail_soft_witness :
  getFilesList unit (test_accessor [false; true; false]) "" tt =
    ((Some ["/path/to/foo"; "/path/to/bardir"; "/more/sub/dir/paths/to/baz"]%string, None), tt) /\
  convertAll (test_accessor [false; true; false])
    ["/path/to/foo"; "/path/to/bardir"; "/more/sub/dir/paths/to/baz"]%string tt =
    ([(test_foo, None);
      (zeroFileEntry, Some (ErrExternal "Fake error that we staged"));
      (test_baz, None)], tt) /\
  GetDropboxFiles unit (test_accessor [false; true; false]) "" tt =
    ((Some [test_foo; test_baz], None), tt).
Proof.
  split; [reflexivity|]. split; [reflexivity|].
  refine (proj1 (proj2 (GetDropboxFiles_fail_soft (test_accessor [false; true; false]) ""
            tt tt tt _ None _ (eq_refl _) (eq_refl _))) (eq_refl _) _).
  right. apply not_Forall_failed_head.
Defined.

Lemma GetActiveFiles_fail_soft_witness :
  queryJobsList unit test_lister None (Some []) tt =
    ((Some [ {[ "FILE_ATTRIBUTE"%string := "/path/to/file2"%string ]};
             {[ "FILE_ATTRIBUTE"%string := "/path/to/file1,blahblah"%string ]} ], None), tt) /\
  extractAll test_lister
    [ {[ "FILE_ATTRIBUTE"%string := "/path/to/file2"%string ]};
      {[ "FILE_ATTRIBUTE"%string := "/path/to/file1,blahblah"%string ]} ] tt =
    ([(None, Some (ErrExternal "error!"));
      (Some ["/path/to/file1"; "blahblah"]%string, None)], tt) /\
  GetActiveFiles unit test_lister None (Some []) tt =
    ((Some ["/path/to/file1"; "blahblah"]%string, None), tt).
Proof.
  split; [reflexivity|]. split; [vm_compute; reflexivity|].
  refine (proj1 (proj2 (GetActiveFiles_fail_soft test_lister None (Some []) tt tt tt
            _ None
            [(None, Some (ErrExternal "error!"));
             (Some ["/path/to/file1"; "blahblah"]%string, None)]
            (eq_refl _) _)) (eq_refl _)).
  vm_compute; reflexivity.
Defined.


Lemma parseDateStampToTime_noYear_not_after_witness :
  ParseInLocation (-18000) dateWithTimeNoYearLayout "Nov  6 12:00" Local
    = (Date (-18000) 0 11 6 12 0 0 0 Local, None) /\
  snd (parseDateStampToTime (-18000) 1696766400 0 "Nov  6 12:00") = None /\
  After (fst (parseDateStampToTime (-18000) 1696766400 0 "Nov  6 12:00"))
    (now 1696766400 0) = false.
Proof.
  split; [vm_compute; reflexivity|].
  apply (parseDateStampToTime_noYear_not_after (-18000) 1696766400 0 "Nov  6 12:00"
           (Date (-18000) 0 11 6 12 0 0 0 Local)).
  vm_compute; reflexivity.
Defined.

Lemma parseDateStampToTime_withYear_witness :
  ParseInLocation (-18000) dateWithTimeNoYearLayout "Apr  6  2022" Local
    = (zeroTime,
       Some (ErrTimeParse (mkParseError dateWithTimeNoYearLayout "Apr  6  2022" ":" "22" ""))) /\
  ParseInLocation (-18000) dateWithYearLayout "Apr  6  2022" Local
    = (Date (-18000) 2022 4 6 0 0 0 0 Local, None) /\
  forall clockSec clockNsec,
    parseDateStampToTime (-18000) clockSec clockNsec "Apr  6  2022"
    = (Date (-18000) 2022 4 6 0 0 0 0 Local, None).
Proof.
  split; [vm_compute; reflexivity|]. split; [vm_compute; reflexivity|].
  apply (parseDateStampToTime_withYear (-18000) "Apr  6  2022" zeroTime
           (Date (-18000) 2022 4 6 0 0 0 0 Local)
           (ErrTimeParse (mkParseError dateWithTimeNoYearLayout "Apr  6  2022" ":" "22" "")));
    vm_compute; reflexivity.
Defined.

Lemma parseDateStampToTime_both_fail_witness :
  ParseInLocation (-18000) dateWithTimeNoYearLayout "boogityboo" Local
    = (zeroTime,
       Some (ErrTimeParse (mkParseError dateWithTimeNoYearLayout "boogityboo" "Jan" "boogityboo" ""))) /\
  ParseInLocation (-18000) dateWithYearLayout "boogityboo" Local
    = (zeroTime,
       Some (ErrTimeParse (mkParseError dateWithYearLayout "boogityboo" "Jan" "boogityboo" ""))) /\
  parseDateStampToTime (-18000) 1696766400 0 "boogityboo"
    = (zeroTime,
       Some (ErrTimeParse (mkParseError dateWithYearLayout "boogityboo" "Jan" "boogityboo" ""))).
Proof.
  split; [vm_compute; reflexivity|]. split; [vm_compute; reflexivity|].
  apply (parseDateStampToTime_both_fail (-18000) 1696766400 0 "boogityboo" zeroTime zeroTime
           (ErrTimeParse (mkParseError dateWithTimeNoYearLayout "boogityboo" "Jan" "boogityboo" ""))
           (ErrTimeParse (mkParseError dateWithYearLayout "boogityboo" "Jan" "boogityboo" "")));
    vm_compute; reflexivity.
Defined.

Lemma fileIsRecent_spec_witness :
  let f := mkFileEntry "/path/to/recent_file.txt" (mkTime (1696766400 - 7 * 86400) 0 Local) false in
  wfTime (now 1696766400 0) /\ wfTime (created f) /\
  (fileIsRecent 1696766400 0 f = true <->
   nanosBetween (created f) (now 1696766400 0) < 30 * 24 * 3600 * 1000000000).
Proof.
  cbv zeta.
  assert (H1 : wfTime (now 1696766400 0)) by (repeat split; vm_compute; congruence).
  assert (H2 : wfTime (mkTime (1696766400 - 7 * 86400) 0 Local)) by (repeat split; vm_compute; congruence).
  split; [exact H1|]. split; [exact H2|].
  exact (fileIsRecent_spec 1696766400 0
           (mkFileEntry "/path/to/recent_file.txt" (mkTime (1696766400 - 7 * 86400) 0 Local) false)
           H1 H2).
Defined.

(** ** The cases of main_test.go, run on the model

    The clock reads 2023-10-08 12:00:00 UTC and the local zone is five hours
    west of UTC. *)

Example TestParsePermsToDirectoryFlag :
  parsePermsToDirectoryFlag "-rwxrwxrwx" = (false, None) /\
  parsePermsToDirectoryFlag "drwxrwxrwx" = (true, None) /\
  parsePermsToDirectoryFlag "boogityboo" = (false, Some ErrMalformedPerms).
Proof. repeat split. Qed.

Example TestParseDateStampToTime :
  parseDateStampToTime (-18000) 1696766400 0 "Sep 26 14:55" =
    (Date (-18000) 2023 9 26 14 55 0 0 Local, None) /\
  parseDateStampToTime (-18000) 1696766400 0 "Nov 8 07:00" =
    (Date (-18000) 2022 11 8 7 0 0 0 Local, None) /\
  parseDateStampToTime (-18000) 1696766400 0 "Apr  6  2022" =
    (Date (-18000) 2022 4 6 0 0 0 0 Local, None) /\
  (exists pe, parseDateStampToTime (-18000) 1696766400 0 "Apr  96  2022" =
    (zeroTime, Some (ErrTimeParse pe))) /\
  (exists pe, parseDateStampToTime (-18000) 1696766400 0 "boogityboo" =
    (zeroTime, Some (ErrTimeParse pe))).
Proof. repeat split; try (eexists; vm_compute; reflexivity); vm_compute; reflexivity. Qed.

Example TestScanDropboxLineToFileEntry :
  scanDropboxLineToFileEntry (-18000) 1696766400 0
    "-rwxrwxrwx   0 0     0            50 Sep 26 14:55 bogus_file.out" =
    (Some (mkFileEntry "bogus_file.out" (Date (-18000) 2023 9 26 14 55 0 0 Local) false), None) /\
  scanDropboxLineToFileEntry (-18000) 1696766400 0
    "drwxrwxrwx   0 0     0            50 Sep 26 14:55 bogus_directory" =
    (Some (mkFileEntry "bogus_directory" (Date (-18000) 2023 9 26 14 55 0 0 Local) true), None) /\
  scanDropboxLineToFileEntry (-18000) 1696766400 0
    "drwxrwxrwx   0 0     0             0 Apr  6  2022 bogus_dir" =
    (Some (mkFileEntry "bogus_dir" (Date (-18000) 2022 4 6 0 0 0 0 Local) true), None).
Proof. repeat split; vm_compute; reflexivity. Qed.

Example TestFileIsRecent :
  let entry t := mkFileEntry "/path/to/file.txt" t false in
  fileIsRecent 1696766400 0 (entry (AddDate (-18000) (now 1696766400 0) 0 0 (-7))) = true /\
  fileIsRecent 1696766400 0 (entry (AddDate (-18000) (now 1696766400 0) 0 (-2) 0)) = false /\
  fileIsRecent 1696766400 0 (entry (AddDate (-18000) (now 1696766400 0) (-2) 0 0)) = false.
Proof. repeat split; vm_compute; reflexivity. Qed.

Example TestCondorScheddGetDropboxFilesFromJob :
  getDropboxFilesFromJob {[ "PNFS_INPUT_FILES"%string := NewReader "/path/to/myfile" ]} =
    (Some ["/path/to/myfile"%string], None) /\
  getDropboxFilesFromJob
    {[ "PNFS_INPUT_FILES"%string := NewReader "/path/to/myfile,/path/to/myfile2, /path/to/myfile3" ]} =
    (Some ["/path/to/myfile"; "/path/to/myfile2"; "/path/to/myfile3"]%string, None) /\
  getDropboxFilesFromJob
    {[ "PNFS_INPUT_FILES_WRONG"%string := NewReader "/path/to/myfile" ]} =
    (None, Some ErrMissingJobDropboxFiles) /\
  getDropboxFilesFromJob {[ "PNFS_INPUT_FILES"%string := NewReader "/a,, /b ," ]} =
    (Some ["/a"; ""; "/b"; ""]%string, None).
Proof. repeat split; vm_compute; reflexivity. Qed.

Example TestGetActiveFiles :
  let run j := fst (GetActiveFiles unit (testJobLister_provider j) None (Some []) tt) in
  run (newTestJobLister false [("/path/to/file1", false); ("/path/to/file2", false)]%string) =
    (Some ["/path/to/file1"; "/path/to/file2"]%string, None) /\
  run (newTestJobLister false []) = (Some [], None) /\
  run (newTestJobLister false
         [("/path/to/file1,/path/to/file3", false); ("/path/to/file2", false)]%string) =
    (Some ["/path/to/file1"; "/path/to/file3"; "/path/to/file2"]%string, None) /\
  run (newTestJobLister true [("/path/to/file2", false)]%string) =
    (Some [], Some (ErrExternal "this is an error")) /\
  run (newTestJobLister false [("/path/to/file2", true)]%string) = (Some [], None).
Proof. repeat split; vm_compute; reflexivity. Qed.

Example TestGetDropboxFiles :
  let run t := fst (GetDropboxFiles unit (testFileAccessor_provider t) "" tt) in
  let files := [test_foo; test_bardir; test_baz] in
  run (mkTestFileAccessor files false [false; false; false]) =
    (Some [test_foo; test_bardir; test_baz], None) /\
  run (mkTestFileAccessor files true [false; true; false]) =
    (None, Some (ErrExternal "some generic file listing error")) /\
  run (mkTestFileAccessor files false [false; true; false]) =
    (Some [test_foo; test_baz], None) /\
  run (mkTestFileAccessor files false [true; true; true]) =
    (None, Some ErrNoFileEntries).
Proof. repeat split. Qed.

(** * Further properties *)

(** ** The collectors *)

Lemma succeeded_cons {A} (x : A) (e : option error) (rs : list (A * option error)) :
  succeeded ((x, e) :: rs) =
  match e with None => x :: succeeded rs | Some _ => succeeded rs end.
Proof. destruct e; reflexivity. Qed.

Lemma extractAll_CondorSchedd {World} (j : JobLister World)
  (jobs : list (gmap string string)) (w : World) :
  (forall r w, jl_getDropboxFilesFromJob World j r w = (getDropboxFilesFromJob r, w)) ->
  (extractAll j jobs w).2 = w /\
  concat (map elems (succeeded (extractAll j jobs w).1)) = concat (map jobFiles jobs).
Proof.
  intros Hj. induction jobs as [|job jobs IH]; [split; reflexivity|].
  cbn [extractAll]. rewrite Hj.
  destruct (extractAll j jobs w) as [rs w'] eqn:He. cbn [fst snd] in *.
  destruct IH as [-> IH]. split; [reflexivity|].
  rewrite getDropboxFilesFromJob_readers, lookup_fmap.
  cbn [map concat]. unfold jobFiles at 1.
  destruct (job !! "PNFS_INPUT_FILES"%string) as [v|]; cbn [fmap option_fmap option_map NewReader r_err r_data];
    rewrite succeeded_cons.
  - cbn [map concat elems]. rewrite IH. reflexivity.
  - exact IH.
Qed.

(** X1.  With a provider that extracts as [CondorSchedd.getDropboxFilesFromJob]
    does, [GetActiveFiles] returns, when the query succeeds, the trimmed
    segments of the PNFS_INPUT_FILES value of each job, in the order of the
    jobs; a job without the attribute contributes nothing and does not
    make the collection fail. *)
Theorem GetActiveFiles_CondorSchedd {World} (j : JobLister World)
  (attributes constraints : slice string) (w w1 : World)
  (jobs : slice (gmap string string)) :
  (forall r w, jl_getDropboxFilesFromJob World j r w = (getDropboxFilesFromJob r, w)) ->
  queryJobsList World j attributes constraints w = ((jobs, None), w1) ->
  GetActiveFiles World j attributes constraints w =
    ((Some (concat (map jobFiles (elems jobs))), None), w1).
Proof.
  intros Hj Hq. unfold GetActiveFiles. rewrite Hq.
  rewrite GetActiveFiles_loop_extractAll.
  destruct (extractAll_CondorSchedd j (elems jobs) w1 Hj) as [-> ->]. reflexivity.
Qed.

Lemma succeeded_length {A} (rs : list (A * option error)) :
  (length (succeeded rs) <= length rs)%nat.
Proof.
  induction rs as [|[x [e|]] rs IH]; cbn; [lia| |]; fold (succeeded rs); lia.
Qed.

Lemma convertAll_length {World} (f : FileAccessor World) ls w :
  length (convertAll f ls w).1 = length ls.
Proof.
  revert w. induction ls as [|l ls IH]; intros w; cbn; [reflexivity|].
  destruct (fileListingToFileEntry World f (NewReader l) w) as [r w1].
  specialize (IH w1). destruct (convertAll f ls w1) as [rs w2]. cbn in *. lia.
Qed.

(** X2.  [GetDropboxFiles] returns either entries and no error, or no entries
    and an error, never both and never neither.  When it returns entries
    they are no more than the listings fetched, and there is at least one
    unless nothing was listed. *)
Theorem GetDropboxFiles_outcome {World} (f : FileAccessor World) (source : string) (w : World) :
  match GetDropboxFiles World f source w with
  | ((Some fileEntries, None), _) =>
      exists fileListings w1,
        getFilesList World f source w = ((fileListings, None), w1) /\
        (length fileEntries <= length (elems fileListings))%nat /\
        (elems fileListings <> [] -> fileEntries <> [])
  | ((None, Some _), _) => True
  | _ => False
  end.
Proof.
  unfold GetDropboxFiles.
  destruct (getFilesList World f source w) as [[fileListings [e|]] w1]; [exact I|].
  rewrite GetDropboxFiles_loop_convertAll. cbn [app].
  pose proof (succeeded_length (convertAll f (elems fileListings) w1).1) as Hl.
  rewrite convertAll_length in Hl.
  destruct (succeeded (convertAll f (elems fileListings) w1).1) as [|x xs] eqn:Hs.
  - destruct (elems fileListings) as [|l ls] eqn:El; cbn.
    + exists fileListings, w1. rewrite El. repeat split; [lia | congruence].
    + exact I.
  - cbn [length Nat.eqb andb negb]. rewrite andb_false_r.
    exists fileListings, w1. split; [reflexivity|]. split; [exact Hl | discriminate].
Qed.

(** ** Recent files *)

Lemma Before_false t u :
  0 <= nsec t < 1000000000 -> 0 <= nsec u < 1000000000 ->
  Before t u = false -> nanosBetween t u <= 0.
Proof.
  intros Ht Hu. unfold Before, nanosBetween.
  rewrite orb_false_iff, andb_false_iff, !Z.ltb_ge, Z.eqb_neq. lia.
Qed.

Lemma fileIsRecent_nanos (clockSec clockNsec : Z) (f : FileEntry) :
  wfTime (now clockSec clockNsec) -> wfTime (created f) ->
  fileIsRecent clockSec clockNsec f = true <->
  nanosBetween (created f) (now clockSec clockNsec) < 2592000000000000.
Proof.
  intros Hn Hc. unfold fileIsRecent. rewrite Sub_saturate by assumption.
  rewrite Z.ltb_lt. unfold saturate.
  change recentDuration with 2592000000000000.
  change minDuration with (- 2 ^ 63). change maxDuration with (2 ^ 63 - 1).
  destruct (Z.ltb_spec (nanosBetween (created f) (now clockSec clockNsec)) (- 2 ^ 63));
    [lia|].
  destruct (Z.gtb_spec (nanosBetween (created f) (now clockSec clockNsec)) (2 ^ 63 - 1)); lia.
Qed.

(** X3.  [fileIsRecent] is monotone in the creation time: an entry created no
    earlier than a recent entry is recent too. *)
Theorem fileIsRecent_monotone (clockSec clockNsec : Z) (f g : FileEntry) :
  wfTime (now clockSec clockNsec) -> wfTime (created f) -> wfTime (created g) ->
  Before (created g) (created f) = false ->
  fileIsRecent clockSec clockNsec f = true ->
  fileIsRecent clockSec clockNsec g = true.
Proof.
  intros Hn Hf Hg Hb. rewrite !fileIsRecent_nanos by assumption.
  apply Before_false in Hb; [|apply Hg | apply Hf].
  unfold nanosBetween in *. lia.
Qed.

(** X4.  An entry whose creation time is not before [now] (a time stamp in the
    future, or [now] itself) is recent. *)
Theorem fileIsRecent_not_before_now (clockSec clockNsec : Z) (f : FileEntry) :
  wfTime (now clockSec clockNsec) -> wfTime (created f) ->
  Before (created f) (now clockSec clockNsec) = false ->
  fileIsRecent clockSec clockNsec f = true.
Proof.
  intros Hn Hf Hb. rewrite fileIsRecent_nanos by assumption.
  apply Before_false in Hb; [|apply Hf | apply Hn]. lia.
Qed.

(** ** The Active-File Extractor: splitting undoes joining *)

Lemma IndexByte_sapp x sep rest :
  Count x sep = O -> IndexByte (x +:+ String sep rest) sep = Some (String.length x).
Proof.
  induction x as [|b x IH].
  - intros _. rewrite sapp_nil_l. cbn. rewrite Ascii.eqb_refl. reflexivity.
  - rewrite sapp_cons. cbn [Count IndexByte String.length].
    destruct (Ascii.eqb b sep); [discriminate|]. intros H.
    rewrite (IH H). reflexivity.
Qed.

Lemma Count_sapp x y sep : Count (x +:+ y) sep = (Count x sep + Count y sep)%nat.
Proof.
  induction x as [|b x IH]; [reflexivity|].
  change (String b x +:+ y)%string with (String b (x +:+ y)). cbn [Count].
  rewrite IH. destruct (Ascii.eqb b sep); reflexivity.
Qed.

Lemma sdrop_S_sapp x sep y : drop (String.length x + 1) (x +:+ String sep y) = y.
Proof.
  induction x as [|b x IH]; [rewrite sapp_nil_l; reflexivity|].
  rewrite sapp_cons. exact IH.
Qed.

Lemma strings_Join_cons x y l sep :
  strings_Join (x :: y :: l) sep = (x +:+ String sep (strings_Join (y :: l) sep))%string.
Proof. reflexivity. Qed.

Lemma Split_strings_Join names sep :
  names <> [] -> Forall (fun n => Count n sep = O) names ->
  Split (strings_Join names sep) sep = names.
Proof.
  intros Hne Hall. unfold Split.
  induction Hall as [|x l Hx Hl IH]; [contradiction|].
  destruct l as [|y l].
  - cbn [strings_Join]. rewrite Hx. reflexivity.
  - rewrite strings_Join_cons. rewrite Count_sapp, Hx. cbn [Nat.add Count].
    rewrite Ascii.eqb_refl.
    cbn [genSplit_loop]. rewrite IndexByte_sapp by exact Hx.
    rewrite take_sapp, sdrop_S_sapp. f_equal. apply IH. discriminate.
Qed.

Lemma TrimSpace_id s : isASCII s -> noSpaceAtEnds s -> TrimSpace s = s.
Proof.
  intros Ha Hn. destruct s as [|c s]; [reflexivity|].
  cbn [TrimSpace].
  pose proof (Ha O c eq_refl) as Hc. change RuneSelf with 128.
  destruct (Z.geb_spec (byteZ c) 128); [lia|].
  rewrite (Hn c (or_introl eq_refl)). cbn [negb].
  set (t := String c s) in *.
  assert (Hlen : String.length t = S (String.length s)) by reflexivity.
  rewrite Hlen. cbn [trimStop].
  destruct (String.get (String.length s) t) as [c'|] eqn:Hg.
  - pose proof (Ha _ _ Hg) as Hc'. change RuneSelf with 128.
    destruct (Z.geb_spec (byteZ c') 128); [lia|].
    assert (Hs : asciiSpace c' = false).
    { apply Hn. right. rewrite Hlen. cbn [Nat.sub]. rewrite Nat.sub_0_r. exact Hg. }
    rewrite Hs. cbn [negb]. rewrite <- Hlen.
    clear. induction t as [|b t IH]; [reflexivity|]. cbn. rewrite IH. reflexivity.
  - rewrite <- Hlen. clear. induction t as [|b t IH]; [reflexivity|]. cbn. rewrite IH. reflexivity.
Qed.

(** X5.  When PNFS_INPUT_FILES holds a non-empty list of names joined by
    commas, each name ASCII, free of commas and with no white space at its
    ends, [getDropboxFilesFromJob] returns exactly that list. *)
Theorem getDropboxFilesFromJob_Join (job : gmap string string) (names : list string) :
  names <> [] ->
  Forall (fun n => Count n "," = O /\ isASCII n /\ noSpaceAtEnds n) names ->
  job !! "PNFS_INPUT_FILES"%string = Some (strings_Join names ",") ->
  getDropboxFilesFromJob (NewReader <$> job) = (Some names, None).
Proof.
  intros Hne Hall Hj.
  rewrite getDropboxFilesFromJob_readers, lookup_fmap, Hj.
  cbn [fmap option_fmap option_map NewReader r_err r_data].
  rewrite Split_strings_Join; [|exact Hne | eapply Forall_impl; [exact Hall | intros n Hn; apply Hn]].
  assert (Hmap : map TrimSpace names = names).
  { clear Hne Hj. induction Hall as [|n l [_ [Ha Hs]] _ IH]; [reflexivity|].
    cbn [map]. rewrite TrimSpace_id, IH by assumption. reflexivity. }
  rewrite Hmap. reflexivity.
Qed.

(** ** The Date Resolver: the form with a year *)



Lemma getnum_two_digits a b rest fixed :
  byteIn "0" "9" a = true -> byteIn "0" "9" b = true ->
  getnum (String a (String b rest)) fixed = (digitVal a * 10 + digitVal b, rest, true).
Proof.
  intros Ha Hb. unfold getnum, isDigit. cbn [String.get]. rewrite Ha, Hb. reflexivity.
Qed.

Lemma skip_colon_digit c rest :
  byteIn "0" "9" c = true -> snd (skip (String c rest) ":") = false.
Proof.
  intros Hc. unfold skip. cbn [String.length skip_loop].
  destruct (Ascii.eqb_spec c ":") as [->|Hn]; [discriminate Hc|].
  change (Ascii.eqb ":" " ") with false. cbn iota.
  destruct (Ascii.eqb_spec c ":"); [contradiction|]. reflexivity.
Qed.

Section WithYear.
Variable off : Z.


End WithYear.


(** ** The Date Resolver: what the form without a year reads back as *)

Lemma Time_eq (t u : Time) :
  unixSec t = unixSec u -> nsec t = nsec u -> loc t = loc u -> t = u.
Proof. destruct t, u; cbn; intros -> -> ->; reflexivity. Qed.

(** [Date] takes a day beyond the end of the month into the next one:
    two dates with the same day of the year are the same instant. *)
Lemma Date_same_yday off y m d m' d' h mi l :
  1 <= m <= 12 -> 1 <= m' <= 12 -> 0 <= h < 24 -> 0 <= mi < 60 ->
  ydayOf (isLeap y) m d = ydayOf (isLeap y) m' d' ->
  Date off y m d h mi 0 0 l = Date off y m' d' h mi 0 0 l.
Proof.
  intros Hm Hm' Hh Hmi Hy.
  destruct (fields_Date off y m d h mi 0 0 l) as [N1 L1]; try lia.
  destruct (fields_Date off y m' d' h mi 0 0 l) as [N2 L2]; try lia.
  apply Time_eq; [|congruence|congruence].
  pose proof (abs_Date off y m d h mi 0 0 l ltac:(lia) ltac:(lia) ltac:(lia) ltac:(lia) ltac:(lia)) as A1.
  pose proof (abs_Date off y m' d' h mi 0 0 l ltac:(lia) ltac:(lia) ltac:(lia) ltac:(lia) ltac:(lia)) as A2.
  unfold abs in A1, A2. rewrite L1 in A1. rewrite L2 in A2. rewrite Hy in A1. lia.
Qed.

Lemma isLeap_pred y : isLeap y = true -> isLeap (y - 1) = false.
Proof.
  rewrite !isLeap_spec. rewrite andb_true_iff, Z.eqb_eq. intros [H4 _].
  apply andb_false_iff. left. apply Z.eqb_neq. Z.div_mod_to_equations. lia.
Qed.



(** X8.  A time stamp "Feb 29 hh:mm" resolves to February 29 only when the year
    of [now] is a leap year and that day is not after [now]; in a common
    year it resolves to March 1, and whenever the year is rolled back it
    resolves to March 1 of the year before. *)
Theorem parseDateStampToTime_leap_day (localOffset clockSec clockNsec : Z)
  (dateString : string) (hour min : Z) :
  0 <= hour < 24 -> 0 <= min < 60 ->
  ParseInLocation localOffset dateWithTimeNoYearLayout dateString Local
    = (Date localOffset 0 2 29 hour min 0 0 Local, None) ->
  let Y := Year localOffset (now clockSec clockNsec) in
  let yearDateStamp := Date localOffset Y 2 29 hour min 0 0 Local in
  exists t,
    parseDateStampToTime localOffset clockSec clockNsec dateString = (t, None) /\
    Date_of localOffset t =
      (if After yearDateStamp (now clockSec clockNsec) then (Y - 1, 3, 1)
       else if isLeap Y then (Y, 2, 29) else (Y, 3, 1)) /\
    Clock localOffset t = (hour, min, 0).
Proof.
  intros Hh Hmi Hp Y y.
  unfold parseDateStampToTime. rewrite Hp.
  rewrite AddDate_years; [|lia|vm_compute; split; congruence|lia|lia].
  rewrite Z.add_0_l. fold Y. fold y.
  assert (Hmar : forall y0, isLeap y0 = false ->
            Date localOffset y0 2 29 hour min 0 0 Local = Date localOffset y0 3 1 hour min 0 0 Local).
  { intros y0 Hl. apply Date_same_yday; try lia. rewrite Hl. reflexivity. }
  assert (Hd31 : forall y0, 1 <= 1 <= daysIn 3 y0).
  { intros y0. unfold daysIn. change (3 =? February) with false. cbn [andb].
    change (daysBefore 3 - daysBefore (3 - 1)) with 31. lia. }
  destruct (isLeap Y) eqn:HL.
  - assert (Hd29 : 1 <= 29 <= daysIn 2 Y).
    { unfold daysIn. change (2 =? February) with true. rewrite HL. cbn. lia. }
    destruct (After y (now clockSec clockNsec)).
    + unfold y. rewrite AddDate_years by lia.
      rewrite Hmar by (apply isLeap_pred; exact HL).
      eexists. split; [reflexivity|].
      rewrite Date_of_Date, Clock_Date; try lia; [|apply Hd31].
      split; [f_equal; f_equal; lia | reflexivity].
    + exists y. split; [reflexivity|]. unfold y.
      rewrite Date_of_Date, Clock_Date by lia. split; reflexivity.
  - unfold y. rewrite Hmar by exact HL.
    destruct (After _ (now clockSec clockNsec)).
    + rewrite AddDate_years; try lia; [|apply Hd31].
      eexists. split; [reflexivity|].
      rewrite Date_of_Date, Clock_Date; try lia; [|apply Hd31].
      split; [f_equal; f_equal; lia | reflexivity].
    + eexists. split; [reflexivity|].
      rewrite Date_of_Date, Clock_Date; try lia; [|apply Hd31]. split; reflexivity.
Qed.

(** ** The regular expression matcher finds well-formed lines *)

Lemma classLike_Class p : classLike (Class p) p.
Proof. intros s c. reflexivity. Qed.

Lemma classLike_Alt p q :
  (forall b, p b = true -> q b = false) ->
  classLike (Alt (Class p) (Class q)) (orClass p q).
Proof.
  intros Hd s c. cbn [matches]. destruct s as [|b s]; [reflexivity|].
  unfold orClass. destruct (p b) eqn:Hp; cbn [orb].
  - rewrite (Hd b Hp). reflexivity.
  - destruct (q b); reflexivity.
Qed.

Lemma matches_Plus_nil r P c : classLike r P -> matches (Plus r) "" c = [].
Proof. intros H. cbn [matches String.length plus_iter]. rewrite H. reflexivity. Qed.

Lemma matches_Plus_cons r P b s c :
  classLike r P ->
  matches (Plus r) (String b s) c =
  if P b then matches (Plus r) s c ++ [(s, c)] else [].
Proof.
  intros H. cbn [matches String.length plus_iter]. rewrite H.
  destruct (P b); [|reflexivity]. cbn [flat_map].
  assert (E : (String.length s <? S (String.length s))%nat = true) by (apply Nat.ltb_lt; lia).
  rewrite E, app_nil_r. reflexivity.
Qed.

Lemma matches_Plus_stop r P rest c :
  classLike r P -> startsWith P rest = false -> matches (Plus r) rest c = [].
Proof.
  intros H Hs. destruct rest as [|b rest]; [apply (matches_Plus_nil r P); exact H|].
  rewrite (matches_Plus_cons r P) by exact H. cbn in Hs. rewrite Hs. reflexivity.
Qed.

(** A greedy run: on a run [w] of bytes of the class, followed by a text
    that does not start with one, [r+] finds the prefixes of [w], longest
    first. *)
Lemma matches_Plus_run r P w rest c :
  classLike r P ->
  forallb P (list_ascii_of_string w) = true -> startsWith P rest = false ->
  matches (Plus r) (w +:+ rest) c = map (fun s => (s, c)) (tails_run w rest).
Proof.
  intros H Hw Hs. induction w as [|b w IH].
  - rewrite sapp_nil_l. cbn [tails_run map]. apply (matches_Plus_stop r P); assumption.
  - rewrite sapp_cons. cbn [list_ascii_of_string forallb] in Hw.
    apply andb_true_iff in Hw. destruct Hw as [Hb Hw].
    rewrite (matches_Plus_cons r P) by exact H. rewrite Hb, (IH Hw).
    cbn [tails_run]. rewrite map_app. reflexivity.
Qed.

Lemma tails_run_head b w rest : exists tl, tails_run (String b w) rest = rest :: tl.
Proof.
  revert b. induction w as [|b' w IH]; intros b.
  - exists []. reflexivity.
  - destruct (IH b') as [tl E]. cbn [tails_run] in *. rewrite E.
    eexists. reflexivity.
Qed.

Lemma tails_run_In P w rest s :
  forallb P (list_ascii_of_string w) = true ->
  In s (tails_run w rest) -> s = rest \/ startsWith P s = true.
Proof.
  induction w as [|b w IH]; [intros _ []|].
  cbn [list_ascii_of_string forallb tails_run]. intros Hw Hin.
  apply andb_true_iff in Hw. destruct Hw as [Hb Hw].
  apply in_app_iff in Hin. destruct Hin as [Hin|[<-|[]]]; [apply IH; assumption|].
  destruct w as [|b' w]; [left; reflexivity|].
  right. cbn in Hw |- *. apply andb_true_iff in Hw. apply Hw.
Qed.

Lemma firstMatch_Plus_run r P w rest c :
  classLike r P -> plusOf P w -> startsWith P rest = false ->
  firstMatch (Plus r) (w +:+ rest) c (rest, c).
Proof.
  intros H [Hne Hw] Hs. unfold firstMatch.
  rewrite (matches_Plus_run r P) by assumption.
  destruct w as [|b w]; [contradiction|].
  destruct (tails_run_head b w rest) as [tl ->]. eexists. reflexivity.
Qed.

Lemma firstMatch_Cat r1 r2 s c s1 c1 x :
  firstMatch r1 s c (s1, c1) -> firstMatch r2 s1 c1 x -> firstMatch (Cat r1 r2) s c x.
Proof.
  intros [tl1 E1] [tl2 E2]. unfold firstMatch. cbn [matches]. rewrite E1.
  cbn [flat_map]. rewrite E2. eexists. reflexivity.
Qed.

Lemma firstMatch_Cap n r s c s1 c1 :
  firstMatch r s c (s1, c1) ->
  firstMatch (Cap n r) s c (s1, <[n := consumed s s1]> c1).
Proof.
  intros [tl E]. unfold firstMatch. cbn [matches]. rewrite E. eexists. reflexivity.
Qed.

Lemma firstMatch_Alt_l r1 r2 s c x :
  firstMatch r1 s c x -> firstMatch (Alt r1 r2) s c x.
Proof.
  intros [tl E]. unfold firstMatch. cbn [matches]. rewrite E. eexists. reflexivity.
Qed.

Lemma firstMatch_Alt_r r1 r2 s c x :
  matches r1 s c = [] -> firstMatch r2 s c x -> firstMatch (Alt r1 r2) s c x.
Proof.
  intros E1 [tl E]. unfold firstMatch. cbn [matches]. rewrite E1, E. eexists. reflexivity.
Qed.

Lemma firstMatch_Class p b s c : p b = true -> firstMatch (Class p) (String b s) c (s, c).
Proof. intros H. exists []. cbn. rewrite H. reflexivity. Qed.

Lemma flat_map_nil {A B} (f : A -> list B) (l : list A) :
  (forall x, In x l -> f x = []) -> flat_map f l = [].
Proof.
  induction l as [|a l IH]; [reflexivity|]. intros H. cbn.
  rewrite (H a (or_introl eq_refl)), IH; [reflexivity|].
  intros x Hx. apply H. right. exact Hx.
Qed.

(** A run of bytes of the class that is followed neither by one more nor
    by [x]: [r+] followed by [x] does not match. *)
Lemma matches_Plus_then_lit r P w rest x r2 c :
  classLike r P -> forallb P (list_ascii_of_string w) = true ->
  startsWith P rest = false -> startsWith (lit x) rest = false ->
  (forall b, P b = true -> lit x b = false) ->
  matches (Cat (Plus r) (Cat (Class (lit x)) r2)) (w +:+ rest) c = [].
Proof.
  intros H Hw Hs Hx Hd. cbn [matches].
  change (plus_iter (matches r) (String.length (w +:+ rest)) (w +:+ rest) c)
    with (matches (Plus r) (w +:+ rest) c).
  rewrite (matches_Plus_run r P) by assumption.
  apply flat_map_nil. intros [s1 c1] Hin.
  apply in_map_iff in Hin. destruct Hin as (s & [= <- <-] & Hin).
  assert (E : startsWith (lit x) s = false).
  { destruct (tails_run_In P w rest s Hw Hin) as [->|Hp]; [exact Hx|].
    destruct s as [|b s]; [reflexivity|]. cbn in *. apply Hd. exact Hp. }
  destruct s as [|b s]; [reflexivity|]. cbn in E. rewrite E. reflexivity.
Qed.

Lemma startsWith_sapp p q x y :
  (forall b, q b = true -> p b = false) -> plusOf q x -> startsWith p (x +:+ y) = false.
Proof.
  intros Hd [Hne Hx]. destruct x as [|b x]; [contradiction|].
  rewrite sapp_cons. cbn in *. apply andb_true_iff in Hx. apply Hd, Hx.
Qed.

Lemma all_bytes (f : ascii -> bool) :
  forallb f (map ascii_of_nat (seq 0 256)) = true -> forall b, f b = true.
Proof.
  intros H b. rewrite forallb_forall in H. apply H.
  apply in_map_iff. exists (nat_of_ascii b). split; [apply ascii_nat_embedding|].
  apply in_seq. pose proof (nat_ascii_bounded b). lia.
Qed.

Lemma classes_disjoint (p q : ascii -> bool) :
  forallb (fun b => implb (q b) (negb (p b))) (map ascii_of_nat (seq 0 256)) = true ->
  forall b, q b = true -> p b = false.
Proof.
  intros H b Hq. pose proof (all_bytes _ H b) as Hb. cbv beta in Hb.
  rewrite Hq in Hb. cbn in Hb. apply negb_true_iff. exact Hb.
Qed.

Lemma space_not_perms : forall b, perl_s b = true -> orClass perl_w (lit "-") b = false.
Proof. apply classes_disjoint. vm_compute. reflexivity. Qed.

Lemma digit_not_space : forall b, perl_d b = true -> perl_s b = false.
Proof. apply classes_disjoint. vm_compute. reflexivity. Qed.

Lemma space_not_digit : forall b, perl_s b = true -> perl_d b = false.
Proof. apply classes_disjoint. vm_compute. reflexivity. Qed.

Lemma word_not_space : forall b, perl_w b = true -> perl_s b = false.
Proof. apply classes_disjoint. vm_compute. reflexivity. Qed.

Lemma space_not_word : forall b, perl_s b = true -> perl_w b = false.
Proof. apply classes_disjoint. vm_compute. reflexivity. Qed.

Lemma space_not_colon : forall b, perl_s b = true -> lit ":" b = false.
Proof. apply classes_disjoint. vm_compute. reflexivity. Qed.

Lemma digit_not_colon : forall b, perl_d b = true -> lit ":" b = false.
Proof. apply classes_disjoint. vm_compute. reflexivity. Qed.

Lemma word_not_dash : forall b, perl_w b = true -> lit "-" b = false.
Proof. apply classes_disjoint. vm_compute. reflexivity. Qed.

Lemma classLike_perms : classLike (Alt (Class perl_w) (Class (lit "-"))) (orClass perl_w (lit "-")).
Proof. apply classLike_Alt, word_not_dash. Qed.

(** A field: a run of the class, captured. *)
Lemma firstMatch_field n r P w rest c :
  classLike r P -> plusOf P w -> startsWith P rest = false ->
  firstMatch (Cap n (Plus r)) (w +:+ rest) c (rest, <[n := w]> c).
Proof.
  intros H Hw Hs.
  pose proof (firstMatch_Cap n _ _ c _ _ (firstMatch_Plus_run r P w rest c H Hw Hs)) as F.
  rewrite consumed_sapp in F. exact F.
Qed.

(** The white space between two fields. *)
Lemma firstMatch_sep w rest c :
  plusOf perl_s w -> startsWith perl_s rest = false ->
  firstMatch (Plus (Class perl_s)) (w +:+ rest) c (rest, c).
Proof. apply firstMatch_Plus_run, classLike_Class. Qed.

(** The time stamp: [\w+\s+\d+\s+(?:(?:\d+:\d+)|\d+)]. *)
Lemma firstMatch_timestamp ts R c :
  tsShape ts -> startsWith perl_s R = true ->
  firstMatch
    (cats (Plus (Class perl_w))
       [Plus (Class perl_s); Plus (Class perl_d); Plus (Class perl_s);
        Alt (cats (Plus (Class perl_d)) [Class (lit ":"); Plus (Class perl_d)])
          (Plus (Class perl_d))])
    (ts +:+ R) c (R, c).
Proof.
  intros (mon & w1 & day & w2 & tail & -> & Hmon & Hw1 & Hday & Hw2 & Htail) HR.
  assert (HRd : startsWith perl_d R = false).
  { destruct R as [|b R]; [reflexivity|]. apply space_not_digit. exact HR. }
  assert (HRc : startsWith (lit ":") R = false).
  { destruct R as [|b R]; [reflexivity|]. apply space_not_colon. exact HR. }
  rewrite !sapp_assoc. cbn [cats].
  eapply firstMatch_Cat.
  { apply (firstMatch_Plus_run _ perl_w); [apply classLike_Class | exact Hmon |].
    apply (startsWith_sapp _ perl_s); [apply space_not_word | exact Hw1]. }
  eapply firstMatch_Cat.
  { apply firstMatch_sep; [exact Hw1|].
    apply (startsWith_sapp _ perl_d); [apply digit_not_space | exact Hday]. }
  eapply firstMatch_Cat.
  { apply (firstMatch_Plus_run _ perl_d); [apply classLike_Class | exact Hday |].
    apply (startsWith_sapp _ perl_s); [apply space_not_digit | exact Hw2]. }
  destruct Htail as [(h & m & -> & Hh & Hm) | Htail].
  - eapply firstMatch_Cat.
    { apply firstMatch_sep; [exact Hw2|]. rewrite !sapp_assoc.
      apply (startsWith_sapp _ perl_d); [apply digit_not_space | exact Hh]. }
    rewrite !sapp_assoc. apply firstMatch_Alt_l.
    eapply firstMatch_Cat.
    { apply (firstMatch_Plus_run _ perl_d); [apply classLike_Class | exact Hh |].
      reflexivity. }
    eapply firstMatch_Cat.
    { change (":" +:+ m +:+ R)%string with (String ":" (m +:+ R)).
      apply firstMatch_Class. reflexivity. }
    apply (firstMatch_Plus_run _ perl_d); [apply classLike_Class | exact Hm | exact HRd].
  - eapply firstMatch_Cat.
    { apply firstMatch_sep; [exact Hw2|].
      apply (startsWith_sapp _ perl_d); [apply digit_not_space | exact Htail]. }
    apply firstMatch_Alt_r.
    + apply (matches_Plus_then_lit _ perl_d); try assumption;
        [apply classLike_Class | apply Htail | apply digit_not_colon].
    + apply (firstMatch_Plus_run _ perl_d); [apply classLike_Class | exact Htail | exact HRd].
Qed.

Lemma startsWith_plusOf p x y : plusOf p x -> startsWith p (x +:+ y) = true.
Proof.
  intros [Hne Hx]. destruct x as [|b x]; [contradiction|].
  rewrite sapp_cons. cbn in *. apply andb_true_iff in Hx. apply Hx.
Qed.

Lemma tsShape_starts ts R : tsShape ts -> startsWith perl_s (ts +:+ R) = false.
Proof.
  intros (mon & w1 & day & w2 & tail & -> & Hmon & _). rewrite !sapp_assoc.
  apply (startsWith_sapp _ perl_w); [apply word_not_space | exact Hmon].
Qed.

Lemma startsWith_sapp_l p x y :
  x <> EmptyString -> startsWith p (x +:+ y) = startsWith p x.
Proof. destruct x as [|b x]; [contradiction|]. reflexivity. Qed.

(** The whole of [lineRegex] on a line of the shape it describes. *)
Lemma lineRegex_firstMatch whole perms i1 i2 i3 i4 ts name trailer c :
  lineShape 4%nat whole perms [i1; i2; i3; i4] ts name ->
  startsWith perl_s name = false -> startsWith any_char trailer = false ->
  firstMatch lineRegex (whole +:+ trailer) c
    (trailer,
     <[7%nat := name]> (<[6%nat := ts]> (<[5%nat := i4]> (<[4%nat := i3]>
       (<[3%nat := i2]> (<[2%nat := i1]> (<[1%nat := perms]> c))))))).
Proof.
  intros (w0 & fields & w6 & -> & Hperms & Hw0 & Hint & _ & Hts & Hw6 & Hname) Hn Ht.
  inversion Hint as [|? wa ? ? s1 Hi1 Hwa Hint1]; subst.
  inversion Hint1 as [|? wb ? ? s2 Hi2 Hwb Hint2]; subst.
  inversion Hint2 as [|? wc ? ? s3 Hi3 Hwc Hint3]; subst.
  inversion Hint3 as [|? wd ? ? s4 Hi4 Hwd Hint4]; subst.
  inversion Hint4; subst.
  rewrite !sapp_assoc. unfold lineRegex. cbv zeta. cbn [cats].
  eapply firstMatch_Cat.
  { apply (firstMatch_field _ _ (orClass perl_w (lit "-"))); [apply classLike_perms | exact Hperms |].
    apply (startsWith_sapp _ perl_s); [apply space_not_perms | exact Hw0]. }
  eapply firstMatch_Cat.
  { apply firstMatch_sep; [exact Hw0|].
    apply (startsWith_sapp _ perl_d); [apply digit_not_space | exact Hi1]. }
  eapply firstMatch_Cat.
  { apply (firstMatch_field _ _ perl_d); [apply classLike_Class | exact Hi1 |].
    apply (startsWith_sapp _ perl_s); [apply space_not_digit | exact Hwa]. }
  eapply firstMatch_Cat.
  { apply firstMatch_sep; [exact Hwa|].
    apply (startsWith_sapp _ perl_d); [apply digit_not_space | exact Hi2]. }
  eapply firstMatch_Cat.
  { apply (firstMatch_field _ _ perl_d); [apply classLike_Class | exact Hi2 |].
    apply (startsWith_sapp _ perl_s); [apply space_not_digit | exact Hwb]. }
  eapply firstMatch_Cat.
  { apply firstMatch_sep; [exact Hwb|].
    apply (startsWith_sapp _ perl_d); [apply digit_not_space | exact Hi3]. }
  eapply firstMatch_Cat.
  { apply (firstMatch_field _ _ perl_d); [apply classLike_Class | exact Hi3 |].
    apply (startsWith_sapp _ perl_s); [apply space_not_digit | exact Hwc]. }
  eapply firstMatch_Cat.
  { apply firstMatch_sep; [exact Hwc|].
    apply (startsWith_sapp _ perl_d); [apply digit_not_space | exact Hi4]. }
  eapply firstMatch_Cat.
  { apply (firstMatch_field _ _ perl_d); [apply classLike_Class | exact Hi4 |].
    apply (startsWith_sapp _ perl_s); [apply space_not_digit | exact Hwd]. }
  eapply firstMatch_Cat.
  { apply firstMatch_sep; [exact Hwd|]. apply tsShape_starts. exact Hts. }
  eapply firstMatch_Cat.
  { pose proof (firstMatch_Cap 6 _ _
                  (<[5%nat := i4]> (<[4%nat := i3]> (<[3%nat := i2]> (<[2%nat := i1]>
                     (<[1%nat := perms]> c))))) _ _
                  (firstMatch_timestamp ts (w6 +:+ name +:+ trailer) _ Hts
                     (startsWith_plusOf _ _ _ Hw6))) as F.
    rewrite consumed_sapp in F. exact F. }
  eapply firstMatch_Cat.
  { apply firstMatch_sep; [exact Hw6|].
    rewrite startsWith_sapp_l; [exact Hn | apply Hname]. }
  apply (firstMatch_field _ _ any_char); [apply classLike_Class | exact Hname | exact Ht].
Qed.

Lemma search_firstMatch r s rest c :
  firstMatch (Cap 0 r) s (replicate (S (numSubexp r)) EmptyString) (rest, c) ->
  search r s = Some c.
Proof.
  intros [tl E]. destruct s as [|b s]; cbn [search]; rewrite E; reflexivity.
Qed.

Lemma matches_Cap_nil n r s c : matches r s c = [] -> matches (Cap n r) s c = [].
Proof. intros E. cbn [matches]. rewrite E. reflexivity. Qed.

Lemma matches_Cat_nil r1 r2 s c : matches r1 s c = [] -> matches (Cat r1 r2) s c = [].
Proof. intros E. cbn [matches]. rewrite E. reflexivity. Qed.

(** No match of [lineRegex] starts at a byte that is neither a word byte
    nor a dash. *)
Lemma lineRegex_no_start b s c :
  orClass perl_w (lit "-") b = false -> matches (Cap 0 lineRegex) (String b s) c = [].
Proof.
  intros Hb. unfold lineRegex. cbv zeta. cbn [cats].
  apply matches_Cap_nil, matches_Cat_nil, matches_Cap_nil.
  apply (matches_Plus_stop _ (orClass perl_w (lit "-"))); [apply classLike_perms | exact Hb].
Qed.

Lemma search_lineRegex_skip pre s :
  noneOf (orClass perl_w (lit "-")) pre ->
  search lineRegex (pre +:+ s) = search lineRegex s.
Proof.
  unfold noneOf. induction pre as [|b pre IH]; [intros _; rewrite sapp_nil_l; reflexivity|].
  cbn [list_ascii_of_string forallb]. rewrite andb_true_iff, negb_true_iff.
  intros [Hb Hpre]. rewrite sapp_cons. cbn [search].
  rewrite lineRegex_no_start by exact Hb. apply IH. exact Hpre.
Qed.

(** X9.  The bytes before the permission string that are neither word bytes nor
    dashes (white space, for one) are passed over: the line is read as if
    they were not there. *)
Theorem scanDropboxLineToFileEntry_skips_prefix (localOffset clockSec clockNsec : Z)
  (pre line : string) :
  noneOf (orClass perl_w (lit "-")) pre ->
  scanDropboxLineToFileEntry localOffset clockSec clockNsec (pre +:+ line) =
  scanDropboxLineToFileEntry localOffset clockSec clockNsec line.
Proof.
  intros Hpre. unfold scanDropboxLineToFileEntry, FindStringSubmatch.
  rewrite search_lineRegex_skip by exact Hpre. reflexivity.
Qed.

Lemma FindStringSubmatch_lineRegex_canonical pre whole perms i1 i2 i3 i4 ts name trailer :
  noneOf (orClass perl_w (lit "-")) pre ->
  lineShape 4%nat whole perms [i1; i2; i3; i4] ts name ->
  startsWith perl_s name = false -> startsWith any_char trailer = false ->
  FindStringSubmatch lineRegex (pre +:+ whole +:+ trailer) =
  Some [whole; perms; i1; i2; i3; i4; ts; name].
Proof.
  intros Hpre Hshape Hn Ht. unfold FindStringSubmatch.
  rewrite search_lineRegex_skip by exact Hpre.
  pose proof (firstMatch_Cap 0 _ _ _ _ _
                (lineRegex_firstMatch whole perms i1 i2 i3 i4 ts name trailer
                   (replicate (S (numSubexp lineRegex)) EmptyString) Hshape Hn Ht)) as F.
  rewrite consumed_sapp in F. apply search_firstMatch in F. rewrite F. reflexivity.
Qed.

(** X10.  A line of the shape [lineRegex] describes (permission string, four
    unsigned integers, time stamp, name, separated by white space), whose
    name does not start with white space, is taken apart into exactly
    these fields, whatever bytes that cannot start a permission string
    come before it and whatever follows the first line break after the
    name: the entry is made of the name, of the directory flag of the
    permission string and of the instant of the time stamp, and the line
    is rejected exactly when one of these two is. *)
Theorem scanDropboxLineToFileEntry_canonical (localOffset clockSec clockNsec : Z)
  (pre whole perms i1 i2 i3 i4 ts name trailer : string) :
  noneOf (orClass perl_w (lit "-")) pre ->
  lineShape 4%nat whole perms [i1; i2; i3; i4] ts name ->
  startsWith perl_s name = false -> startsWith any_char trailer = false ->
  scanDropboxLineToFileEntry localOffset clockSec clockNsec (pre +:+ whole +:+ trailer) =
  match parsePermsToDirectoryFlag perms,
        parseDateStampToTime localOffset clockSec clockNsec ts with
  | (isDir, None), (t, None) => (Some (mkFileEntry name t isDir), None)
  | _, _ => (None, Some ErrParseLine)
  end.
Proof.
  intros Hpre Hshape Hn Ht. unfold scanDropboxLineToFileEntry.
  rewrite (FindStringSubmatch_lineRegex_canonical pre whole perms i1 i2 i3 i4 ts name trailer)
    by assumption.
  cbn [nth filename created isDirectory].
  destruct (parsePermsToDirectoryFlag perms) as [isDir [e|]]; [reflexivity|].
  destruct (parseDateStampToTime localOffset clockSec clockNsec ts) as [t [e|]]; reflexivity.
Qed.

(** ** The Date Resolver accepts the time stamps of a listing *)

Lemma digitChar_spec n :
  0 <= n <= 9 ->
  byteIn "0" "9" (digitChar n) = true /\ digitVal (digitChar n) = n /\
  Ascii.eqb (digitChar n) " " = false.
Proof.
  intros H.
  set (chk := fun n =>
    byteIn "0" "9" (digitChar n) && (digitVal (digitChar n) =? n)
    && negb (Ascii.eqb (digitChar n) " ")).
  assert (E : chk n = true) by (apply (forallb_range chk 10); [vm_compute; reflexivity | lia]).
  unfold chk in E. rewrite !andb_true_iff, Z.eqb_eq, negb_true_iff in E. tauto.
Qed.

Lemma skip_empty v : skip v "" = (v, true).
Proof. reflexivity. Qed.

Lemma cutspace_spaces k rest :
  match rest with String c _ => Ascii.eqb c " " | EmptyString => false end = false ->
  cutspace (spaces k +:+ rest) = rest.
Proof.
  intros H. induction k as [|k IH].
  - change (spaces 0 +:+ rest)%string with (String " " rest). cbn [cutspace].
    change (Ascii.eqb " " " ") with true. cbn iota.
    destruct rest as [|c rest]; [reflexivity|]. cbn [cutspace]. rewrite H. reflexivity.
  - change (spaces (S k) +:+ rest)%string with (String " " (spaces k +:+ rest)).
    cbn [cutspace]. change (Ascii.eqb " " " ") with true. cbn iota. exact IH.
Qed.

(** A run of spaces in the value stands for the spaces of the layout. *)
Lemma skip_spaces_run k rest prefix :
  prefix = " "%string \/ prefix = "  "%string ->
  match rest with String c _ => Ascii.eqb c " " | EmptyString => false end = false ->
  skip (spaces k +:+ rest) prefix = (rest, true).
Proof.
  intros Hp H.
  assert (E : skip (spaces k +:+ rest) prefix = (cutspace (spaces k +:+ rest), true)).
  { destruct k; destruct Hp as [->| ->]; reflexivity. }
  rewrite E, cutspace_spaces by exact H. reflexivity.
Qed.

Lemma lookup_monthName m rest :
  1 <= m <= 12 -> lookup shortMonthNames (monthName m +:+ rest) = Some (m - 1, rest).
Proof.
  intros H.
  assert (Hin : In m (map Z.of_nat (seq 1 12))).
  { apply in_map_iff. exists (Z.to_nat m). split; [lia | apply in_seq; lia]. }
  vm_compute in Hin.
  repeat (destruct Hin as [<-|Hin]; [reflexivity|]). contradiction.
Qed.

Lemma dec2_digits n :
  0 <= n <= 99 ->
  byteIn "0" "9" (digitChar (n / 10)) = true /\ byteIn "0" "9" (digitChar (n mod 10)) = true /\
  digitVal (digitChar (n / 10)) * 10 + digitVal (digitChar (n mod 10)) = n.
Proof.
  intros H.
  assert (H1 : 0 <= n / 10 <= 9) by (Z.div_mod_to_equations; lia).
  assert (H2 : 0 <= n mod 10 <= 9) by (Z.div_mod_to_equations; lia).
  destruct (digitChar_spec _ H1) as (A1 & A2 & _).
  destruct (digitChar_spec _ H2) as (B1 & B2 & _).
  repeat split; try assumption. rewrite A2, B2. Z.div_mod_to_equations. lia.
Qed.

Lemma getnum_dec2 n rest fixed :
  0 <= n <= 99 -> getnum (dec2 n +:+ rest) fixed = (n, rest, true).
Proof.
  intros H. destruct (dec2_digits n H) as (A & B & E).
  change (dec2 n +:+ rest)%string
    with (String (digitChar (n / 10)) (String (digitChar (n mod 10)) rest)).
  rewrite getnum_two_digits by assumption. rewrite E. reflexivity.
Qed.

Lemma getnum_numeral n s rest :
  0 <= n <= 99 -> numeral n s -> isDigit rest 0 = false ->
  getnum (s +:+ rest) false = (n, rest, true).
Proof.
  intros H [-> | ->] Hr; [|apply getnum_dec2; exact H].
  unfold dec. destruct (Z.ltb_spec n 10); [|apply getnum_dec2; exact H].
  destruct (digitChar_spec n ltac:(lia)) as (A & B & _).
  change (String (digitChar n) "" +:+ rest)%string with (String (digitChar n) rest).
  unfold getnum, isDigit in *. cbn [String.get]. rewrite A. cbn [negb].
  destruct rest as [|c rest]; cbn [String.get] in *; [rewrite B; reflexivity|].
  rewrite Hr. cbn [negb]. rewrite B. reflexivity.
Qed.

Lemma numeral_first n s rest :
  0 <= n <= 99 -> numeral n s ->
  match (s +:+ rest)%string with String c _ => Ascii.eqb c " " | EmptyString => false end = false.
Proof.
  intros H [-> | ->].
  - unfold dec. destruct (Z.ltb_spec n 10).
    + apply (digitChar_spec n). lia.
    + apply (digitChar_spec (n / 10)). Z.div_mod_to_equations. lia.
  - apply (digitChar_spec (n / 10)). Z.div_mod_to_equations. lia.
Qed.

Lemma isDigit_spaces k rest : isDigit (spaces k +:+ rest) 0 = false.
Proof. destruct k; reflexivity. Qed.

Section Accepts.
Variable off : Z.


End Accepts.

Lemma atoi_dec4 y : 0 <= y <= 9999 -> atoi (dec4 y) = Some y.
Proof.
  intros H.
  assert (H1 : 0 <= y / 100 <= 99) by (Z.div_mod_to_equations; lia).
  assert (H2 : 0 <= y mod 100 <= 99) by (Z.div_mod_to_equations; lia).
  destruct (dec2_digits _ H1) as (A1 & A2 & A3).
  destruct (dec2_digits _ H2) as (B1 & B2 & B3).
  pose proof (digitVal_range _ A1) as RA1. pose proof (digitVal_range _ A2) as RA2.
  pose proof (digitVal_range _ B1) as RB1. pose proof (digitVal_range _ B2) as RB2.
  change (dec4 y) with
    (String (digitChar (y / 100 / 10)) (String (digitChar ((y / 100) mod 10))
       (String (digitChar (y mod 100 / 10)) (String (digitChar ((y mod 100) mod 10)) "")))).
  set (a := digitChar (y / 100 / 10)) in *. set (b := digitChar ((y / 100) mod 10)) in *.
  set (c := digitChar (y mod 100 / 10)) in *. set (d := digitChar ((y mod 100) mod 10)) in *.
  unfold atoi.
  assert (Hs : Ascii.eqb a "-" || Ascii.eqb a "+" = false).
  { apply orb_false_iff.
    split; apply Ascii.eqb_neq; intros E; rewrite E in A1; discriminate A1. }
  rewrite Hs. unfold leadingInt. cbn [leadingInt_loop]. rewrite A1, A2, B1, B2. cbn [negb].
  change (2 ^ 63 / 10) with 922337203685477580. change (2 ^ 63) with 9223372036854775808.
  destruct (Z.gtb_spec 0 922337203685477580); [lia|].
  destruct (Z.gtb_spec (0 * 10 + digitVal a) 9223372036854775808); [lia|].
  destruct (Z.gtb_spec (0 * 10 + digitVal a) 922337203685477580); [lia|].
  destruct (Z.gtb_spec ((0 * 10 + digitVal a) * 10 + digitVal b) 9223372036854775808); [lia|].
  destruct (Z.gtb_spec ((0 * 10 + digitVal a) * 10 + digitVal b) 922337203685477580); [lia|].
  destruct (Z.gtb_spec (((0 * 10 + digitVal a) * 10 + digitVal b) * 10 + digitVal c)
              9223372036854775808); [lia|].
  destruct (Z.gtb_spec (((0 * 10 + digitVal a) * 10 + digitVal b) * 10 + digitVal c)
              922337203685477580); [lia|].
  destruct (Z.gtb_spec ((((0 * 10 + digitVal a) * 10 + digitVal b) * 10 + digitVal c) * 10
                        + digitVal d) 9223372036854775808); [lia|].
  f_equal. clear - A3 B3 H. Z.div_mod_to_equations. lia.
Qed.

Section AcceptsYear.
Variable off : Z.


End AcceptsYear.



(** ** The Date Resolver: the form without a year stays within a year of [now] *)




(** ** The Date Resolver rejects days and times out of range *)

Lemma digit_not_sign a :
  byteIn "0" "9" a = true -> Ascii.eqb a "-" || Ascii.eqb a "+" = false.
Proof.
  intros Ha. apply orb_false_iff.
  split; apply Ascii.eqb_neq; intros E; rewrite E in Ha; discriminate Ha.
Qed.

(** [atoi] rejects digits followed by a colon. *)
Lemma atoi_colon_1 a rest :
  byteIn "0" "9" a = true -> atoi (String a (String ":" rest)) = None.
Proof.
  intros Ha. unfold atoi. rewrite (digit_not_sign a Ha).
  unfold leadingInt. cbn [leadingInt_loop]. rewrite Ha. cbn [negb].
  pose proof (digitVal_range a Ha) as Ra.
  change (2 ^ 63 / 10) with 922337203685477580. change (2 ^ 63) with 9223372036854775808.
  destruct (Z.gtb_spec 0 922337203685477580); [lia|].
  destruct (Z.gtb_spec (0 * 10 + digitVal a) 9223372036854775808); [lia|].
  reflexivity.
Qed.

Lemma atoi_colon_2 a b rest :
  byteIn "0" "9" a = true -> byteIn "0" "9" b = true ->
  atoi (String a (String b (String ":" rest))) = None.
Proof.
  intros Ha Hb. unfold atoi. rewrite (digit_not_sign a Ha).
  unfold leadingInt. cbn [leadingInt_loop]. rewrite Ha, Hb. cbn [negb].
  pose proof (digitVal_range a Ha) as Ra. pose proof (digitVal_range b Hb) as Rb.
  change (2 ^ 63 / 10) with 922337203685477580. change (2 ^ 63) with 9223372036854775808.
  destruct (Z.gtb_spec 0 922337203685477580); [lia|].
  destruct (Z.gtb_spec (0 * 10 + digitVal a) 9223372036854775808); [lia|].
  destruct (Z.gtb_spec (0 * 10 + digitVal a) 922337203685477580); [lia|].
  destruct (Z.gtb_spec ((0 * 10 + digitVal a) * 10 + digitVal b) 9223372036854775808); [lia|].
  reflexivity.
Qed.

(** The year of the layout with a year cannot be read from a time of
    day. *)
Lemma longYear_time_of_day h hs mi :
  0 <= h <= 99 -> 0 <= mi <= 99 -> numeral h hs ->
  (String.length (hs +:+ ":" +:+ dec2 mi) <? 4)%nat
  || negb (isDigit (hs +:+ ":" +:+ dec2 mi) 0) = false /\
  atoi (take 4 (hs +:+ ":" +:+ dec2 mi)) = None.
Proof.
  intros Hh Hmi Hhs.
  assert (D2 : forall n, 0 <= n <= 99 ->
            byteIn "0" "9" (digitChar (n / 10)) = true /\
            byteIn "0" "9" (digitChar (n mod 10)) = true).
  { intros n Hn. destruct (dec2_digits n Hn) as (A & B & _). split; assumption. }
  destruct Hhs as [-> | ->].
  - unfold dec. destruct (Z.ltb_spec h 10).
    + destruct (digitChar_spec h ltac:(lia)) as (A & _).
      change (String (digitChar h) "" +:+ ":" +:+ dec2 mi)%string
        with (String (digitChar h) (String ":" (dec2 mi))).
      split; [unfold isDigit; cbn; rewrite A; reflexivity|].
      apply atoi_colon_1. exact A.
    + destruct (D2 h Hh) as [A B].
      change (dec2 h +:+ ":" +:+ dec2 mi)%string
        with (String (digitChar (h / 10)) (String (digitChar (h mod 10))
               (String ":" (dec2 mi)))).
      split; [unfold isDigit; cbn; rewrite A; reflexivity|].
      apply atoi_colon_2; assumption.
  - destruct (D2 h Hh) as [A B].
    change (dec2 h +:+ ":" +:+ dec2 mi)%string
      with (String (digitChar (h / 10)) (String (digitChar (h mod 10))
             (String ":" (dec2 mi)))).
    split; [unfold isDigit; cbn; rewrite A; reflexivity|].
    apply atoi_colon_2; assumption.
Qed.

Section Rejects.
Variable off : Z.

Lemma ParseInLocation_withYear_time_of_day m d h mi k1 k2 ds hs l :
  1 <= m <= 12 -> 0 <= d <= 99 -> 0 <= h <= 99 -> 0 <= mi <= 99 ->
  numeral d ds -> numeral h hs ->
  snd (ParseInLocation off dateWithYearLayout
         (monthName m +:+ spaces k1 +:+ ds +:+ spaces k2 +:+ hs +:+ ":" +:+ dec2 mi) l)
  <> None.
Proof.
  intros Hm Hd Hh Hmi Hds Hhs.
  unfold ParseInLocation. rewrite layoutChunks_withYear.
  cbn [parseLoop]. cbv zeta. unfold newParseError.
  cbn [f_year f_month f_day f_hour f_min initFields].
  rewrite skip_empty. cbn [negb].
  rewrite lookup_monthName by exact Hm.
  rewrite (skip_spaces_run k1);
    [|left; reflexivity | apply (numeral_first d); [exact Hd | exact Hds]].
  cbn [negb].
  rewrite (getnum_numeral d); [|exact Hd | exact Hds | apply isDigit_spaces].
  cbn [negb].
  rewrite (skip_spaces_run k2);
    [|left; reflexivity | apply (numeral_first h); [exact Hh | exact Hhs]].
  cbn [negb].
  destruct (longYear_time_of_day h hs mi Hh Hmi Hhs) as [E1 E2].
  rewrite E1, E2. cbn. discriminate.
Qed.

Lemma ParseInLocation_noYear_out_of_range m d h mi k1 k2 ds hs l :
  1 <= m <= 12 -> 0 <= d <= 99 -> 0 <= h <= 99 -> 0 <= mi <= 99 ->
  numeral d ds -> numeral h hs ->
  d < 1 \/ daysIn m 0 < d \/ 24 <= h \/ 60 <= mi ->
  snd (ParseInLocation off dateWithTimeNoYearLayout
         (monthName m +:+ spaces k1 +:+ ds +:+ spaces k2 +:+ hs +:+ ":" +:+ dec2 mi) l)
  <> None.
Proof.
  intros Hm Hd Hh Hmi Hds Hhs Hbad.
  unfold ParseInLocation. rewrite layoutChunks_noYear.
  cbn [parseLoop]. cbv zeta. unfold newParseError.
  cbn [f_year f_month f_day f_hour f_min initFields].
  rewrite skip_empty. cbn [negb].
  rewrite lookup_monthName by exact Hm.
  rewrite (skip_spaces_run k1);
    [|right; reflexivity | apply (numeral_first d); [exact Hd | exact Hds]].
  cbn [negb].
  rewrite (getnum_numeral d); [|exact Hd | exact Hds | apply isDigit_spaces].
  cbn [negb].
  rewrite (skip_spaces_run k2);
    [|left; reflexivity | apply (numeral_first h); [exact Hh | exact Hhs]].
  cbn [negb].
  rewrite (getnum_numeral h); [|exact Hh | exact Hhs | reflexivity].
  destruct (Z.ltb_spec h 0); [lia|]. cbn [orb].
  destruct (Z.leb_spec 24 h); [cbn; discriminate|]. cbn [negb].
  change (skip (":" +:+ dec2 mi) ":") with (dec2 mi, true). cbn [negb].
  replace (dec2 mi) with (dec2 mi +:+ "")%string by apply sapp_nil_r.
  rewrite getnum_dec2 by lia.
  destruct (Z.ltb_spec mi 0); [lia|]. cbn [orb].
  destruct (Z.leb_spec 60 mi); [cbn; discriminate|]. cbn [negb].
  rewrite skip_empty. cbn [negb String.length Nat.eqb].
  unfold parseFinish, newParseError. cbn [f_year f_month f_day f_hour f_min].
  destruct (Z.ltb_spec (m - 1 + 1) 0); [lia|]. destruct (Z.ltb_spec d 0); [lia|].
  replace (m - 1 + 1) with m by lia.
  destruct (Z.ltb_spec d 1); [cbn; discriminate|]. cbn [orb].
  destruct (Z.gtb_spec d (daysIn m 0)); [cbn; discriminate|]. lia.
Qed.

End Rejects.

(** X14.  A time stamp printed as month, day and HH:MM whose day does not exist
    in that month (February having 29 days here), whose hour is 24 or
    more or whose minute is 60 or more is rejected: neither layout reads
    it, and the error is the [*time.ParseError] of the layout with a
    year. *)
Theorem parseDateStampToTime_rejects_out_of_range (localOffset clockSec clockNsec : Z)
  (month day hour min : Z) (k1 k2 : nat) (ds hs : string) :
  1 <= month <= 12 -> 0 <= day <= 99 -> 0 <= hour <= 99 -> 0 <= min <= 99 ->
  numeral day ds -> numeral hour hs ->
  day < 1 \/ daysIn month 0 < day \/ 24 <= hour \/ 60 <= min ->
  let dateString :=
    (monthName month +:+ spaces k1 +:+ ds +:+ spaces k2 +:+ hs +:+ ":" +:+ dec2 min)%string in
  exists layoutElem valueElem message,
    parseDateStampToTime localOffset clockSec clockNsec dateString =
    (zeroTime,
     Some (ErrTimeParse
             (mkParseError dateWithYearLayout dateString layoutElem valueElem message))).
Proof.
  intros Hm Hd Hh Hmi Hds Hhs Hbad dateString.
  pose proof (ParseInLocation_noYear_out_of_range localOffset month day hour min k1 k2 ds hs
                Local Hm Hd Hh Hmi Hds Hhs Hbad) as H1.
  pose proof (ParseInLocation_withYear_time_of_day localOffset month day hour min k1 k2 ds hs
                Local Hm Hd Hh Hmi Hds Hhs) as H2.
  fold dateString in H1, H2. unfold parseDateStampToTime.
  destruct (ParseInLocation localOffset dateWithTimeNoYearLayout dateString Local)
    as [t1 [e1|]]; [|exfalso; apply H1; reflexivity].
  destruct (ParseInLocation localOffset dateWithYearLayout dateString Local)
    as [t2 [e2|]] eqn:E2; [|exfalso; apply H2; reflexivity].
  destruct (ParseInLocation_withYear_error localOffset dateString t2 e2 E2)
    as (_ & le & ve & msg & ->).
  exists le, ve, msg. reflexivity.
Qed.

Section RejectsYear.
Variable off : Z.

Lemma ParseInLocation_noYear_year m d y k1 k2 ds l :
  1 <= m <= 12 -> 0 <= d <= 99 -> 0 <= y <= 9999 -> numeral d ds ->
  snd (ParseInLocation off dateWithTimeNoYearLayout
         (monthName m +:+ spaces k1 +:+ ds +:+ spaces k2 +:+ dec4 y) l)
  <> None.
Proof.
  intros Hm Hd Hy Hds.
  assert (Hy1 : 0 <= y / 100 <= 99) by (Z.div_mod_to_equations; lia).
  assert (Hy2 : 0 <= y / 100 / 10 <= 9) by (Z.div_mod_to_equations; lia).
  assert (Hy3 : 0 <= (y mod 100) / 10 <= 9) by (Z.div_mod_to_equations; lia).
  destruct (digitChar_spec _ Hy2) as (A1 & _ & A3).
  destruct (digitChar_spec _ Hy3) as (B1 & _).
  unfold ParseInLocation. rewrite layoutChunks_noYear.
  cbn [parseLoop]. cbv zeta. unfold newParseError.
  cbn [f_year f_month f_day f_hour f_min initFields].
  rewrite skip_empty. cbn [negb].
  rewrite lookup_monthName by exact Hm.
  rewrite (skip_spaces_run k1);
    [|right; reflexivity | apply (numeral_first d); [exact Hd | exact Hds]].
  cbn [negb].
  rewrite (getnum_numeral d); [|exact Hd | exact Hds | apply isDigit_spaces].
  cbn [negb].
  rewrite (skip_spaces_run k2); [|left; reflexivity | exact A3].
  cbn [negb]. unfold dec4.
  rewrite getnum_dec2 by exact Hy1.
  destruct ((y / 100 <? 0) || (24 <=? y / 100)); [cbn; discriminate|]. cbn [negb].
  change (dec2 (y mod 100))
    with (String (digitChar (y mod 100 / 10)) (String (digitChar ((y mod 100) mod 10)) "")).
  pose proof (skip_colon_digit (digitChar (y mod 100 / 10))
                (String (digitChar ((y mod 100) mod 10)) "") B1) as Hsk.
  destruct (skip _ ":") as [v5 ok5]. cbn in Hsk. subst ok5. cbn. discriminate.
Qed.

Lemma ParseInLocation_withYear_day_out_of_range m d y k1 k2 ds l :
  1 <= m <= 12 -> 0 <= d <= 99 -> 0 <= y <= 9999 -> numeral d ds ->
  d < 1 \/ daysIn m y < d ->
  snd (ParseInLocation off dateWithYearLayout
         (monthName m +:+ spaces k1 +:+ ds +:+ spaces k2 +:+ dec4 y) l)
  <> None.
Proof.
  intros Hm Hd Hy Hds Hbad.
  assert (Hy2 : 0 <= y / 100 / 10 <= 9) by (Z.div_mod_to_equations; lia).
  destruct (digitChar_spec _ Hy2) as (A1 & _ & A3).
  unfold ParseInLocation. rewrite layoutChunks_withYear.
  cbn [parseLoop]. cbv zeta. unfold newParseError.
  cbn [f_year f_month f_day f_hour f_min initFields].
  rewrite skip_empty. cbn [negb].
  rewrite lookup_monthName by exact Hm.
  rewrite (skip_spaces_run k1);
    [|left; reflexivity | apply (numeral_first d); [exact Hd | exact Hds]].
  cbn [negb].
  rewrite (getnum_numeral d); [|exact Hd | exact Hds | apply isDigit_spaces].
  cbn [negb].
  rewrite (skip_spaces_run k2); [|left; reflexivity | exact A3].
  cbn [negb].
  assert (E4 : take 4 (dec4 y) = dec4 y) by reflexivity.
  assert (E5 : drop 4 (dec4 y) = EmptyString) by reflexivity.
  assert (E6 : (String.length (dec4 y) <? 4)%nat = false) by reflexivity.
  assert (E7 : isDigit (dec4 y) 0 = true) by exact A1.
  rewrite E4, E5, E6, E7, atoi_dec4 by exact Hy. cbn [orb negb].
  rewrite skip_empty. cbn [negb String.length Nat.eqb].
  unfold parseFinish, newParseError. cbn [f_year f_month f_day f_hour f_min].
  destruct (Z.ltb_spec (m - 1 + 1) 0); [lia|]. destruct (Z.ltb_spec d 0); [lia|].
  replace (m - 1 + 1) with m by lia.
  destruct (Z.ltb_spec d 1); [cbn; discriminate|]. cbn [orb].
  destruct (Z.gtb_spec d (daysIn m y)); [cbn; discriminate|]. lia.
Qed.

End RejectsYear.

(** X15.  A time stamp printed as month, day and a year of four digits whose
    day does not exist in that month of that year (February 29 of a
    common year, for one) is rejected, with the [*time.ParseError] of the
    layout with a year; the day is not carried over into the next
    month. *)
Theorem parseDateStampToTime_rejects_day_withYear (localOffset clockSec clockNsec : Z)
  (year month day : Z) (k1 k2 : nat) (ds : string) :
  0 <= year <= 9999 -> 1 <= month <= 12 -> 0 <= day <= 99 -> numeral day ds ->
  day < 1 \/ daysIn month year < day ->
  let dateString :=
    (monthName month +:+ spaces k1 +:+ ds +:+ spaces k2 +:+ dec4 year)%string in
  exists layoutElem valueElem message,
    parseDateStampToTime localOffset clockSec clockNsec dateString =
    (zeroTime,
     Some (ErrTimeParse
             (mkParseError dateWithYearLayout dateString layoutElem valueElem message))).
Proof.
  intros Hy Hm Hd Hds Hbad dateString.
  pose proof (ParseInLocation_noYear_year localOffset month day year k1 k2 ds Local
                Hm Hd Hy Hds) as H1.
  pose proof (ParseInLocation_withYear_day_out_of_range localOffset month day year k1 k2 ds
                Local Hm Hd Hy Hds Hbad) as H2.
  fold dateString in H1, H2. unfold parseDateStampToTime.
  destruct (ParseInLocation localOffset dateWithTimeNoYearLayout dateString Local)
    as [t1 [e1|]]; [|exfalso; apply H1; reflexivity].
  destruct (ParseInLocation localOffset dateWithYearLayout dateString Local)
    as [t2 [e2|]] eqn:E2; [|exfalso; apply H2; reflexivity].
  destruct (ParseInLocation_withYear_error localOffset dateString t2 e2 E2)
    as (_ & le & ve & msg & ->).
  exists le, ve, msg. reflexivity.
Qed.

(** ** The Line Parser on the lines of a listing *)











(** ** The helper of the tests and the Date Resolver *)

(** X18.  The tests expect, for a time stamp without a year, the date in the
    year of the clock passed through [adjustAnswerYearIfNeeded].  The Date
    Resolver returns exactly that when both clock readings of the test
    fall in the year of [now] and on the same side of the candidate
    instant as [now]; when the candidate instant falls between [now] and
    the helper's later reading, the two differ by the roll-back of one
    year. *)
Theorem adjustAnswerYearIfNeeded_agrees (localOffset clockSec clockNsec : Z)
  (yearSec yearNsec callSec callNsec : Z)
  (dateString : string) (month day hour min : Z) :
  1 <= month <= 12 -> 1 <= day <= daysIn month 0 -> 0 <= hour < 24 -> 0 <= min < 60 ->
  ParseInLocation localOffset dateWithTimeNoYearLayout dateString Local
    = (Date localOffset 0 month day hour min 0 0 Local, None) ->
  Year localOffset (Now yearSec yearNsec) = Year localOffset (now clockSec clockNsec) ->
  let candidate :=
    Date localOffset (Year localOffset (Now yearSec yearNsec)) month day hour min 0 0 Local in
  let expected := adjustAnswerYearIfNeeded localOffset callSec callNsec candidate in
  let result := parseDateStampToTime localOffset clockSec clockNsec dateString in
  (After candidate (Now callSec callNsec) = After candidate (now clockSec clockNsec) ->
   result = (expected, None)) /\
  (After candidate (now clockSec clockNsec) = true ->
   After candidate (Now callSec callNsec) = false ->
   result = (AddDate localOffset expected (-1) 0 0, None)).
Proof.
  intros Hm Hd Hh Hmi Hp HY candidate expected result.
  assert (E : result =
              (if After candidate (now clockSec clockNsec)
               then AddDate localOffset candidate (-1) 0 0 else candidate, None)).
  { unfold result, parseDateStampToTime. rewrite Hp.
    rewrite AddDate_years by assumption. rewrite Z.add_0_l, <- HY. fold candidate.
    destruct (After candidate (now clockSec clockNsec)); reflexivity. }
  unfold expected, adjustAnswerYearIfNeeded. split.
  - intros ->. exact E.
  - intros H1 H2. rewrite H2. rewrite E, H1. reflexivity.
Qed.

(** ** The providers of the tests *)

Lemma fileErrors_notin (fs : list (string * bool)) (m0 : gmap string bool) (k : string) :
  ~ In k (map fst fs) ->
  fold_left (fun m f => <[fst f := snd f]> m) fs m0 !! k = m0 !! k.
Proof.
  revert m0. induction fs as [|f fs IH]; intros m0 Hk; [reflexivity|].
  cbn [fold_left]. rewrite IH.
  - apply lookup_insert_ne. intros E. apply Hk. left. exact E.
  - intros Hin. apply Hk. right. exact Hin.
Qed.

Lemma fileErrors_lookup (fs : list (string * bool)) (m0 : gmap string bool) (k : string) (v : bool) :
  NoDup (map fst fs) -> In (k, v) fs ->
  fold_left (fun m f => <[fst f := snd f]> m) fs m0 !! k = Some v.
Proof.
  revert m0. induction fs as [|f fs IH]; intros m0 Hnd Hin; [destruct Hin|].
  cbn [map] in Hnd. apply NoDup_cons in Hnd. destruct Hnd as [Hf Hnd].
  cbn [fold_left]. destruct Hin as [->|Hin].
  - cbn [fst snd]. rewrite fileErrors_notin.
    + apply lookup_insert_eq.
    + intros Hin. apply Hf. apply list_elem_of_In. exact Hin.
  - apply IH; assumption.
Qed.

Lemma extractAll_stateless {World} (j : JobLister World)
  (f : gmap string Reader -> slice string * option error)
  (jobs : list (gmap string string)) (w : World) :
  (forall r w, jl_getDropboxFilesFromJob World j r w = (f r, w)) ->
  extractAll j jobs w = (map (fun job => f (NewReader <$> job)) jobs, w).
Proof.
  intros H. induction jobs as [|job jobs IH]; [reflexivity|].
  cbn [extractAll map]. rewrite H, IH. reflexivity.
Qed.

Lemma extractAll_testJobLister (jl : testJobLister) (fs : list (string * bool)) :
  (forall k v, In (k, v) fs -> tjl_fileErrors jl !! k = Some v) ->
  extractAll (testJobLister_provider jl) (tjl_jobs (newTestJobLister false fs)) tt =
  (map (fun f : string * bool =>
          if snd f then (None, Some (ErrExternal "error!"))
          else (Some (Split (fst f) ","), None)) fs, tt).
Proof.
  intros H.
  rewrite (extractAll_stateless _
             (fun r => match r !! "FILE_ATTRIBUTE"%string with
                       | Some val =>
                           match tjl_fileErrors jl !! fst (Copy val) with
                           | Some true => (None, Some (ErrExternal "error!"))
                           | _ => (Some (Split (fst (Copy val)) ","), None)
                           end
                       | None => (None, Some (ErrExternal "key missing"))
                       end)).
  - cbn [newTestJobLister tjl_jobs]. rewrite map_map. f_equal.
    apply map_ext_in. intros [k v] Hin. cbn [fst snd].
    rewrite lookup_fmap, lookup_singleton_eq.
    cbn [fmap option_fmap option_map Copy NewReader fst r_data].
    rewrite (H k v Hin). destruct v; reflexivity.
  - intros r w. cbn [testJobLister_provider jl_getDropboxFilesFromJob].
    destruct (r !! "FILE_ATTRIBUTE"%string) as [val|]; [|reflexivity].
    destruct (tjl_fileErrors jl !! fst (Copy val)) as [[]|]; reflexivity.
Qed.

(** X19.  The job provider of the tests, made of file strings with distinct
    texts, lists one job per file string; [GetActiveFiles] then returns
    the comma-separated parts of the file strings that are not staged to
    fail, in order, and the error of the query when that is staged to
    fail. *)
Theorem GetActiveFiles_testJobLister (queryError : bool) (filestrings : list (string * bool))
  (attributes constraints : slice string) :
  NoDup (map fst filestrings) ->
  GetActiveFiles unit (testJobLister_provider (newTestJobLister queryError filestrings))
    attributes constraints tt =
  if queryError then ((Some [], Some (ErrExternal "this is an error")), tt)
  else
    ((Some (concat (map (fun f => Split (fst f) ",")
                      (List.filter (fun f => negb (snd f)) filestrings))), None), tt).
Proof.
  intros Hnd. unfold GetActiveFiles.
  cbn [testJobLister_provider queryJobsList newTestJobLister tjl_queryError tjl_jobs].
  destruct queryError; [reflexivity|].
  rewrite GetActiveFiles_loop_extractAll. cbn [elems].
  change (map (fun f : string * bool => {[ "FILE_ATTRIBUTE"%string := fst f ]}) filestrings)
    with (tjl_jobs (newTestJobLister false filestrings)).
  rewrite extractAll_testJobLister
    by (intros k v Hin; apply fileErrors_lookup; assumption).
  cbn [fst snd app]. f_equal. f_equal. f_equal.
  clear Hnd. induction filestrings as [|[k v] fs IH]; [reflexivity|].
  cbn [map List.filter]. destruct v; cbn [snd fst negb]; rewrite succeeded_cons.
  - exact IH.
  - cbn [map concat elems]. rewrite IH. reflexivity.
Qed.

Lemma convertAll_stateless {World} (f : FileAccessor World)
  (g : Reader -> FileEntry * option error) (ls : list string) (w : World) :
  (forall r w, fileListingToFileEntry World f r w = (g r, w)) ->
  convertAll f ls w = (map (fun l => g (NewReader l)) ls, w).
Proof.
  intros H. induction ls as [|l ls IH]; [reflexivity|].
  cbn [convertAll map]. rewrite H, IH. reflexivity.
Qed.

Lemma tfa_find_skip name pre epre l el :
  length pre = length epre ->
  ~ In name (map filename pre) ->
  tfa_find name (pre ++ l) (epre ++ el) = tfa_find name l el.
Proof.
  revert epre. induction pre as [|e pre IH]; intros [|b epre] Hlen Hn; try discriminate;
    [reflexivity|].
  cbn [app tfa_find].
  destruct (String.eqb_spec (filename e) name) as [E|E].
  - exfalso. apply Hn. left. exact E.
  - apply IH; [cbn in Hlen; lia|]. intros Hin. apply Hn. right. exact Hin.
Qed.

Lemma tfa_find_all entries errs pre epre suf esuf :
  entries = pre ++ suf -> errs = epre ++ esuf ->
  length pre = length epre -> length suf = length esuf ->
  NoDup (map filename entries) ->
  succeeded (map (fun l => tfa_find (fst (Copy (NewReader l))) entries errs)
               (map filename suf)) =
  map fst (List.filter (fun p => negb (snd p)) (combine suf esuf)).
Proof.
  revert pre epre esuf. induction suf as [|e suf IH]; intros pre epre esuf -> -> Hp Hs Hnd;
    [reflexivity|].
  destruct esuf as [|b esuf]; [discriminate|].
  cbn [map combine List.filter Copy NewReader fst r_data].
  assert (Hn : ~ In (filename e) (map filename pre)).
  { rewrite map_app in Hnd. apply NoDup_app in Hnd. destruct Hnd as (_ & Hd & _).
    intros Hin. apply (Hd (filename e)); [apply list_elem_of_In; exact Hin|].
    apply list_elem_of_In. left. reflexivity. }
  rewrite tfa_find_skip by assumption. cbn [tfa_find]. rewrite String.eqb_refl.
  specialize (IH (pre ++ [e]) (epre ++ [b]) esuf).
  rewrite <- !app_assoc in IH. cbn [app] in IH.
  assert (IH' := IH eq_refl eq_refl
                   ltac:(rewrite !length_app; cbn; lia) ltac:(cbn in Hs; lia) Hnd).
  cbn [Copy NewReader fst r_data] in IH'.
  destruct b; cbn [snd negb]; rewrite succeeded_cons.
  - exact IH'.
  - cbn [map fst]. rewrite IH'. reflexivity.
Qed.

(** X20.  The file provider of the tests lists the names of its entries and
    finds each entry again by its name: with distinct names and one error
    flag per entry, [GetDropboxFiles] returns the entries whose flag is
    not set, in order; it fails when the listing is staged to fail, and
    when there are entries and every flag is set. *)
Theorem GetDropboxFiles_testFileAccessor (entries : list FileEntry) (listingError : bool)
  (errs : list bool) (source : string) :
  NoDup (map filename entries) -> length errs = length entries ->
  GetDropboxFiles unit
    (testFileAccessor_provider (mkTestFileAccessor entries listingError errs)) source tt =
  let kept := map fst (List.filter (fun p => negb (snd p)) (combine entries errs)) in
  if listingError
  then ((None, Some (ErrExternal "some generic file listing error")), tt)
  else if negb (length entries =? 0)%nat && (length kept =? 0)%nat
       then ((None, Some ErrNoFileEntries), tt)
       else ((Some kept, None), tt).
Proof.
  intros Hnd Hlen. cbv zeta. unfold GetDropboxFiles.
  cbn [testFileAccessor_provider getFilesList tfa_existsFileListingError tfa_fileEntries].
  destruct listingError; [reflexivity|].
  rewrite GetDropboxFiles_loop_convertAll. cbn [elems app].
  rewrite (convertAll_stateless _
             (fun r => tfa_find (fst (Copy r)) entries errs)) by reflexivity.
  cbn [fst snd].
  rewrite (tfa_find_all entries errs [] [] entries errs eq_refl eq_refl eq_refl
             (eq_sym Hlen) Hnd).
  rewrite length_map. reflexivity.
Qed.

(** ** Instances of the further properties *)

Lemma GetActiveFiles_CondorSchedd_witness :
  let jobs : list (gmap string string) :=
    [ {[ "PNFS_INPUT_FILES"%string := "/path/to/myfile, /path/to/myfile2"%string ]};
      {[ "PNFS_INPUT_FILES_WRONG"%string := "/path/to/myfile3"%string ]};
      {[ "PNFS_INPUT_FILES"%string := "/path/to/myfile4"%string ]} ] in
  let j := mkJobLister unit (fun _ _ w => ((Some jobs, None), w))
             (fun r w => (getDropboxFilesFromJob r, w)) in
  (forall r w, jl_getDropboxFilesFromJob unit j r w = (getDropboxFilesFromJob r, w)) /\
  queryJobsList unit j None None tt = ((Some jobs, None), tt) /\
  GetActiveFiles unit j None None tt =
    ((Some (concat (map jobFiles jobs)), None), tt) /\
  concat (map jobFiles jobs) =
    ["/path/to/myfile"; "/path/to/myfile2"; "/path/to/myfile4"]%string.
Proof.
  intros jobs j. split; [reflexivity|]. split; [reflexivity|].
  split; [|vm_compute; reflexivity].
  exact (GetActiveFiles_CondorSchedd j None None tt tt (Some jobs)
           (fun _ _ => eq_refl) eq_refl).
Defined.

Lemma fileIsRecent_monotone_witness :
  let f := mkFileEntry "/path/to/recent_file.txt" (mkTime (1696766400 - 7 * 86400) 0 Local) false in
  let g := mkFileEntry "/path/to/newer_file.txt" (mkTime (1696766400 - 86400) 0 Local) false in
  wfTime (now 1696766400 0) /\ wfTime (created f) /\ wfTime (created g) /\
  Before (created g) (created f) = false /\
  fileIsRecent 1696766400 0 f = true /\
  fileIsRecent 1696766400 0 g = true.
Proof.
  cbv zeta.
  assert (H1 : wfTime (now 1696766400 0)) by (repeat split; vm_compute; congruence).
  assert (H2 : wfTime (mkTime (1696766400 - 7 * 86400) 0 Local)) by (repeat split; vm_compute; congruence).
  assert (H3 : wfTime (mkTime (1696766400 - 86400) 0 Local)) by (repeat split; vm_compute; congruence).
  split; [exact H1|]. split; [exact H2|]. split; [exact H3|].
  split; [vm_compute; reflexivity|]. split; [vm_compute; reflexivity|].
  apply (fileIsRecent_monotone 1696766400 0
           (mkFileEntry "/path/to/recent_file.txt" (mkTime (1696766400 - 7 * 86400) 0 Local) false)
           (mkFileEntry "/path/to/newer_file.txt" (mkTime (1696766400 - 86400) 0 Local) false)
           H1 H2 H3); vm_compute; reflexivity.
Defined.

Lemma fileIsRecent_not_before_now_witness :
  let f := mkFileEntry "/path/to/future_file.txt" (mkTime (1696766400 + 400 * 86400) 0 Local) false in
  wfTime (now 1696766400 0) /\ wfTime (created f) /\
  Before (created f) (now 1696766400 0) = false /\
  fileIsRecent 1696766400 0 f = true.
Proof.
  cbv zeta.
  assert (H1 : wfTime (now 1696766400 0)) by (repeat split; vm_compute; congruence).
  assert (H2 : wfTime (mkTime (1696766400 + 400 * 86400) 0 Local)) by (repeat split; vm_compute; congruence).
  split; [exact H1|]. split; [exact H2|]. split; [vm_compute; reflexivity|].
  apply (fileIsRecent_not_before_now 1696766400 0
           (mkFileEntry "/path/to/future_file.txt" (mkTime (1696766400 + 400 * 86400) 0 Local) false)
           H1 H2); vm_compute; reflexivity.
Defined.

Lemma isASCII_closed (s : string) :
  forallb (fun c => byteZ c <? 128) (list_ascii_of_string s) = true -> isASCII s.
Proof.
  induction s as [|b s IH]; cbn [list_ascii_of_string forallb].
  - intros _ i c H. destruct i; discriminate.
  - rewrite andb_true_iff, Z.ltb_lt. intros [Hb Hs] [|i] c; cbn.
    + intros [= <-]. exact Hb.
    + apply (IH Hs).
Qed.

Lemma noSpaceAtEnds_closed (s : string) :
  match String.get 0 s with Some c => negb (asciiSpace c) | None => true end = true ->
  match String.get (String.length s - 1) s with Some c => negb (asciiSpace c) | None => true end = true ->
  noSpaceAtEnds s.
Proof.
  intros H0 H1 c [Hc|Hc]; rewrite Hc in *; apply negb_true_iff; assumption.
Qed.

Lemma getDropboxFilesFromJob_Join_witness :
  let names := ["/path/to/myfile"; "/path/to/myfile2"]%string in
  let job : gmap string string :=
    {[ "PNFS_INPUT_FILES"%string := "/path/to/myfile,/path/to/myfile2"%string ]} in
  names <> [] /\
  Forall (fun n => Count n "," = O /\ isASCII n /\ noSpaceAtEnds n) names /\
  job !! "PNFS_INPUT_FILES"%string = Some (strings_Join names ",") /\
  getDropboxFilesFromJob (NewReader <$> job) = (Some names, None).
Proof.
  cbv zeta.
  assert (H1 : ["/path/to/myfile"; "/path/to/myfile2"]%string <> []) by discriminate.
  assert (H2 : Forall (fun n => Count n "," = O /\ isASCII n /\ noSpaceAtEnds n)
                 ["/path/to/myfile"; "/path/to/myfile2"]%string).
  { repeat constructor; try (apply isASCII_closed; vm_compute; reflexivity);
      apply noSpaceAtEnds_closed; vm_compute; reflexivity. }
  assert (H3 : ({[ "PNFS_INPUT_FILES"%string := "/path/to/myfile,/path/to/myfile2"%string ]}
                  : gmap string string) !! "PNFS_INPUT_FILES"%string =
               Some (strings_Join ["/path/to/myfile"; "/path/to/myfile2"]%string ","))
    by (vm_compute; reflexivity).
  split; [exact H1|]. split; [exact H2|]. split; [exact H3|].
  exact (getDropboxFilesFromJob_Join _ _ H1 H2 H3).
Defined.



Lemma parseDateStampToTime_leap_day_witness :
  0 <= 12 < 24 /\ 0 <= 0 < 60 /\
  ParseInLocation (-18000) dateWithTimeNoYearLayout "Feb 29 12:00" Local
    = (Date (-18000) 0 2 29 12 0 0 0 Local, None) /\
  (let Y := Year (-18000) (now 1696766400 0) in
   let yearDateStamp := Date (-18000) Y 2 29 12 0 0 0 Local in
   exists t,
     parseDateStampToTime (-18000) 1696766400 0 "Feb 29 12:00" = (t, None) /\
     Date_of (-18000) t =
       (if After yearDateStamp (now 1696766400 0) then (Y - 1, 3, 1)
        else if isLeap Y then (Y, 2, 29) else (Y, 3, 1)) /\
     Clock (-18000) t = (12, 0, 0)) /\
  parseDateStampToTime (-18000) 1696766400 0 "Feb 29 12:00"
    = (Date (-18000) 2023 3 1 12 0 0 0 Local, None).
Proof.
  assert (H1 : 0 <= 12 < 24) by lia.
  assert (H2 : 0 <= 0 < 60) by lia.
  assert (H3 : ParseInLocation (-18000) dateWithTimeNoYearLayout "Feb 29 12:00" Local
               = (Date (-18000) 0 2 29 12 0 0 0 Local, None)) by (vm_compute; reflexivity).
  repeat (split; [assumption|]).
  split; [|vm_compute; reflexivity].
  exact (parseDateStampToTime_leap_day (-18000) 1696766400 0 "Feb 29 12:00" 12 0 H1 H2 H3).
Defined.

Lemma scanDropboxLineToFileEntry_skips_prefix_witness :
  noneOf (orClass perl_w (lit "-")) "  "%string /\
  scanDropboxLineToFileEntry (-18000) 1696766400 0
    ("  " +:+ "drwxrwxrwx   0 0     0             0 Apr  6  2022 bogus_dir") =
  scanDropboxLineToFileEntry (-18000) 1696766400 0
    "drwxrwxrwx   0 0     0             0 Apr  6  2022 bogus_dir".
Proof.
  assert (H : noneOf (orClass perl_w (lit "-")) "  "%string) by reflexivity.
  split; [exact H|].
  exact (scanDropboxLineToFileEntry_skips_prefix (-18000) 1696766400 0 "  "
           "drwxrwxrwx   0 0     0             0 Apr  6  2022 bogus_dir" H).
Defined.

Lemma scanDropboxLineToFileEntry_canonical_witness :
  let whole := "-rwxrwxrwx   0 0     0            50 Sep 26 14:55 bogus_file.out"%string in
  let trailer := String (ascii_of_nat 10) "drwxrwxrwx 0 0 0 0 Apr  6  2022 bogus_dir" in
  noneOf (orClass perl_w (lit "-")) " "%string /\
  lineShape 4%nat whole "-rwxrwxrwx" ["0"; "0"; "0"; "50"]%string "Sep 26 14:55" "bogus_file.out" /\
  startsWith perl_s "bogus_file.out" = false /\ startsWith any_char trailer = false /\
  scanDropboxLineToFileEntry (-18000) 1696766400 0 (" " +:+ whole +:+ trailer) =
  match parsePermsToDirectoryFlag "-rwxrwxrwx",
        parseDateStampToTime (-18000) 1696766400 0 "Sep 26 14:55" with
  | (isDir, None), (t, None) => (Some (mkFileEntry "bogus_file.out" t isDir), None)
  | _, _ => (None, Some ErrParseLine)
  end.
Proof.
  intros whole trailer.
  assert (H1 : noneOf (orClass perl_w (lit "-")) " "%string) by reflexivity.
  assert (H2 : lineShape 4%nat whole "-rwxrwxrwx" ["0"; "0"; "0"; "50"]%string
                 "Sep 26 14:55" "bogus_file.out").
  { exists "   "%string, "0 0     0            50 Sep 26 14:55 bogus_file.out"%string, " "%string.
    repeat split; try discriminate; try reflexivity.
    - apply (intFields_cons "0" " " _ _ "0     0            50 Sep 26 14:55 bogus_file.out");
        [split; [discriminate | reflexivity] ..|].
      apply (intFields_cons "0" "     " _ _ "0            50 Sep 26 14:55 bogus_file.out");
        [split; [discriminate | reflexivity] ..|].
      apply (intFields_cons "0" "            " _ _ "50 Sep 26 14:55 bogus_file.out");
        [split; [discriminate | reflexivity] ..|].
      apply (intFields_cons "50" " " _ _ "Sep 26 14:55 bogus_file.out");
        [split; [discriminate | reflexivity] ..|].
      apply intFields_nil.
    - exists "Sep"%string, " "%string, "26"%string, " "%string, "14:55"%string.
      repeat split; try discriminate; try reflexivity.
      left. exists "14"%string, "55"%string. repeat split; try discriminate; reflexivity. }
  assert (H3 : startsWith perl_s "bogus_file.out" = false) by reflexivity.
  assert (H4 : startsWith any_char trailer = false) by reflexivity.
  repeat (split; [assumption|]).
  exact (scanDropboxLineToFileEntry_canonical (-18000) 1696766400 0 " " whole
           "-rwxrwxrwx" "0" "0" "0" "50" "Sep 26 14:55" "bogus_file.out" trailer H1 H2 H3 H4).
Defined.

Lemma adjustAnswerYearIfNeeded_agrees_witness :
  1 <= 9 <= 12 /\ 1 <= 26 <= daysIn 9 0 /\ 0 <= 14 < 24 /\ 0 <= 55 < 60 /\
  ParseInLocation (-18000) dateWithTimeNoYearLayout "Sep 26 14:55" Local
    = (Date (-18000) 0 9 26 14 55 0 0 Local, None) /\
  Year (-18000) (Now 1696766401 0) = Year (-18000) (now 1696766400 0) /\
  let candidate :=
    Date (-18000) (Year (-18000) (Now 1696766401 0)) 9 26 14 55 0 0 Local in
  let expected := adjustAnswerYearIfNeeded (-18000) 1696766402 0 candidate in
  let result := parseDateStampToTime (-18000) 1696766400 0 "Sep 26 14:55" in
  (After candidate (Now 1696766402 0) = After candidate (now 1696766400 0) ->
   result = (expected, None)) /\
  (After candidate (now 1696766400 0) = true ->
   After candidate (Now 1696766402 0) = false ->
   result = (AddDate (-18000) expected (-1) 0 0, None)).
Proof.
  assert (H1 : 1 <= 9 <= 12) by lia.
  assert (H2 : 1 <= 26 <= daysIn 9 0) by (vm_compute; split; congruence).
  assert (H3 : 0 <= 14 < 24) by lia.
  assert (H4 : 0 <= 55 < 60) by lia.
  assert (H5 : ParseInLocation (-18000) dateWithTimeNoYearLayout "Sep 26 14:55" Local
               = (Date (-18000) 0 9 26 14 55 0 0 Local, None)) by (vm_compute; reflexivity).
  assert (H6 : Year (-18000) (Now 1696766401 0) = Year (-18000) (now 1696766400 0))
    by (vm_compute; reflexivity).
  repeat (split; [assumption|]).
  exact (adjustAnswerYearIfNeeded_agrees (-18000) 1696766400 0 1696766401 0 1696766402 0
           "Sep 26 14:55" 9 26 14 55 H1 H2 H3 H4 H5 H6).
Defined.




Lemma GetActiveFiles_testJobLister_witness :
  let filestrings := [("/path/to/file2", true); ("/path/to/file1,blahblah", false)]%string in
  NoDup (map fst filestrings) /\
  GetActiveFiles unit (testJobLister_provider (newTestJobLister false filestrings))
    None (Some []) tt =
  ((Some ["/path/to/file1"; "blahblah"]%string, None), tt).
Proof.
  intros filestrings.
  assert (H : NoDup (map fst filestrings)).
  { apply (bool_decide_unpack _). vm_compute. exact I. }
  split; [exact H|].
  exact (GetActiveFiles_testJobLister false filestrings None (Some []) H).
Defined.

Lemma GetDropboxFiles_testFileAccessor_witness :
  let entries := [test_foo; test_bardir; test_baz] in
  let errs := [false; true; false] in
  NoDup (map filename entries) /\ length errs = length entries /\
  GetDropboxFiles unit
    (testFileAccessor_provider (mkTestFileAccessor entries false errs)) "" tt =
  ((Some [test_foo; test_baz], None), tt).
Proof.
  intros entries errs.
  assert (H : NoDup (map filename entries)).
  { apply (bool_decide_unpack _). vm_compute. exact I. }
  split; [exact H|]. split; [reflexivity|].
  exact (GetDropboxFiles_testFileAccessor entries false errs "" H eq_refl).
Defined.

Lemma parseDateStampToTime_rejects_out_of_range_witness :
  1 <= 4 <= 12 /\ 0 <= 31 <= 99 /\ 0 <= 10 <= 99 /\ 0 <= 0 <= 99 /\
  numeral 31 "31" /\ numeral 10 "10" /\
  (31 < 1 \/ daysIn 4 0 < 31 \/ 24 <= 10 \/ 60 <= 0) /\
  let dateString :=
    (monthName 4 +:+ spaces 0 +:+ "31" +:+ spaces 0 +:+ "10" +:+ ":" +:+ dec2 0)%string in
  dateString = "Apr 31 10:00"%string /\
  exists layoutElem valueElem message,
    parseDateStampToTime (-18000) 1696766400 0 dateString =
    (zeroTime,
     Some (ErrTimeParse
             (mkParseError dateWithYearLayout dateString layoutElem valueElem message))).
Proof.
  assert (H1 : 1 <= 4 <= 12) by lia.
  assert (H2 : 0 <= 31 <= 99) by lia.
  assert (H3 : 0 <= 10 <= 99) by lia.
  assert (H4 : 0 <= 0 <= 99) by lia.
  assert (H5 : numeral 31 "31") by (left; reflexivity).
  assert (H6 : numeral 10 "10") by (left; reflexivity).
  assert (H7 : 31 < 1 \/ daysIn 4 0 < 31 \/ 24 <= 10 \/ 60 <= 0)
    by (right; left; vm_compute; reflexivity).
  repeat (split; [assumption|]). intros dateString. split; [reflexivity|].
  exact (parseDateStampToTime_rejects_out_of_range (-18000) 1696766400 0 4 31 10 0 0 0
           "31" "10" H1 H2 H3 H4 H5 H6 H7).
Defined.

Lemma parseDateStampToTime_rejects_day_withYear_witness :
  0 <= 2023 <= 9999 /\ 1 <= 2 <= 12 /\ 0 <= 29 <= 99 /\ numeral 29 "29" /\
  (29 < 1 \/ daysIn 2 2023 < 29) /\
  let dateString := (monthName 2 +:+ spaces 0 +:+ "29" +:+ spaces 1 +:+ dec4 2023)%string in
  dateString = "Feb 29  2023"%string /\
  exists layoutElem valueElem message,
    parseDateStampToTime (-18000) 1696766400 0 dateString =
    (zeroTime,
     Some (ErrTimeParse
             (mkParseError dateWithYearLayout dateString layoutElem valueElem message))).
Proof.
  assert (H1 : 0 <= 2023 <= 9999) by lia.
  assert (H2 : 1 <= 2 <= 12) by lia.
  assert (H3 : 0 <= 29 <= 99) by lia.
  assert (H4 : numeral 29 "29") by (left; reflexivity).
  assert (H5 : 29 < 1 \/ daysIn 2 2023 < 29) by (right; vm_compute; reflexivity).
  repeat (split; [assumption|]). intros dateString. split; [reflexivity|].
  exact (parseDateStampToTime_rejects_day_withYear (-18000) 1696766400 0 2023 2 29 0 1 "29"
           H1 H2 H3 H4 H5).
Defined.


